(** * Content-based recommenders and their evaluation (recommenders.py)

    A shallow embedding of [BaseRecommender.evaluate],
    [ContentBasedRecommender.generate_recommendations] and
    [ImprovedRecommender.generate_recommendations], followed by the
    properties of the specification that concern them.

    Conventions of the embedding.
    - Python exceptions are values of [Py.exn]; a computation that may raise
      returns a [Py.result].  The [while] loop of the generators is run with
      fuel; [OutOfFuel] is the only outcome that stands for "still looping".
    - Item identifiers are row positions of the item table; they, [amount],
      [k] and [read_max] are natural numbers.
    - 64-bit floats are idealised: feature values and cosine distances are
      rationals ([Q]), the log2-discounted metrics are reals ([R]), and a
      metric whose computation divides by zero is undefined ([None]).
    - scikit-learn is not part of the repository.  Its argument checks are
      written out in [fit] and [kneighbors]; the neighbour search and the
      numeric transforms are the fields of a record, [Sklearn], over which
      the generators are parameterised. *)

From Stdlib Require Import String.
From Stdlib Require Import List Arith Bool Lia PeanoNat.
From Stdlib Require Import QArith.
From Stdlib Require Import Sorting.Sorted Sorting.Permutation.
From Stdlib Require Import Reals Lra.
From Stdlib Require DecimalString.
Import ListNotations.

Close Scope R_scope.
Close Scope Q_scope.
Open Scope nat_scope.
Open Scope list_scope.

(** ** Python exceptions and results *)

Module Py.

Inductive exn : Type :=
| AssertionError (lineno : nat)   (* an [assert] of recommenders.py, by source line *)
| AttributeError (name : string)
| KeyError
| IndexError
| ValueError
| LibraryError (code : nat).      (* raised inside a numeric transform of a library *)

Inductive result (A : Type) : Type :=
| Ok (a : A)
| Raise (e : exn)
| OutOfFuel.

Arguments Ok {A} a.
Arguments Raise {A} e.
Arguments OutOfFuel {A}.

Definition bind {A B : Type} (m : result A) (k : A -> result B) : result B :=
  match m with
  | Ok a => k a
  | Raise e => Raise e
  | OutOfFuel => OutOfFuel
  end.

Definition py_assert (lineno : nat) (b : bool) : result unit :=
  if b then Ok tt else Raise (AssertionError lineno).

(** A call of a numeric transform of a library: it returns, or raises an
    exception of its own. *)
Definition call {A : Type} (r : nat + A) : result A :=
  match r with
  | inl code => Raise (LibraryError code)
  | inr a => Ok a
  end.

End Py.

Import Py.

Declare Scope py_scope.
Delimit Scope py_scope with py.
Notation "x <- m ;; k" := (Py.bind m (fun x => k))
  (at level 61, m at next level, right associativity) : py_scope.
Notation "m ;;; k" := (Py.bind m (fun _ => k))
  (at level 61, right associativity) : py_scope.
Open Scope py_scope.

(** ** Membership tests on identifier lists ([id in row["item_id"]]) *)

Definition mem (x : nat) (l : list nat) : bool := existsb (Nat.eqb x) l.

(** ** The neighbour index (sklearn.neighbors.NearestNeighbors, cosine metric) *)

Definition vector := list Q.

Record NeighborIndex : Type := {
  n_samples_fit : nat;
  (* cosine distance, as the library computes it, from a query to fitted row i *)
  distance : vector -> nat -> Q;
  (* indices returned by the search for a query and 1 <= k <= n_samples_fit *)
  search : vector -> nat -> list nat
}.

(** [NearestNeighbors.kneighbors(X, n_neighbors, return_distance=True)] for a
    single query row: rejects [n_neighbors <= 0] and
    [n_neighbors > n_samples_fit] with a ValueError, otherwise returns the
    pair (distances, indices). *)
Definition kneighbors (nbrs : NeighborIndex) (q : vector) (n_neighbors : nat)
  : result (list Q * list nat) :=
  if n_neighbors =? 0 then Raise ValueError
  else if n_samples_fit nbrs <? n_neighbors then Raise ValueError
  else let ind := search nbrs q n_neighbors in
       Ok (map (distance nbrs q) ind, ind).

(** What the library promises about a search, for one query vector: [k]
    distinct row positions, nearest first. *)
Record search_ok (nbrs : NeighborIndex) (q : vector) : Prop := {
  search_length : forall k, 1 <= k <= n_samples_fit nbrs ->
                            length (search nbrs q k) = k;
  search_NoDup : forall k, 1 <= k <= n_samples_fit nbrs ->
                           NoDup (search nbrs q k);
  search_range : forall k, 1 <= k <= n_samples_fit nbrs ->
                           Forall (fun i => i < n_samples_fit nbrs) (search nbrs q k);
  search_sorted : forall k, 1 <= k <= n_samples_fit nbrs ->
                            Sorted (fun i j => (distance nbrs q i <= distance nbrs q j)%Q)
                                   (search nbrs q k)
}.

(** ** The adaptive retrieval loop (lines 254-262 and 379-387)

<<
    gen_am = amount//5
    recommendations = []
    while len(recommendations) < amount:
        gen_am += amount - len(recommendations)
        nns = nbrs.kneighbors(user_vector, gen_am, return_distance=True)
        recommendations = list(filter(lambda id: id not in row["item_id"], nns[1][0]))
>>
*)

Section Retrieval.

Variable nbrs : NeighborIndex.
Variable user_vector : vector.
Variable item_id : list nat.        (* row["item_id"] *)
Variable amount : nat.

Definition not_owned (id : nat) : bool := negb (mem id item_id).

Fixpoint retrieval_loop (fuel : nat) (gen_am : nat) (recommendations : list nat)
  : result (list nat) :=
  if length recommendations <? amount then
    match fuel with
    | 0 => OutOfFuel
    | S fuel' =>
        let gen_am' := gen_am + (amount - length recommendations) in
        nns <- kneighbors nbrs user_vector gen_am' ;;
        retrieval_loop fuel' gen_am' (filter not_owned (snd nns))
    end
  else Ok recommendations.

(** The loop as the generators run it, and the list they append
    ([recommendations[:amount]]). *)
Definition retrieve (fuel : nat) : result (list nat) :=
  retrieval_loop fuel (amount / 5) [].

Definition recommend (fuel : nat) : result (list nat) :=
  recommendations <- retrieve fuel ;;
  Ok (firstn amount recommendations).

End Retrieval.

(** ** Feature matrices and data frames *)

Inductive storage : Type := Csr | Dense.

(** A 2-d numeric array ([scipy.sparse.csr_matrix], [numpy.ndarray], or the
    numeric data frame built from one), with its shape written out so that a
    table of [n] rows and no column is representable. *)
Record matrix : Type := {
  storage_of : storage;
  n_cols : nat;
  values : list (list Q)
}.

Definition n_rows (X : matrix) : nat := length (values X).

(** [items.iloc[positions, :]]: the rows at the given positions, in that
    order; a position outside the table raises IndexError. *)
Fixpoint iloc (rows : list (list Q)) (positions : list nat) : result (list (list Q)) :=
  match positions with
  | [] => Ok []
  | i :: rest =>
      match nth_error rows i with
      | None => Raise IndexError
      | Some r => rs <- iloc rows rest ;; Ok (r :: rs)
      end
  end.

(** [DataFrame.empty]: true when any axis has length 0. *)
Definition empty (ncols : nat) (rows : list (list Q)) : bool :=
  (length rows =? 0) || (ncols =? 0).

Definition Qsum (l : list Q) : Q := fold_right Qplus (0#1)%Q l.

(** [DataFrame.mean()]: the column-wise arithmetic mean. *)
Definition mean (ncols : nat) (rows : list (list Q)) : vector :=
  map (fun j => (Qsum (map (fun r => nth j r (0#1)%Q) rows)
                 / inject_Z (Z.of_nat (length rows)))%Q)
      (seq 0 ncols).

(** Interaction tables: every cell of the columns used here holds a list of
    integers (item identifiers, playtimes, recommendations).  A row maps
    column names to cells. *)
Definition cell := list nat.

Definition row_t := list (string * cell).

Record DataFrame : Type := {
  columns : list string;
  records : list (nat * row_t)     (* (index label, row) *)
}.

Definition has_column (name : string) (cols : list string) : bool :=
  existsb (String.eqb name) cols.

Fixpoint lookup (name : string) (row : row_t) : option cell :=
  match row with
  | [] => None
  | (c, v) :: rest => if String.eqb c name then Some v else lookup name rest
  end.

(** [row[name]] *)
Definition getitem (row : row_t) (name : string) : result cell :=
  match lookup name row with
  | None => Raise KeyError
  | Some c => Ok c
  end.

Fixpoint set_cell (name : string) (v : cell) (row : row_t) : row_t :=
  match row with
  | [] => [(name, v)]
  | (c, w) :: rest => if String.eqb c name then (c, v) :: rest
                      else (c, w) :: set_cell name v rest
  end.

Fixpoint zip_rows (name : string) (recs : list (nat * row_t)) (vals : list cell)
  : list (nat * row_t) :=
  match recs, vals with
  | (i, r) :: recs', v :: vals' => (i, set_cell name v r) :: zip_rows name recs' vals'
  | _, _ => []
  end.

(** [df[name] = vals]: overwrites the column when it exists, appends it
    otherwise; a value list of the wrong length raises ValueError. *)
Definition setitem (df : DataFrame) (name : string) (vals : list cell) : result DataFrame :=
  if negb (length vals =? length (records df)) then Raise ValueError
  else Ok {| columns := if has_column name (columns df) then columns df
                        else columns df ++ [name];
             records := zip_rows name (records df) vals |}.

(** Review table: per user, the aligned lists [recommend] and [reviews]. *)
Definition ReviewTable := list (nat * (list bool * list nat)).

(** Item metadata table as the feedback branch reads it: item label and the
    ['sentiment'] column ([None] is NaN). *)
Definition MetadataTable := list (nat * option Q).

Fixpoint assoc {A : Type} (key : nat) (l : list (nat * A)) : option A :=
  match l with
  | [] => None
  | (k, v) :: rest => if k =? key then Some v else assoc key rest
  end.

(** ** The recommender objects *)

Record tfidf_mode : Type := { smooth_idf : bool; sublinear_tf : bool }.

(** Lines 147-156: the tf-idf transformer selected by name; any other name
    leaves [self.tfidf] at [None]. *)
Definition select_tfidf (tfidf : string) : option tfidf_mode :=
  if String.eqb tfidf "default" then Some {| smooth_idf := false; sublinear_tf := false |}
  else if String.eqb tfidf "smooth" then Some {| smooth_idf := true; sublinear_tf := false |}
  else if String.eqb tfidf "sublinear" then Some {| smooth_idf := false; sublinear_tf := true |}
  else if String.eqb tfidf "smooth_sublinear" then Some {| smooth_idf := true; sublinear_tf := true |}
  else None.

(** The scikit-learn operations the generators call. *)
Record Sklearn : Type := {
  tfidf_fit_transform : tfidf_mode -> matrix -> nat + matrix;
  normalizer_fit_transform : matrix -> nat + matrix;
  normalizer_transform : vector -> nat + vector;
  cosine_distance : matrix -> vector -> nat -> Q;
  brute_search : matrix -> vector -> nat -> list nat
}.

Inductive recommender_class : Type := ContentBasedRecommender | ImprovedRecommender.

Inductive warning : Type := RuntimeWarning.

(** The attributes of an instance.  [metadata] is [None] when the instance
    has no attribute of that name. *)
Record Recommender : Type := {
  class_of : recommender_class;
  items : matrix;
  train : DataFrame;
  test : DataFrame;
  val : DataFrame;
  recommendations : DataFrame;
  sparse : bool;
  normalize : bool;
  tfidf : option tfidf_mode;
  dim_red : option (matrix -> nat + matrix);
  use_feedback : bool;
  reviews : ReviewTable;
  metadata : option MetadataTable
}.

Definition empty_frame : DataFrame := {| columns := []; records := [] |}.

(** [ContentBasedRecommender.__init__] followed by [BaseRecommender.__init__];
    the tables are the contents of the files the paths name, [features] is
    what [_generate_item_features] built from the item file. *)
Definition ContentBasedRecommender_init
    (features : nat * list (list Q)) (train_data test_data val_data : DataFrame)
    (sparse_arg : bool) (tfidf_arg : string) (normalize_arg : bool) : Recommender :=
  {| class_of := ContentBasedRecommender;
     items := {| storage_of := if sparse_arg then Csr else Dense;
                 n_cols := fst features; values := snd features |};
     train := train_data; test := test_data; val := val_data;
     recommendations := empty_frame;
     sparse := sparse_arg; normalize := normalize_arg;
     tfidf := select_tfidf tfidf_arg;
     dim_red := None; use_feedback := false; reviews := [];
     metadata := None |}.

(** [ImprovedRecommender.__init__] (lines 287-291) and the constructors it
    chains to.  None of them binds [self.metadata]. *)
Definition ImprovedRecommender_init
    (features : nat * list (list Q)) (train_data test_data val_data : DataFrame)
    (reviews_data : ReviewTable) (sparse_arg : bool)
    (dim_red_arg : option (matrix -> nat + matrix)) (tfidf_arg : string)
    (use_feedback_arg : bool) (normalize_arg : bool) : Recommender :=
  {| class_of := ImprovedRecommender;
     items := {| storage_of := if sparse_arg then Csr else Dense;
                 n_cols := fst features; values := snd features |};
     train := train_data; test := test_data; val := val_data;
     recommendations := empty_frame;
     sparse := sparse_arg; normalize := normalize_arg;
     tfidf := select_tfidf tfidf_arg;
     dim_red := dim_red_arg; use_feedback := use_feedback_arg;
     reviews := reviews_data;
     metadata := None |}.

(** [self.metadata]: AttributeError when the attribute is not bound. *)
Definition getattr_metadata (self : Recommender) : result MetadataTable :=
  match metadata self with
  | Some m => Ok m
  | None => Raise (AttributeError "metadata")
  end.

(** [self.metadata.loc[labels, :]['sentiment']]: KeyError on a missing label. *)
Fixpoint loc_sentiment (m : MetadataTable) (labels : list nat) : result (list (option Q)) :=
  match labels with
  | [] => Ok []
  | l :: rest =>
      match assoc l m with
      | None => Raise KeyError
      | Some s => ss <- loc_sentiment m rest ;; Ok (s :: ss)
      end
  end.

(** Lines 357-366: the ['weight'] and ['feedback'] columns of the inventory
    after the explicit reviews of the user were applied.  [labels] is the
    index of [inventory_items]. *)
Definition apply_review (labels : list nat) (wf : list (Q * bool)) (lr : bool * nat)
  : list (Q * bool) :=
  let (like, review) := lr in
  if mem review labels then
    map (fun lw : nat * (Q * bool) =>
           if fst lw =? review then ((if like then 1#1 else 0#1)%Q, true) else snd lw)
        (combine labels wf)
  else wf.

Definition explicit_feedback (labels : list nat) (fb : option (list bool * list nat))
  : list (Q * bool) :=
  let init := map (fun _ => ((0#1)%Q, false)) labels in
  match fb with
  | None => init
  | Some (recommend_flags, reviewed) =>
      fold_left (apply_review labels) (combine recommend_flags reviewed) init
  end.

(** Line 368: [np.where(feedback == False, sentiment, weight)]. *)
Definition feedback_weights (labels : list nat) (sentiment : list (option Q))
           (fb : option (list bool * list nat)) : list (option Q) :=
  map (fun ws : (Q * bool) * option Q =>
         if snd (fst ws) then Some (fst (fst ws)) else snd ws)
      (combine (explicit_feedback labels fb) sentiment).

(** [user_vector.to_numpy()] on a variable that may still hold [None]. *)
Definition to_numpy (user_vector : option vector) : result vector :=
  match user_vector with
  | Some v => Ok v
  | None => Raise (AttributeError "to_numpy")
  end.

(** What a call of [generate_recommendations] leaves behind: the warnings it
    emitted, the local [recommendation_list] when it returned or raised, and
    the instance it returned with (or the exception). *)
Record trace : Type := {
  warnings : list warning;
  recommendation_list : list (list nat);
  outcome : result Recommender
}.

Definition set_recommendations (self : Recommender) (df : DataFrame) (df_is_train : bool)
  : Recommender :=
  {| class_of := class_of self; items := items self;
     train := if df_is_train then df else train self;
     test := test self; val := val self;
     recommendations := df;
     sparse := sparse self; normalize := normalize self; tfidf := tfidf self;
     dim_red := dim_red self; use_feedback := use_feedback self;
     reviews := reviews self; metadata := metadata self |}.

(** [self.train.iloc[:read_max].copy(deep=True) if read_max else self.train];
    the boolean tells whether [df] is [self.train] itself. *)
Definition select_users (train_data : DataFrame) (read_max : option nat) : DataFrame * bool :=
  match read_max with
  | Some (S m) => ({| columns := columns train_data;
                      records := firstn (S m) (records train_data) |}, false)
  | _ => (train_data, true)
  end.

Definition opt_apply {A : Type} (f : option (A -> nat + A)) (x : A) : result A :=
  match f with
  | Some g => call (g x)
  | None => Ok x
  end.

Section Generation.

Variable sk : Sklearn.

(** [NearestNeighbors.set_params(n_neighbors=amount)] and [fit(X)]: the
    parameter and input validation of the library, then the index. *)
Definition fit (n_neighbors : nat) (X : matrix) : result NeighborIndex :=
  if n_neighbors =? 0 then Raise ValueError
  else if (n_rows X =? 0) || (n_cols X =? 0) then Raise ValueError
  else Ok {| n_samples_fit := n_rows X;
             distance := cosine_distance sk X;
             search := brute_search sk X |}.

(** Lines 217-221 and 317-321. *)
Definition feature_array (self : Recommender) : matrix :=
  {| storage_of := if sparse self then Csr else Dense;
     n_cols := n_cols (items self); values := values (items self) |}.

Definition normalized_query (self : Recommender) (user_vector : option vector)
  : result vector :=
  v <- to_numpy user_vector ;;
  if normalize self then call (normalizer_transform sk v) else Ok v.

(** One iteration of the user loop of
    [ContentBasedRecommender.generate_recommendations] (lines 241-264): the
    list that the iteration appends. *)
Definition content_based_row (self : Recommender) (items_frame : matrix)
           (nbrs : NeighborIndex) (amount : nat)
           (index : nat) (row : row_t) : result (list nat) :=
  item_id <- getitem row "item_id" ;;
  owned_items <- iloc (values items_frame) item_id ;;
  py_assert 245 (negb (empty (n_cols items_frame) owned_items)) ;;;
  let user_vector := Some (mean (n_cols items_frame) owned_items) in
  user_vector <- normalized_query self user_vector ;;
  recommend nbrs user_vector item_id amount (S (n_samples_fit nbrs)).

(** Lines 354-370: the feedback branch.  It computes the weight column,
    prints it, and stops at [assert False]; [user_vector] is never
    assigned. *)
Definition feedback_branch (self : Recommender) (index : nat)
           (row : row_t) (item_id : list nat) : result (option vector) :=
  playtime_forever <- getitem row "playtime_forever" ;;
  metadata_table <- getattr_metadata self ;;
  sentiment <- loc_sentiment metadata_table item_id ;;
  let weight := feedback_weights item_id sentiment (assoc index (reviews self)) in
  py_assert 370 false ;;;
  Ok None.

(** One iteration of the user loop of
    [ImprovedRecommender.generate_recommendations] (lines 347-389). *)
Definition improved_row (self : Recommender) (items_frame : matrix)
           (nbrs : NeighborIndex) (amount : nat)
           (index : nat) (row : row_t) : result (list nat) :=
  item_id <- getitem row "item_id" ;;
  inventory_items <- iloc (values items_frame) item_id ;;
  py_assert 351 (negb (empty (n_cols items_frame) inventory_items)) ;;;
  user_vector <- (if use_feedback self
                  then feedback_branch self index row item_id
                  else Ok (Some (mean (n_cols items_frame) inventory_items))) ;;
  user_vector <- normalized_query self user_vector ;;
  recommend nbrs user_vector item_id amount (S (n_samples_fit nbrs)).

(** [for index, row in df.iterrows(): ... recommendation_list.append(...)] *)
Fixpoint for_rows (body : nat -> row_t -> result (list nat))
         (rows : list (nat * row_t)) (recommendation_list : list (list nat))
  : list (list nat) * result unit :=
  match rows with
  | [] => (recommendation_list, Ok tt)
  | (index, row) :: rest =>
      match body index row with
      | Ok recs => for_rows body rest (recommendation_list ++ [recs])
      | Raise e => (recommendation_list, Raise e)
      | OutOfFuel => (recommendation_list, OutOfFuel)
      end
  end.

(** Lines 239-267 and 345-392, shared by both classes once the matrix is
    prepared: fit, the user loop, and the final assignments. *)
Definition fit_and_recommend (self : Recommender) (amount : nat) (read_max : option nat)
           (emitted : list warning) (X : matrix) (frame_storage : storage)
           (body : matrix -> NeighborIndex -> nat -> row_t -> result (list nat))
  : trace :=
  let (df, df_is_train) := select_users (train self) read_max in
  let items_frame := {| storage_of := frame_storage; n_cols := n_cols X;
                        values := values X |} in
  match fit amount X with
  | Ok nbrs =>
      let (appended, looped) :=
        for_rows (body items_frame nbrs) (records df) [] in
      {| warnings := emitted;
         recommendation_list := appended;
         outcome := looped ;;;
                    df' <- setitem df "recommendations" appended ;;
                    Ok (set_recommendations self df' df_is_train) |}
  | Raise e => {| warnings := emitted; recommendation_list := []; outcome := Raise e |}
  | OutOfFuel => {| warnings := emitted; recommendation_list := []; outcome := OutOfFuel |}
  end.

Definition failed_early (e : exn) : trace :=
  {| warnings := []; recommendation_list := []; outcome := Raise e |}.

(** Lines 217-228: the matrix handed to the index. *)
Definition content_based_pipeline (self : Recommender) : result matrix :=
  X <- opt_apply (option_map (tfidf_fit_transform sk) (tfidf self)) (feature_array self) ;;
  if normalize self then call (normalizer_fit_transform sk X) else Ok X.

(** [ContentBasedRecommender.generate_recommendations] (lines 207-267). *)
Definition content_based_generate (self : Recommender) (amount : nat)
           (read_max : option nat) : trace :=
  match content_based_pipeline self with
  | Ok X =>
      fit_and_recommend self amount read_max [] X
        (if sparse self then Csr else Dense)
        (fun items_frame nbrs => content_based_row self items_frame nbrs amount)
  | Raise e => failed_early e
  | OutOfFuel => {| warnings := []; recommendation_list := []; outcome := OutOfFuel |}
  end.

(** Lines 334-336: the warning on [sparse] together with a reduction. *)
Definition conflict_warning (self : Recommender) : list warning :=
  match dim_red self with
  | Some _ => if sparse self then [RuntimeWarning] else []
  | None => []
  end.

(** Lines 337-340: the representation of the item frame. *)
Definition improved_frame_storage (self : Recommender) : storage :=
  match dim_red self with
  | None => if sparse self then Csr else Dense
  | Some _ => Dense
  end.

(** Lines 317-332. *)
Definition improved_pipeline (self : Recommender) : result matrix :=
  X <- opt_apply (option_map (tfidf_fit_transform sk) (tfidf self)) (feature_array self) ;;
  X <- opt_apply (dim_red self) X ;;
  if normalize self then call (normalizer_fit_transform sk X) else Ok X.

(** [ImprovedRecommender.generate_recommendations] (lines 306-392). *)
Definition improved_generate (self : Recommender) (amount : nat)
           (read_max : option nat) : trace :=
  match improved_pipeline self with
  | Ok X =>
      fit_and_recommend self amount read_max (conflict_warning self) X
        (improved_frame_storage self)
        (fun items_frame nbrs => improved_row self items_frame nbrs amount)
  | Raise e => failed_early e
  | OutOfFuel => {| warnings := []; recommendation_list := []; outcome := OutOfFuel |}
  end.

(** Method dispatch on the class of the instance. *)
Definition generate_recommendations (self : Recommender) (amount : nat)
           (read_max : option nat) : trace :=
  match class_of self with
  | ContentBasedRecommender => content_based_generate self amount read_max
  | ImprovedRecommender => improved_generate self amount read_max
  end.

End Generation.

(** ** Evaluation ([BaseRecommender.evaluate], lines 73-125)

    A division by zero is left undefined ([None]); a mean over a
    column with an undefined entry, or over no row at all, is undefined
    too.  The optional dump of the joined table to a parquet file (lines
    94-97) writes a file and changes no table; it is not modelled. *)

Definition rename_key (old new : string) (c : string) : string :=
  if String.eqb c old then new else c.

(** [df.rename(columns={old: new}, inplace=True)] *)
Definition rename_column (old new : string) (df : DataFrame) : DataFrame :=
  {| columns := map (rename_key old new) (columns df);
     records := map (fun r : nat * row_t =>
                       (fst r, map (fun kv : string * cell =>
                                      (rename_key old new (fst kv), snd kv)) (snd r)))
                    (records df) |}.

Definition suffixed (other : list string) (suffix : string) (c : string) : string :=
  if has_column c other then (c ++ suffix)%string else c.

Definition suffix_row (other : list string) (suffix : string) (row : row_t) : row_t :=
  map (fun kv : string * cell => (suffixed other suffix (fst kv), snd kv)) row.

(** [left.merge(right, left_index=True, right_index=True)]: inner join on the
    index labels in the order of the left table; a column name present on
    both sides gets the suffixes [_x] and [_y]. *)
Definition merge (left right : DataFrame) : DataFrame :=
  {| columns := map (suffixed (columns right) "_x") (columns left)
                ++ map (suffixed (columns left) "_y") (columns right);
     records :=
       flat_map (fun l : nat * row_t =>
                   map (fun r : nat * row_t =>
                          (fst l, suffix_row (columns right) "_x" (snd l)
                                  ++ suffix_row (columns left) "_y" (snd r)))
                       (filter (fun r : nat * row_t => fst r =? fst l) (records right)))
                (records left) |}.

(** [df[name]] followed by a row-wise use of the column. *)
Fixpoint column_values (cols : list string) (name : string)
         (rows : list (nat * row_t)) : result (list cell) :=
  match rows with
  | [] => if has_column name cols then Ok [] else Raise KeyError
  | (_, r) :: rest =>
      c <- getitem r name ;;
      cs <- column_values cols name rest ;;
      Ok (c :: cs)
  end.

Fixpoint enumerate {A : Type} (start : nat) (l : list A) : list (nat * A) :=
  match l with
  | [] => []
  | x :: t => (start, x) :: enumerate (S start) t
  end.

(** [set(l)] as a duplicate-free list. *)
Definition to_set (l : list nat) : list nat := nodup Nat.eq_dec l.

Section Metrics.

Local Open Scope R_scope.

Definition log2 (x : R) : R := ln x / ln 2.

Definition Rsum (l : list R) : R := fold_right Rplus 0 l.

(** [int(b)] *)
Definition int_of_bool (b : bool) : R := if b then 1 else 0.

(** Line 103. *)
Definition hit_rate (recs items : list nat) : R :=
  int_of_bool (existsb (fun item => mem item recs) items).

(** Line 107. *)
Definition dcg (recs items : list nat) : R :=
  Rsum (map (fun ir : nat * nat =>
               int_of_bool (mem (snd ir) items) / log2 (INR (fst ir + 2)))
            (enumerate 0 recs)).

(** The divisor of line 108. *)
Definition ideal_dcg (recs items : list nat) : R :=
  Rsum (map (fun i => 1 / log2 (INR (i + 2)))
            (seq 0 (Nat.min (length recs) (length items)))).

(** Line 108; the divisor is 0 exactly when the range is empty. *)
Definition ndcg (recs items : list nat) : option R :=
  if Nat.min (length recs) (length items) =? 0 then None
  else Some (dcg recs items / ideal_dcg recs items).

(** Line 114, on the sets of lines 112-113. *)
Definition recall (recs items : list nat) : option R :=
  let r := to_set recs in
  let i := to_set items in
  if length i =? 0 then None
  else Some (INR (length (filter (fun x => mem x i) r)) / INR (length i)).

(** Line 118. *)
Definition ideal_recall (recs items : list nat) : option R :=
  let r := to_set recs in
  let i := to_set items in
  if length i =? 0 then None
  else Some (INR (Nat.min (length i) (length r)) / INR (length i)).

(** Line 122. *)
Definition n_recall (recs items : list nat) : option R :=
  match recall recs items, ideal_recall recs items with
  | Some r, Some ir =>
      if Nat.min (length (to_set items)) (length (to_set recs)) =? 0 then None
      else Some (r / ir)
  | _, _ => None
  end.

Fixpoint all_defined (l : list (option R)) : option (list R) :=
  match l with
  | [] => Some []
  | None :: _ => None
  | Some x :: t => option_map (cons x) (all_defined t)
  end.

(** [Series.mean()] *)
Definition series_mean (l : list (option R)) : option R :=
  match all_defined l with
  | None => None
  | Some [] => None
  | Some xs => Some (Rsum xs / INR (length xs))
  end.

End Metrics.

(** [f'{name}@{k}'] *)
Definition metric_key (name : string) (k : nat) : string :=
  (name ++ "@" ++ DecimalString.NilEmpty.string_of_uint (Nat.to_uint k))%string.

Definition set_ground_truth (self : Recommender) (val_flag : bool) (gt : DataFrame)
  : Recommender :=
  {| class_of := class_of self; items := items self; train := train self;
     test := if val_flag then test self else gt;
     val := if val_flag then gt else val self;
     recommendations := recommendations self;
     sparse := sparse self; normalize := normalize self; tfidf := tfidf self;
     dim_red := dim_red self; use_feedback := use_feedback self;
     reviews := reviews self; metadata := metadata self |}.

(** The report of [evaluate] on the joined table.  An entry is [None]
    where the code has no number to report: a row whose metric divides by
    zero (for the recall metrics that is Python's ZeroDivisionError, which
    ends the call) or a table without rows. *)
Definition results_dict (k : nat) (eval : DataFrame) : result (list (string * option R)) :=
  recs_col <- column_values (columns eval) "recommendations" (records eval) ;;
  items_col <- column_values (columns eval) "items" (records eval) ;;
  let rows := combine (map (firstn k) recs_col) items_col in
  let column (f : list nat -> list nat -> option R) :=
    series_mean (map (fun ri : list nat * list nat => f (fst ri) (snd ri)) rows) in
  Ok [ (metric_key "HR" k, column (fun r i => Some (hit_rate r i)));
       (metric_key "nDCG" k, column ndcg);
       (metric_key "recall" k, column recall);
       (metric_key "ideal_recall" k, column ideal_recall);
       (metric_key "nRecall" k, column n_recall) ].

(** [evaluate(k=k, val=val_flag)]: the instance after the call and the
    report.  Line 87 renames the column of the selected ground-truth table
    in place, so the instance returned holds the renamed table. *)
Definition evaluate (self : Recommender) (k : nat) (val_flag : bool)
  : Recommender * result (list (string * option R)) :=
  let gt := rename_column "item_id" "items" (if val_flag then val self else test self) in
  let self' := set_ground_truth self val_flag gt in
  let eval := merge (recommendations self') gt in
  (self', results_dict k eval).

(** ** An executable neighbour search

    A brute-force search used to run the generators on concrete tables:
    insertion sort of the row positions by distance.  [ties_ascending]
    chooses how rows at equal distance are ordered, which the library leaves
    open. *)

Section BruteForce.

Variable d : nat -> Q.
Variable ties_ascending : bool.

Definition before (i j : nat) : bool :=
  if ties_ascending then Qle_bool (d i) (d j)
  else negb (Qle_bool (d j) (d i)).

Fixpoint insert (i : nat) (l : list nat) : list nat :=
  match l with
  | [] => [i]
  | j :: t => if before i j then i :: j :: t else j :: insert i t
  end.

Definition ranking (n : nat) : list nat := fold_right insert [] (seq 0 n).

End BruteForce.

Definition dot (u v : vector) : Q :=
  Qsum (map (fun p : Q * Q => (fst p * snd p)%Q) (combine u v)).

(** A rational stand-in for the cosine distance: [1 - cos^2], which orders
    vectors with non-negative entries as the cosine distance does. *)
Definition cosine_rank (u v : vector) : Q :=
  (1 - (dot u v * dot u v) / (dot u u * dot v v))%Q.

Definition toy_distance (X : matrix) (q : vector) (i : nat) : Q :=
  cosine_rank q (nth i (values X) []).

Definition toy_sklearn (ties_ascending : bool) : Sklearn :=
  {| tfidf_fit_transform := fun _ X => inr X;
     normalizer_fit_transform := fun X => inr X;
     normalizer_transform := fun v => inr v;
     cosine_distance := toy_distance;
     brute_search := fun X q k =>
       firstn k (ranking (toy_distance X q) ties_ascending (n_rows X)) |}.

(** An index over a table of distances from one fixed query. *)
Definition table_index (dists : list Q) (ties_ascending : bool) : NeighborIndex :=
  {| n_samples_fit := length dists;
     distance := fun _ i => nth i dists (0#1)%Q;
     search := fun _ k =>
       firstn k (ranking (fun i => nth i dists (0#1)%Q) ties_ascending (length dists)) |}.

(** Scenario tables. *)
Definition user_table (rows : list (nat * list nat)) : DataFrame :=
  {| columns := ["item_id"%string];
     records := map (fun r : nat * list nat => (fst r, [("item_id"%string, snd r)])) rows |}.

(** Items A = {rpg}, B = {rpg}, C = {shooter} over the vocabulary
    (rpg, shooter). *)
Definition scenario1_features : nat * list (list Q) :=
  (2, [[1#1; 0#1]; [1#1; 0#1]; [0#1; 1#1]]%Q).

Definition scenario1 (sparse_arg : bool) : Recommender :=
  ContentBasedRecommender_init scenario1_features
    (user_table [(7, [0])]) empty_frame empty_frame sparse_arg "none" false.

(** ** The exclusion set within the catalogue *)

(** The catalogue items (row positions below [n]) that the user's
    [item_id] list excludes, and those it leaves. *)
Definition excluded (n : nat) (item_id : list nat) : list nat :=
  filter (fun i => mem i item_id) (seq 0 n).

Definition novel (n : nat) (item_id : list nat) : list nat :=
  filter (not_owned item_id) (seq 0 n).

(** A list is the filtered answer of some admissible query. *)
Definition from_query (nbrs : NeighborIndex) (q : vector) (item_id : list nat)
           (l : list nat) : Prop :=
  exists k, 1 <= k <= n_samples_fit nbrs
            /\ l = filter (not_owned item_id) (search nbrs q k).

(** Nearest first: non-decreasing distance along the list. *)
Definition nearest_first (dist : nat -> Q) (l : list nat) : Prop :=
  StronglySorted (fun i j => (dist i <= dist j)%Q) l.

(** The tie rule of the specification: of two listed items at equal
    distance, the one with the smaller index comes first. *)
Definition ties_by_index (dist : nat -> Q) (l : list nat) : Prop :=
  StronglySorted (fun i j => (dist i == dist j)%Q -> i < j) l.

(** ** Concrete catalogues *)

(** Five items over three tags; the only user owns four of them. *)
Definition five_items : Recommender :=
  ContentBasedRecommender_init
    (3, [[1#1; 0#1; 0#1]; [1#1; 1#1; 0#1]; [0#1; 1#1; 0#1];
         [0#1; 1#1; 1#1]; [0#1; 0#1; 1#1]]%Q)
    (user_table [(0, [0; 1; 2; 3])]) empty_frame empty_frame true "default" false.

(** Eleven items with the same single tag; the only user owns one. *)
Definition eleven_items : Recommender :=
  ContentBasedRecommender_init
    (1, repeat [1#1]%Q 11)
    (user_table [(0, [0])]) empty_frame empty_frame true "default" false.

(** Distances of three items from a query: items 0 and 1 tie. *)
Definition tied_distances : list Q := [1#2; 1#2; 1#5]%Q.

(** ** Item metadata: the cell transforms of [_preprocess_items] (lines 41-50)

    Strings are ASCII text: a character is a byte, and [lower] changes the
    letters A-Z only. *)

Definition code (c : Ascii.ascii) : nat := Ascii.nat_of_ascii c.

Definition is_digit (c : Ascii.ascii) : bool := (48 <=? code c) && (code c <=? 57).

Definition is_lower (c : Ascii.ascii) : bool := (97 <=? code c) && (code c <=? 122).

Definition is_upper (c : Ascii.ascii) : bool := (65 <=? code c) && (code c <=? 90).

Definition lower_char (c : Ascii.ascii) : Ascii.ascii :=
  if is_upper c then Ascii.ascii_of_nat (code c + 32) else c.

(** [my_str.lower()] *)
Fixpoint lower (s : string) : string :=
  match s with
  | EmptyString => EmptyString
  | String c rest => String (lower_char c) (lower rest)
  end.

(** The class [[a-z0-9]]. *)
Definition is_token_char (c : Ascii.ascii) : bool := is_lower c || is_digit c.

(** [re.subn(r"[^a-z0-9]", "", s)[0]]: every character outside the class is
    deleted. *)
Fixpoint strip_non_alnum (s : string) : string :=
  match s with
  | EmptyString => EmptyString
  | String c rest => if is_token_char c then String c (strip_non_alnum rest)
                     else strip_non_alnum rest
  end.

(** Lines 48-50, the lambda applied to the cells of ['specs'], ['tags'] and
    ['genres']. *)
Definition clean_token (my_str : string) : string := strip_non_alnum (lower my_str).

Definition clean_tokens (l : list string) : list string := map clean_token l.

(** [s.split(sep)] for a one-character separator. *)
Fixpoint split (sep : Ascii.ascii) (s : string) : list string :=
  match s with
  | EmptyString => [EmptyString]
  | String c rest =>
      if Ascii.eqb c sep then EmptyString :: split sep rest
      else match split sep rest with
           | tok :: toks => String c tok :: toks
           | [] => [String c EmptyString]
           end
  end.

Definition comma : Ascii.ascii := Ascii.ascii_of_nat 44.

(** Lines 44 and 46, the lambda applied to a text cell of ['developer'] or
    ['publisher']: [my_str.lower().split(',')]. *)
Definition split_names (my_str : string) : list string :=
  split comma (lower my_str).

(** Line 47, the cells of ['early_access'] by their truth value. *)
Definition early_access_tokens (x : bool) : list string :=
  if x then ["earlyaccess"%string] else [].

(** *** The price test (line 41)

    A backtracking matcher for the fragment of regular expressions the
    pattern uses.  [ends r s] lists what is left of [s] after each way of
    matching [r] at its start, in the order the engine tries them;
    [re.match] succeeds when there is one. *)

Inductive regex : Type :=
| Chr (p : Ascii.ascii -> bool)      (* one character of a class *)
| Seq (r1 r2 : regex)
| Opt (r : regex)                    (* r? *)
| Plus (p : Ascii.ascii -> bool).    (* class+, greedy *)

Fixpoint plus_ends (p : Ascii.ascii -> bool) (s : string) : list string :=
  match s with
  | EmptyString => []
  | String c rest => if p c then plus_ends p rest ++ [rest] else []
  end.

Fixpoint ends (r : regex) (s : string) : list string :=
  match r with
  | Chr p => match s with
             | String c rest => if p c then [rest] else []
             | EmptyString => []
             end
  | Seq r1 r2 => flat_map (ends r2) (ends r1 s)
  | Opt r' => ends r' s ++ [s]
  | Plus p => plus_ends p s
  end.

Definition re_match (r : regex) (s : string) : bool :=
  match ends r s with
  | [] => false
  | _ :: _ => true
  end.

(** [.]: any character but a newline. *)
Definition dot_char (c : Ascii.ascii) : bool := negb (code c =? 10).

(** [\d+(?:.\d{2})?] *)
Definition price_pattern : regex :=
  Seq (Plus is_digit) (Opt (Seq (Chr dot_char) (Seq (Chr is_digit) (Chr is_digit)))).

(** The condition of line 41 on [str(p)]. *)
Definition price_accepted (text : string) : bool := re_match price_pattern text.

(** ** The item features: [_process_item_features] and
    [_generate_item_features] (lines 164-205 and 293-304) *)

(** The categorical columns of a preprocessed item; [None] is a missing
    cell. *)
Record Item : Type := {
  genres : option (list string);
  tags : option (list string);
  specs : option (list string);
  developer : option (list string);
  publisher : option (list string)
}.

Inductive column : Type := Genres | Tags | Specs | Developer | Publisher.

Definition cell_of (col : column) (it : Item) : option (list string) :=
  match col with
  | Genres => genres it
  | Tags => tags it
  | Specs => specs it
  | Developer => developer it
  | Publisher => publisher it
  end.

(** The columns each class keeps (lines 173 and 302). *)
Definition _process_item_features (c : recommender_class) : list column :=
  match c with
  | ContentBasedRecommender => [Genres; Tags]
  | ImprovedRecommender => [Genres; Tags; Specs; Developer; Publisher]
  end.

(** [set(l)] on strings, as a duplicate-free list. *)
Definition string_set (l : list string) : list string := nodup string_dec l.

(** Line 190: [fillna("").apply(set)]; the set of [""] is empty. *)
Definition cell_set (cell : option (list string)) : list string :=
  match cell with
  | None => []
  | Some l => string_set l
  end.

(** Lines 191-192: the union of the kept columns of one item. *)
Definition item_tags (c : recommender_class) (it : Item) : list string :=
  string_set (flat_map (fun col => cell_set (cell_of col it)) (_process_item_features c)).

(** Sorting of the class labels (insertion sort by [String.leb], the order
    of the character codes). *)
Fixpoint insert_label (s : string) (l : list string) : list string :=
  match l with
  | [] => [s]
  | t :: rest => if String.leb s t then s :: t :: rest else t :: insert_label s rest
  end.

Definition sorted_labels (l : list string) : list string :=
  fold_right insert_label [] l.

(** [MultiLabelBinarizer]: [classes_] are the distinct labels in sorted
    order, and the row of a label list has a 1 in the columns of its
    labels. *)
Definition mlb_classes (y : list (list string)) : list string :=
  sorted_labels (string_set (concat y)).

Definition binarize (classes : list string) (labels : list string) : list Q :=
  map (fun c => if existsb (String.eqb c) labels then (1#1)%Q else (0#1)%Q) classes.

Definition mlb_fit_transform (y : list (list string)) : list (list Q) :=
  map (binarize (mlb_classes y)) y.

(** [_generate_item_features]: the names of the feature columns
    (["tag_" + c]) and the feature table, in the shape the constructors
    take it. *)
Definition _generate_item_features (c : recommender_class) (table : list Item)
  : list string * (nat * list (list Q)) :=
  let y := map (item_tags c) table in
  (map (fun cl => ("tag_" ++ cl)%string) (mlb_classes y),
   (length (mlb_classes y), mlb_fit_transform y)).

(** ** The popularity baseline: [PopBasedRecommender] (lines 394-420) *)

(** The attributes [PopBasedRecommender.__init__] binds; it does not chain
    to the base constructor, so [recommendations] is bound by
    [generate_recommendations] only ([None]: not bound). *)
Record PopBasedRecommender : Type := {
  pop_train : DataFrame;
  pop_test : DataFrame;
  pop_val : DataFrame;
  pop_recommendations : option DataFrame
}.

Definition PopBasedRecommender_init (train_data test_data val_data : DataFrame)
  : PopBasedRecommender :=
  {| pop_train := train_data; pop_test := test_data; pop_val := val_data;
     pop_recommendations := None |}.

(** Line 419, the lambda: the popular items the user does not have, at most
    ten of them. *)
Definition popular_for (n_game_pop : list nat) (x : list nat) : list nat :=
  firstn 10 (filter (fun rec => negb (mem rec x)) n_game_pop).

Section Popularity.

(** [Series.value_counts().index]: the distinct values, most frequent
    first.  The order among equally frequent values is left to pandas. *)
Variable value_counts_index : list nat -> list nat.

(** [PopBasedRecommender.generate_recommendations] (lines 407-420).
    [explode] turns every list into its elements and an empty list into a
    missing value, which [dropna] removes. *)
Definition pop_generate_recommendations (self : PopBasedRecommender)
           (read_max : option nat) : result PopBasedRecommender :=
  let (df, df_is_train) := select_users (pop_train self) read_max in
  item_id <- column_values (columns df) "item_id" (records df) ;;
  let n_game_pop := value_counts_index (concat item_id) in
  df' <- setitem df "recommendations" (map (popular_for n_game_pop) item_id) ;;
  Ok {| pop_train := if df_is_train then df' else pop_train self;
        pop_test := pop_test self; pop_val := pop_val self;
        pop_recommendations := Some df' |}.

End Popularity.

(** What pandas promises about [value_counts]: every value once, in
    non-increasing order of its number of occurrences. *)
Definition value_counts_ok (value_counts_index : list nat -> list nat) : Prop :=
  forall l,
    NoDup (value_counts_index l)
    /\ (forall x, In x (value_counts_index l) <-> In x l)
    /\ StronglySorted (fun a b => count_occ Nat.eq_dec l b <= count_occ Nat.eq_dec l a)
                      (value_counts_index l).

(** An executable [value_counts]: insertion sort of the distinct values by
    their count. *)
Definition count_rank (l : list nat) (i : nat) : Q :=
  inject_Z (- Z.of_nat (count_occ Nat.eq_dec l i)).

Definition toy_value_counts (first_seen_first : bool) (l : list nat) : list nat :=
  fold_right (insert (count_rank l) first_seen_first) [] (to_set l).

(** Three users; item 1 is owned twice, items 0, 2 and 3 once; the third
    user owns nothing. *)
Definition pop_scenario : PopBasedRecommender :=
  PopBasedRecommender_init (user_table [(7, [0; 1]); (8, [1; 2; 3]); (9, [])])
                           empty_frame empty_frame.

(** Twelve items, more than one list holds: item 11 is owned twice, the
    others once; the third user owns nothing. *)
Definition pop_scenario_many : PopBasedRecommender :=
  PopBasedRecommender_init
    (user_table [(7, seq 0 12); (8, [11]); (9, [])]) empty_frame empty_frame.

(** ** Vocabulary of the run-level statements *)

(** The recommendation table a call leaves in [self.recommendations]. *)
Definition result_table (t : trace) : result DataFrame :=
  s <- outcome t ;; Ok (recommendations s).

(** [recs] is what the retrieval returns for the owned list of [row] and
    some query vector. *)
Definition recommended_for (nbrs : NeighborIndex) (amount : nat)
           (row : row_t) (recs : list nat) : Prop :=
  exists item_id user_vector,
    getitem row "item_id" = Ok item_id /\ item_id <> []
    /\ recommend nbrs user_vector item_id amount (S (n_samples_fit nbrs)) = Ok recs.

(** Two arrays with the same shape and entries, whatever their storage. *)
Definition same_values (m m' : matrix) : Prop :=
  n_cols m = n_cols m' /\ values m = values m'.

(** The instance with another value of [sparse]. *)
Definition with_sparse (b : bool) (self : Recommender) : Recommender :=
  {| class_of := class_of self; items := items self; train := train self;
     test := test self; val := val self;
     recommendations := recommendations self;
     sparse := b; normalize := normalize self; tfidf := tfidf self;
     dim_red := dim_red self; use_feedback := use_feedback self;
     reviews := reviews self; metadata := metadata self |}.

(** The source line of the emptiness assertion of each class. *)
Definition assert_line (c : recommender_class) : nat :=
  match c with
  | ContentBasedRecommender => 245
  | ImprovedRecommender => 351
  end.

(** The ways in which one iteration of the user loop can end, for an item
    frame of [ncols] columns. *)
Inductive row_outcome (lineno ncols : nat) (nbrs : NeighborIndex) (amount : nat)
          (row : row_t) : result (list nat) -> Prop :=
| row_recommends recs :
    recommended_for nbrs amount row recs ->
    row_outcome lineno ncols nbrs amount row (Ok recs)
| row_no_column :
    getitem row "item_id" = Raise KeyError ->
    row_outcome lineno ncols nbrs amount row (Raise KeyError)
| row_bad_position :
    row_outcome lineno ncols nbrs amount row (Raise IndexError)
| row_empty_frame :
    getitem row "item_id" = Ok [] \/ ncols = 0 ->
    row_outcome lineno ncols nbrs amount row (Raise (AssertionError lineno))
| row_library code :
    row_outcome lineno ncols nbrs amount row (Raise (LibraryError code))
| row_catalogue :
    row_outcome lineno ncols nbrs amount row (Raise ValueError)
| row_feedback e :
    e = KeyError \/ e = AttributeError "metadata" \/ e = AssertionError 370 ->
    row_outcome lineno ncols nbrs amount row (Raise e).

(** The class-specific parts of [generate_recommendations]. *)
Definition class_pipeline (sk : Sklearn) (self : Recommender) : result matrix :=
  match class_of self with
  | ContentBasedRecommender => content_based_pipeline sk self
  | ImprovedRecommender => improved_pipeline sk self
  end.

Definition class_warnings (self : Recommender) : list warning :=
  match class_of self with
  | ContentBasedRecommender => []
  | ImprovedRecommender => conflict_warning self
  end.

Definition class_frame (self : Recommender) (X : matrix) : matrix :=
  {| storage_of := match class_of self with
                   | ContentBasedRecommender => if sparse self then Csr else Dense
                   | ImprovedRecommender => improved_frame_storage self
                   end;
     n_cols := n_cols X; values := values X |}.

Definition class_row (sk : Sklearn) (self : Recommender) (amount : nat)
           (items_frame : matrix) (nbrs : NeighborIndex)
  : nat -> row_t -> result (list nat) :=
  match class_of self with
  | ContentBasedRecommender => content_based_row sk self items_frame nbrs amount
  | ImprovedRecommender => improved_row sk self items_frame nbrs amount
  end.

(** The table a completed call stores: the processed rows with their
    ['recommendations'] cell set. *)
Definition recommended_frame (df : DataFrame) (out : list (list nat)) : DataFrame :=
  {| columns := if has_column "recommendations" (columns df) then columns df
                else columns df ++ ["recommendations"%string];
     records := zip_rows "recommendations" (records df) out |}.

(** The four ways in which a call of [generate_recommendations] ends. *)
Inductive run_outcome (sk : Sklearn) (self : Recommender) (amount : nat)
          (read_max : option nat) : trace -> Prop :=
| run_pipeline_fails code :
    class_pipeline sk self = Raise (LibraryError code) ->
    run_outcome sk self amount read_max
      {| warnings := []; recommendation_list := [];
         outcome := Raise (LibraryError code) |}
| run_fit_fails X :
    class_pipeline sk self = Ok X ->
    fit sk amount X = Raise ValueError ->
    run_outcome sk self amount read_max
      {| warnings := class_warnings self; recommendation_list := [];
         outcome := Raise ValueError |}
| run_row_fails X nbrs done out i r rest e :
    class_pipeline sk self = Ok X ->
    fit sk amount X = Ok nbrs ->
    records (fst (select_users (train self) read_max)) = done ++ (i, r) :: rest ->
    Forall2 (fun row recs =>
               class_row sk self amount (class_frame self X) nbrs (fst row) (snd row)
               = Ok recs) done out ->
    class_row sk self amount (class_frame self X) nbrs i r = Raise e ->
    run_outcome sk self amount read_max
      {| warnings := class_warnings self; recommendation_list := out;
         outcome := Raise e |}
| run_completes X nbrs out :
    class_pipeline sk self = Ok X ->
    fit sk amount X = Ok nbrs ->
    Forall2 (fun row recs =>
               class_row sk self amount (class_frame self X) nbrs (fst row) (snd row)
               = Ok recs)
            (records (fst (select_users (train self) read_max))) out ->
    run_outcome sk self amount read_max
      {| warnings := class_warnings self; recommendation_list := out;
         outcome := Ok (set_recommendations self
                          (recommended_frame (fst (select_users (train self) read_max)) out)
                          (snd (select_users (train self) read_max))) |}.

(** The instance a call returned with, [self] when it raised. *)
Definition returned (self : Recommender) (t : trace) : Recommender :=
  match outcome t with
  | Ok s => s
  | _ => self
  end.

(** The instance with [self.metadata] bound by hand. *)
Definition with_metadata (m : MetadataTable) (self : Recommender) : Recommender :=
  {| class_of := class_of self; items := items self; train := train self;
     test := test self; val := val self;
     recommendations := recommendations self;
     sparse := sparse self; normalize := normalize self; tfidf := tfidf self;
     dim_red := dim_red self; use_feedback := use_feedback self;
     reviews := reviews self; metadata := Some m |}.

(** A reduction that only converts its input to a dense array. *)
Definition dense_reduction (m : matrix) : nat + matrix :=
  inr {| storage_of := Dense; n_cols := n_cols m; values := values m |}.

(** A reduction that accepts dense input only, as the estimators that
    validate their input without [accept_sparse] do. *)
Definition dense_only_reduction (m : matrix) : nat + matrix :=
  match storage_of m with
  | Csr => inl 0
  | Dense => inr m
  end.

(** An improved recommender over the catalogue of scenario 1, built with the
    constructor; the only user owns item 0, played for 10 minutes, and has
    reviewed it favourably. *)
Definition improved_scenario (sparse_arg : bool)
           (dim_red_arg : option (matrix -> nat + matrix))
           (tfidf_arg : string) (use_feedback_arg : bool) : Recommender :=
  ImprovedRecommender_init scenario1_features
    {| columns := ["item_id"; "playtime_forever"]%string;
       records := [(7, [("item_id", [0]); ("playtime_forever", [10])]%string)] |}
    empty_frame empty_frame [(7, ([true], [0]))]
    sparse_arg dim_red_arg tfidf_arg use_feedback_arg false.


(** The catalogue of scenario 1 with a user who owns the shooter C: the two
    role-playing games A and B are at the same distance from that user. *)
Definition tied_scenario : Recommender :=
  ContentBasedRecommender_init scenario1_features
    (user_table [(7, [2])]) empty_frame empty_frame true "none" false.

(** Distances of five items from one query, no two of them equal. *)
Definition spread_distances : list Q := [3#10; 1#10; 1#2; 1#5; 2#5]%Q.

(** A user table in which the second user owns nothing. *)
Definition with_empty_user : Recommender :=
  ContentBasedRecommender_init scenario1_features
    (user_table [(7, [0]); (8, [])]) empty_frame empty_frame true "default" false.

(** A transform whose outcome does not depend on how its input is stored. *)
Definition storage_blind (f : matrix -> nat + matrix) : Prop :=
  forall m m', same_values m m' ->
    match f m, f m' with
    | inr a, inr b => same_values a b
    | inl c, inl c' => c = c'
    | _, _ => False
    end.

(** A reduction whose output, storage included, does not depend on how its
    input is stored. *)
Definition storage_free (d : matrix -> nat + matrix) : Prop :=
  forall m m', same_values m m' -> d m = d m'.

(** Scenario 2: the recommendations [B, C] = [1, 2] of user 7 and the
    ground truth {B, D} = [1, 3] in the test table. *)
Definition scenario2 : Recommender :=
  {| class_of := ContentBasedRecommender;
     items := {| storage_of := Dense; n_cols := fst scenario1_features;
                 values := snd scenario1_features |};
     train := user_table [(7, [0])];
     test := user_table [(7, [1; 3])];
     val := user_table [(7, [2])];
     recommendations :=
       {| columns := ["item_id"; "recommendations"]%string;
          records := [(7, [("item_id", [0]); ("recommendations", [1; 2])]%string)] |};
     sparse := false; normalize := false; tfidf := None; dim_red := None;
     use_feedback := false; reviews := []; metadata := None |}.

(** The nDCG of one user as the specification words it: the sum over the
    0-indexed ranks [i] of the list cut to its first [k] entries of
    [indicator(recommendation[i] in ground truth) / log2 (i + 2)], divided
    by the sum of [1 / log2 (i + 2)] for [i] below
    [min(|recommendations|, |ground truth|)]. *)
Definition spec_ndcg (k : nat) (recs items : list nat) : R :=
  let top := firstn k recs in
  (Rsum (map (fun i => (if mem (nth i top 0%nat) items then 1 else 0) / log2 (INR i + 2))
             (seq 0%nat (length top)))
   / Rsum (map (fun i => 1 / log2 (INR i + 2))
               (seq 0%nat (Nat.min (length top) (length items)))))%R.

(** ** Further vocabulary *)

(** The search returns nearest neighbours: no catalogue row it leaves out
    is nearer to the query than a row it returns. *)
Definition search_nearest (nbrs : NeighborIndex) (q : vector) : Prop :=
  forall k i j,
    1 <= k <= n_samples_fit nbrs ->
    In i (search nbrs q k) ->
    j < n_samples_fit nbrs -> ~ In j (search nbrs q k) ->
    (distance nbrs q i <= distance nbrs q j)%Q.

(** A user table whose second user lists a position outside the item
    table. *)
Definition with_bad_position : Recommender :=
  ContentBasedRecommender_init scenario1_features
    (user_table [(7, [0]); (8, [5])]) empty_frame empty_frame true "default" false.

(** The rows of [left] whose index label has a row in [right]. *)
Definition matched (right left : DataFrame) : DataFrame :=
  {| columns := columns left;
     records := filter (fun l : nat * row_t =>
                          existsb (fun r : nat * row_t => fst r =? fst l) (records right))
                       (records left) |}.

(** [t] is a token of one of the columns the class keeps. *)
Definition has_token (c : recommender_class) (it : Item) (t : string) : Prop :=
  exists col l, In col (_process_item_features c) /\ cell_of col it = Some l /\ In t l.

(** The parts of the result of [_generate_item_features]. *)
Definition feature_names (c : recommender_class) (table : list Item) : list string :=
  fst (_generate_item_features c table).

Definition feature_rows (c : recommender_class) (table : list Item) : list (list Q) :=
  snd (snd (_generate_item_features c table)).

Definition feature_width (c : recommender_class) (table : list Item) : nat :=
  fst (snd (_generate_item_features c table)).

(** The items of scenario 1 before encoding: A and B are role-playing games
    (B says so twice, in two columns), C is a shooter. *)
Definition scenario1_items : list Item :=
  [ {| genres := Some ["rpg"%string]; tags := None; specs := None;
       developer := None; publisher := None |};
    {| genres := Some ["rpg"%string]; tags := Some ["rpg"; "rpg"]%string; specs := None;
       developer := None; publisher := None |};
    {| genres := None; tags := Some ["shooter"%string]; specs := None;
       developer := None; publisher := None |} ].

(** All the items the rows of a user table list, with their repetitions,
    and how often an item is listed. *)
Definition listed_items (df : DataFrame) : list nat :=
  flat_map (fun r : nat * row_t =>
              match lookup "item_id" (snd r) with
              | Some c => c
              | None => []
              end) (records df).

Definition popularity (df : DataFrame) (i : nat) : nat :=
  count_occ Nat.eq_dec (listed_items df) i.

(** The verdict of the last review of item [l] among the reviews of a user
    ([recommend] flag, reviewed item), if there is one. *)
Fixpoint last_review (rs : list (bool * nat)) (l : nat) : option bool :=
  match rs with
  | [] => None
  | (like, review) :: rest =>
      match last_review rest l with
      | Some b => Some b
      | None => if review =? l then Some like else None
      end
  end.

(** * Properties *)

(** ** Lists of identifiers *)

Lemma mem_In x l : mem x l = true <-> In x l.
Proof.
  unfold mem. rewrite existsb_exists. split.
  - intros [y [Hy E]]. apply Nat.eqb_eq in E. now subst.
  - intros H. exists x. split; [assumption | apply Nat.eqb_refl].
Qed.

Lemma mem_false x l : mem x l = false <-> ~ In x l.
Proof.
  rewrite <- mem_In. destruct (mem x l); split; intros; congruence.
Qed.

Lemma not_owned_spec item_id id : not_owned item_id id = true <-> ~ In id item_id.
Proof.
  unfold not_owned. rewrite negb_true_iff. apply mem_false.
Qed.

Lemma excluded_novel_length n item_id :
  length (novel n item_id) + length (excluded n item_id) = n.
Proof.
  unfold novel, excluded, not_owned.
  rewrite Nat.add_comm, filter_length. apply length_seq.
Qed.

Lemma excluded_size_to_set n item_id :
  Forall (fun i => i < n) item_id ->
  length (excluded n item_id) = length (to_set item_id).
Proof.
  intros Hr. apply Nat.le_antisymm.
  - apply NoDup_incl_length.
    + apply NoDup_filter, seq_NoDup.
    + intros x Hx. apply filter_In in Hx. apply nodup_In. now apply mem_In.
  - apply NoDup_incl_length.
    + apply NoDup_nodup.
    + intros x Hx. apply nodup_In in Hx. apply filter_In. split.
      * apply in_seq. rewrite Forall_forall in Hr. specialize (Hr x Hx). lia.
      * now apply mem_In.
Qed.

(** ** The retrieval loop *)

Section RetrievalFacts.

Variable nbrs : NeighborIndex.
Variable q : vector.
Variable item_id : list nat.
Variable amount : nat.

Let n := n_samples_fit nbrs.

Lemma retrieval_loop_eq fuel gen_am recs :
  retrieval_loop nbrs q item_id amount fuel gen_am recs =
  if length recs <? amount then
    match fuel with
    | 0 => OutOfFuel
    | S fuel' =>
        nns <- kneighbors nbrs q (gen_am + (amount - length recs)) ;;
        retrieval_loop nbrs q item_id amount fuel'
          (gen_am + (amount - length recs))
          (filter (not_owned item_id) (snd nns))
    end
  else Ok recs.
Proof. destruct fuel; reflexivity. Qed.

Lemma kneighbors_cases k :
  (k = 0 \/ n < k) /\ kneighbors nbrs q k = Raise ValueError
  \/ 1 <= k <= n
     /\ kneighbors nbrs q k = Ok (map (distance nbrs q) (search nbrs q k), search nbrs q k).
Proof.
  unfold kneighbors. fold n.
  destruct (Nat.eqb_spec k 0) as [E | E].
  - left. auto.
  - destruct (Nat.ltb_spec n k) as [L | L].
    + left. auto.
    + right. split; [lia | reflexivity].
Qed.

(** Whatever the search returns, the loop ends in one of three ways, and a
    list it returns is long enough and is either the list it started from
    or a filtered query answer. *)
Lemma retrieval_loop_result fuel : forall gen_am recs,
  let r := retrieval_loop nbrs q item_id amount fuel gen_am recs in
  r = OutOfFuel \/ r = Raise ValueError \/
  exists l, r = Ok l /\ amount <= length l
            /\ (l = recs \/ from_query nbrs q item_id l).
Proof.
  induction fuel as [| fuel IH]; intros gen_am recs r; subst r;
    rewrite retrieval_loop_eq; destruct (Nat.ltb_spec (length recs) amount) as [L | L].
  - now left.
  - right; right. exists recs. auto.
  - destruct (kneighbors_cases (gen_am + (amount - length recs))) as [[_ E] | [Hk E]];
      rewrite E; simpl.
    + right; now left.
    + specialize (IH (gen_am + (amount - length recs))
                     (filter (not_owned item_id)
                             (search nbrs q (gen_am + (amount - length recs))))).
      simpl in IH.
      destruct IH as [H | [H | [l [H [Hl Hq]]]]]; rewrite H.
      * now left.
      * right; now left.
      * right; right. exists l. repeat split; try assumption.
        right. destruct Hq as [-> | Hq]; [| assumption].
        exists (gen_am + (amount - length recs)). split; [assumption | reflexivity].
  - right; right. exists recs. auto.
Qed.

(** The requested size grows at every iteration, so [S n] iterations are
    enough: the loop never runs out of fuel. *)
Lemma retrieval_loop_fuel fuel : forall gen_am recs,
  n < gen_am + fuel -> 0 < fuel ->
  retrieval_loop nbrs q item_id amount fuel gen_am recs <> OutOfFuel.
Proof.
  induction fuel as [| fuel IH]; intros gen_am recs Hn Hf; [lia |].
  rewrite retrieval_loop_eq.
  destruct (Nat.ltb_spec (length recs) amount) as [L | L]; [| discriminate].
  destruct (kneighbors_cases (gen_am + (amount - length recs))) as [[_ E] | [Hk E]];
    rewrite E; simpl; [discriminate |].
  apply IH; lia.
Qed.

(** More fuel does not change a result that was reached. *)
Lemma retrieval_loop_more_fuel fuel : forall extra gen_am recs,
  retrieval_loop nbrs q item_id amount fuel gen_am recs <> OutOfFuel ->
  retrieval_loop nbrs q item_id amount (fuel + extra) gen_am recs =
  retrieval_loop nbrs q item_id amount fuel gen_am recs.
Proof.
  induction fuel as [| fuel IH]; intros extra gen_am recs H.
  - rewrite (retrieval_loop_eq 0) in H. rewrite retrieval_loop_eq, (retrieval_loop_eq 0).
    destruct (length recs <? amount); [congruence | reflexivity].
  - rewrite (retrieval_loop_eq (S fuel)) in H.
    rewrite (retrieval_loop_eq (S fuel)). simpl Nat.add.
    rewrite (retrieval_loop_eq (S (fuel + extra))).
    destruct (length recs <? amount); [| reflexivity].
    destruct (kneighbors nbrs q (gen_am + (amount - length recs))); simpl in *;
      try reflexivity.
    now apply IH.
Qed.

Hypothesis Hsearch : search_ok nbrs q.

(** A query of size [k] loses at most the excluded catalogue items to the
    filter, and keeps at most the novel ones. *)
Lemma filtered_query_bounds k :
  1 <= k <= n ->
  let kept := filter (not_owned item_id) (search nbrs q k) in
  k <= length kept + length (excluded n item_id)
  /\ length kept <= length (novel n item_id).
Proof.
  intros Hk kept. subst kept.
  pose proof (search_length _ _ Hsearch k Hk) as Hlen.
  pose proof (search_NoDup _ _ Hsearch k Hk) as Hnd.
  pose proof (search_range _ _ Hsearch k Hk) as Hrg.
  fold n in Hrg. rewrite Forall_forall in Hrg.
  split.
  - rewrite <- Hlen at 1.
    rewrite <- (filter_length (not_owned item_id) (search nbrs q k)).
    apply Nat.add_le_mono_l.
    apply NoDup_incl_length; [now apply NoDup_filter |].
    intros x Hx. apply filter_In in Hx. destruct Hx as [Hin Hx].
    apply filter_In. split.
    + apply in_seq. specialize (Hrg x Hin). lia.
    + unfold not_owned in Hx. now rewrite negb_involutive in Hx.
  - apply NoDup_incl_length; [now apply NoDup_filter |].
    intros x Hx. apply filter_In in Hx. destruct Hx as [Hin Hx].
    apply filter_In. split; [| assumption].
    apply in_seq. specialize (Hrg x Hin). lia.
Qed.

(** When the first request and the worst-case request both fit in the
    catalogue, every request fits and the loop returns a list. *)
Lemma retrieval_loop_succeeds fuel : forall gen_am recs,
  amount + length (excluded n item_id) <= n ->
  (length recs < amount -> gen_am + (amount - length recs) <= n) ->
  n < gen_am + fuel ->
  exists l, retrieval_loop nbrs q item_id amount fuel gen_am recs = Ok l
            /\ amount <= length l.
Proof.
  induction fuel as [| fuel IH]; intros gen_am recs Hex Hfit Hfuel;
    rewrite retrieval_loop_eq;
    destruct (Nat.ltb_spec (length recs) amount) as [L | L];
    try (exists recs; split; [reflexivity | assumption]).
  - specialize (Hfit L). lia.
  - specialize (Hfit L).
    destruct (kneighbors_cases (gen_am + (amount - length recs))) as [[Hbad _] | [Hk E]];
      [lia |].
    rewrite E. simpl.
    destruct (filtered_query_bounds _ Hk) as [Hlow _].
    apply IH; [assumption | | lia].
    intros _. lia.
Qed.

End RetrievalFacts.

(** ** Order of the lists *)

Lemma firstn_incl {A : Type} (k : nat) (l : list A) : incl (firstn k l) l.
Proof.
  revert l. induction k as [| k IH]; intros [| x l] y H; simpl in *;
    try contradiction.
  destruct H as [-> | H]; [now left | right; now apply IH].
Qed.

Lemma firstn_NoDup {A : Type} (k : nat) (l : list A) : NoDup l -> NoDup (firstn k l).
Proof.
  intros H. rewrite <- (firstn_skipn k l) in H. now apply NoDup_app_remove_r in H.
Qed.

Lemma StronglySorted_filter {A : Type} (R : A -> A -> Prop) (f : A -> bool) (l : list A) :
  StronglySorted R l -> StronglySorted R (filter f l).
Proof.
  induction 1 as [| x l Hs IH Hx]; simpl; [constructor |].
  destruct (f x); [| assumption].
  constructor; [assumption |].
  rewrite Forall_forall in *. intros y Hy. apply filter_In in Hy. now apply Hx.
Qed.

Lemma StronglySorted_firstn {A : Type} (R : A -> A -> Prop) (k : nat) (l : list A) :
  StronglySorted R l -> StronglySorted R (firstn k l).
Proof.
  intros H. revert k. induction H as [| x l Hs IH Hx]; intros [| k]; simpl;
    try constructor.
  - apply IH.
  - rewrite Forall_forall in *. intros y Hy. apply Hx. now apply (firstn_incl k l).
Qed.

Lemma Qle_transitive (dist : nat -> Q) :
  Relations_1.Transitive (fun i j : nat => (dist i <= dist j)%Q).
Proof. intros x y z Hxy Hyz. now apply Qle_trans with (dist y). Qed.

Lemma sorted_nearest_first (dist : nat -> Q) (l : list nat) :
  Sorted (fun i j => (dist i <= dist j)%Q) l -> nearest_first dist l.
Proof. apply Sorted_StronglySorted, Qle_transitive. Qed.

(** ** The executable search meets the contract of the library *)

Section BruteForceFacts.

Variable d : nat -> Q.
Variable ties_ascending : bool.

Lemma before_true i j : before d ties_ascending i j = true -> (d i <= d j)%Q.
Proof.
  unfold before. destruct ties_ascending.
  - apply Qle_bool_imp_le.
  - rewrite negb_true_iff. intros H. apply Qlt_le_weak, Qnot_le_lt.
    intros C. apply Qle_bool_iff in C. congruence.
Qed.

Lemma before_false i j : before d ties_ascending i j = false -> (d j <= d i)%Q.
Proof.
  unfold before. destruct ties_ascending.
  - intros H. apply Qlt_le_weak, Qnot_le_lt.
    intros C. apply Qle_bool_iff in C. congruence.
  - rewrite negb_false_iff. apply Qle_bool_imp_le.
Qed.

Lemma insert_Permutation i l : Permutation (insert d ties_ascending i l) (i :: l).
Proof.
  induction l as [| j t IH]; simpl; [reflexivity |].
  destruct (before d ties_ascending i j); [reflexivity |].
  rewrite IH. apply perm_swap.
Qed.

Lemma insert_Sorted i l :
  Sorted (fun a b => (d a <= d b)%Q) l ->
  Sorted (fun a b => (d a <= d b)%Q) (insert d ties_ascending i l).
Proof.
  induction 1 as [| j t Hs IH Hj]; simpl.
  - repeat constructor.
  - destruct (before d ties_ascending i j) eqn:E.
    + constructor; [now constructor |]. constructor. now apply before_true.
    + constructor; [assumption |].
      destruct t as [| j' t']; simpl.
      * constructor. now apply before_false.
      * destruct (before d ties_ascending i j'); constructor.
        -- now apply before_false.
        -- now inversion Hj.
Qed.

Lemma ranking_Permutation n : Permutation (ranking d ties_ascending n) (seq 0 n).
Proof.
  unfold ranking. induction (seq 0 n) as [| i l IH]; simpl; [reflexivity |].
  rewrite insert_Permutation. now constructor.
Qed.

Lemma ranking_Sorted n :
  Sorted (fun a b => (d a <= d b)%Q) (ranking d ties_ascending n).
Proof.
  unfold ranking. induction (seq 0 n) as [| i l IH]; simpl; [constructor |].
  now apply insert_Sorted.
Qed.

Lemma ranking_length n : length (ranking d ties_ascending n) = n.
Proof.
  rewrite (Permutation_length (ranking_Permutation n)). apply length_seq.
Qed.

Lemma firstn_ranking_ok n k :
  1 <= k <= n ->
  let r := firstn k (ranking d ties_ascending n) in
  length r = k /\ NoDup r /\ Forall (fun i => i < n) r
  /\ Sorted (fun a b => (d a <= d b)%Q) r.
Proof.
  intros Hk r. subst r. repeat split.
  - apply firstn_length_le. rewrite ranking_length. lia.
  - apply firstn_NoDup.
    apply (Permutation_NoDup (Permutation_sym (ranking_Permutation n))), seq_NoDup.
  - apply Forall_forall. intros x Hx. apply firstn_incl in Hx.
    apply (Permutation_in _ (ranking_Permutation n)) in Hx.
    apply in_seq in Hx. lia.
  - apply StronglySorted_Sorted, StronglySorted_firstn, sorted_nearest_first,
      ranking_Sorted.
Qed.

End BruteForceFacts.

Lemma table_index_ok dists ties q : search_ok (table_index dists ties) q.
Proof.
  constructor; intros k Hk; simpl in *;
    destruct (firstn_ranking_ok (fun i => nth i dists (0#1)%Q) ties _ _ Hk)
      as (H1 & H2 & H3 & H4); assumption.
Qed.

Lemma toy_fit_ok ties amount X nbrs q :
  fit (toy_sklearn ties) amount X = Ok nbrs -> search_ok nbrs q.
Proof.
  unfold fit. destruct (amount =? 0); [discriminate |].
  destruct ((n_rows X =? 0) || (n_cols X =? 0)); [discriminate |].
  intros [= <-].
  constructor; intros k Hk; simpl in *;
    destruct (firstn_ranking_ok (toy_distance X q) ties _ _ Hk)
      as (H1 & H2 & H3 & H4); assumption.
Qed.

(** ** Outcomes of the retrieval *)

Section RetrieveOutcomes.

Variable nbrs : NeighborIndex.
Variable q : vector.
Variable item_id : list nat.
Variable amount : nat.

Let n := n_samples_fit nbrs.

Lemma retrieve_enough_fuel extra :
  retrieve nbrs q item_id amount (S n + extra) = retrieve nbrs q item_id amount (S n)
  /\ retrieve nbrs q item_id amount (S n) <> OutOfFuel.
Proof.
  assert (H : retrieve nbrs q item_id amount (S n) <> OutOfFuel).
  { unfold retrieve. apply retrieval_loop_fuel; fold n; lia. }
  split; [| assumption].
  unfold retrieve in *. now apply retrieval_loop_more_fuel.
Qed.

Lemma retrieve_Ok_inv fuel l :
  retrieve nbrs q item_id amount fuel = Ok l ->
  amount <= length l /\ (l = [] /\ amount = 0 \/ from_query nbrs q item_id l).
Proof.
  unfold retrieve. intros H.
  pose proof (retrieval_loop_result nbrs q item_id amount fuel (amount / 5) []) as R.
  cbv zeta in R. rewrite H in R.
  destruct R as [R | [R | [l' [[= <-] [Hl Hq]]]]]; try discriminate.
  split; [assumption |].
  destruct Hq as [-> | Hq]; [left | right; assumption].
  simpl in Hl. split; [reflexivity | lia].
Qed.

Lemma retrieve_result :
  (exists l, retrieve nbrs q item_id amount (S n) = Ok l)
  \/ retrieve nbrs q item_id amount (S n) = Raise ValueError.
Proof.
  pose proof (retrieval_loop_result nbrs q item_id amount (S n) (amount / 5) []) as R.
  destruct (retrieve_enough_fuel 0) as [_ Hf].
  unfold retrieve in *. cbv zeta in R.
  destruct R as [R | [R | [l [R _]]]]; [contradiction | now right | left; now exists l].
Qed.

Lemma from_query_not_owned l :
  from_query nbrs q item_id l -> Forall (fun id => ~ In id item_id) l.
Proof.
  intros [k [_ ->]]. apply Forall_forall. intros x Hx.
  apply filter_In in Hx. now apply not_owned_spec.
Qed.

Lemma recommend_Ok_inv fuel recs :
  recommend nbrs q item_id amount fuel = Ok recs ->
  exists l, retrieve nbrs q item_id amount fuel = Ok l /\ recs = firstn amount l.
Proof.
  unfold recommend. destruct (retrieve nbrs q item_id amount fuel) as [l | e |];
    simpl; try discriminate.
  intros [= <-]. now exists l.
Qed.


Hypothesis Hsearch : search_ok nbrs q.

Lemma from_query_length l :
  from_query nbrs q item_id l -> length l <= length (novel n item_id).
Proof.
  intros [k [Hk ->]]. now apply (filtered_query_bounds nbrs q item_id Hsearch k).
Qed.

(** With fewer than [amount] novel items no query answer is ever long
    enough, whatever the fuel. *)
Lemma retrieve_deficient fuel l :
  0 < amount -> length (novel n item_id) < amount ->
  retrieve nbrs q item_id amount fuel <> Ok l.
Proof.
  intros Ha Hd H. apply retrieve_Ok_inv in H. destruct H as [Hl [[_ H0] | Hq]]; [lia |].
  apply from_query_length in Hq. lia.
Qed.

Lemma retrieve_overshoot fuel l :
  0 < amount -> n < amount / 5 + amount ->
  retrieve nbrs q item_id amount fuel <> Ok l.
Proof.
  intros Ha Hd. unfold retrieve. rewrite retrieval_loop_eq. simpl length.
  destruct (Nat.ltb_spec 0 amount) as [_ | L]; [| lia].
  destruct fuel; [discriminate |].
  rewrite Nat.sub_0_r.
  destruct (kneighbors_cases nbrs q (amount / 5 + amount)) as [[_ E] | [Hk _]].
  - rewrite E. discriminate.
  - fold n in Hk. lia.
Qed.

Lemma retrieve_fits :
  amount / 5 + amount <= n -> amount + length (excluded n item_id) <= n ->
  exists l, retrieve nbrs q item_id amount (S n) = Ok l /\ amount <= length l.
Proof.
  intros H1 H2. unfold retrieve.
  apply (retrieval_loop_succeeds nbrs q item_id amount Hsearch); fold n.
  - assumption.
  - intros _. cbn [length]. lia.
  - lia.
Qed.

Lemma recommend_nearest_first fuel recs :
  recommend nbrs q item_id amount fuel = Ok recs ->
  nearest_first (distance nbrs q) recs.
Proof.
  intros H. apply recommend_Ok_inv in H. destruct H as [l [H ->]].
  apply retrieve_Ok_inv in H. destruct H as [_ [[-> _] | [k [Hk ->]]]].
  - rewrite firstn_nil. constructor.
  - apply StronglySorted_firstn, StronglySorted_filter, sorted_nearest_first.
    now apply (search_sorted _ _ Hsearch).
Qed.

End RetrieveOutcomes.

(** ** Rows, columns and the user loop *)

Lemma lookup_set_cell_same name v row : lookup name (set_cell name v row) = Some v.
Proof.
  induction row as [| [c w] rest IH]; simpl.
  - now rewrite String.eqb_refl.
  - destruct (String.eqb c name) eqn:E; simpl; rewrite E; [reflexivity | assumption].
Qed.

Lemma lookup_set_cell_other name name' v row :
  name' <> name -> lookup name' (set_cell name v row) = lookup name' row.
Proof.
  intros Hne. induction row as [| [c w] rest IH]; simpl.
  - destruct (String.eqb_spec name name'); [congruence | reflexivity].
  - destruct (String.eqb_spec c name) as [-> | Hc]; simpl.
    + destruct (String.eqb_spec name name'); [congruence | reflexivity].
    + now rewrite IH.
Qed.

Lemma In_zip_rows (P : nat * row_t -> cell -> Prop) name rows vals i r' :
  Forall2 P rows vals ->
  In (i, r') (zip_rows name rows vals) ->
  exists r v, In (i, r) rows /\ P (i, r) v /\ r' = set_cell name v r.
Proof.
  induction 1 as [| [j r] v rows vals Hp Hf IH]; simpl; [contradiction |].
  intros [[= <- <-] | H].
  - exists r, v. auto.
  - destruct (IH H) as (r0 & v0 & Hin & Hp0 & ->). exists r0, v0. auto.
Qed.

Lemma zip_rows_length name rows vals :
  length vals = length rows -> length (zip_rows name rows vals) = length rows.
Proof.
  revert vals. induction rows as [| [i r] rows IH]; intros [| v vals] H; simpl in *;
    try discriminate; try reflexivity.
  now rewrite IH by lia.
Qed.

Section UserLoop.

Variable body : nat -> row_t -> result (list nat).

Lemma for_rows_Ok rows : forall acc acc',
  for_rows body rows acc = (acc', Ok tt) ->
  exists out, acc' = acc ++ out
              /\ Forall2 (fun r recs => body (fst r) (snd r) = Ok recs) rows out.
Proof.
  induction rows as [| [i r] rows IH]; intros acc acc' H; simpl in H.
  - injection H as <-. exists []. now rewrite app_nil_r.
  - destruct (body i r) as [recs | e |] eqn:E; try discriminate.
    destruct (IH _ _ H) as (out & -> & Hf). exists (recs :: out).
    rewrite <- app_assoc. split; [reflexivity |]. now constructor.
Qed.

(** The loop stops at the first row whose iteration raises; what it has
    appended by then are the lists of the rows before it. *)
Lemma for_rows_Raise rows : forall acc acc' e,
  for_rows body rows acc = (acc', Raise e) ->
  exists done out i r rest,
    rows = done ++ (i, r) :: rest /\ acc' = acc ++ out
    /\ Forall2 (fun r recs => body (fst r) (snd r) = Ok recs) done out
    /\ body i r = Raise e.
Proof.
  induction rows as [| [i r] rows IH]; intros acc acc' e H; simpl in H;
    [discriminate |].
  destruct (body i r) as [recs | e' |] eqn:E; try discriminate.
  - destruct (IH _ _ _ H) as (done & out & j & r' & rest & -> & -> & Hf & Hb).
    exists ((i, r) :: done), (recs :: out), j, r', rest.
    rewrite <- app_assoc. repeat split; try assumption. now constructor.
  - injection H as <- <-. exists [], [], i, r, rows.
    rewrite app_nil_r. repeat split; try assumption. constructor.
Qed.

Lemma for_rows_fuel rows : forall acc,
  (forall i r, body i r <> OutOfFuel) ->
  snd (for_rows body rows acc) <> OutOfFuel.
Proof.
  induction rows as [| [i r] rows IH]; intros acc Hb; simpl; [discriminate |].
  destruct (body i r) as [recs | e |] eqn:E; simpl.
  - now apply IH.
  - discriminate.
  - now apply Hb in E.
Qed.

(** A row whose iteration raises keeps the loop from completing. *)
Lemma for_rows_failing_row rows : forall acc i r e,
  In (i, r) rows -> body i r = Raise e ->
  (forall i r, body i r <> OutOfFuel) ->
  exists e', snd (for_rows body rows acc) = Raise e'.
Proof.
  induction rows as [| [j r'] rows IH]; intros acc i r e Hin Hr Hb; simpl;
    [contradiction |].
  destruct (body j r') as [recs | e' |] eqn:E; simpl.
  - destruct Hin as [[= -> ->] | Hin]; [congruence |].
    now apply (IH _ i r e).
  - now exists e'.
  - now apply Hb in E.
Qed.

End UserLoop.

(** ** One iteration of the user loop *)

Lemma iloc_nil rows positions owned :
  iloc rows positions = Ok owned -> owned = [] -> positions = [].
Proof.
  destruct positions as [| i rest]; simpl; [reflexivity |].
  destruct (nth_error rows i); [| discriminate].
  destruct (iloc rows rest); simpl; try discriminate.
  intros [= <-]. discriminate.
Qed.

Lemma iloc_outcome rows positions :
  (exists owned, iloc rows positions = Ok owned) \/ iloc rows positions = Raise IndexError.
Proof.
  induction positions as [| i rest IH]; simpl.
  - left. now exists [].
  - destruct (nth_error rows i); [| now right].
    destruct IH as [[owned ->] | ->]; simpl; [left; eauto | now right].
Qed.

Lemma iloc_in_range rows positions owned :
  iloc rows positions = Ok owned -> Forall (fun i => i < length rows) positions.
Proof.
  revert owned. induction positions as [| i rest IH]; intros owned; simpl;
    [constructor |].
  destruct (nth_error rows i) eqn:E; [| discriminate].
  destruct (iloc rows rest) eqn:E'; simpl; try discriminate.
  intros _. constructor; [| now apply (IH a)].
  apply nth_error_Some. congruence.
Qed.

Lemma getitem_outcome row name :
  (exists c, getitem row name = Ok c) \/ getitem row name = Raise KeyError.
Proof.
  unfold getitem. destruct (lookup name row); [left; eauto | now right].
Qed.

Lemma recommend_outcome nbrs q item_id amount :
  (exists recs, recommend nbrs q item_id amount (S (n_samples_fit nbrs)) = Ok recs)
  \/ recommend nbrs q item_id amount (S (n_samples_fit nbrs)) = Raise ValueError.
Proof.
  unfold recommend.
  destruct (retrieve_result nbrs q item_id amount) as [[l ->] | ->]; simpl;
    [left; eauto | now right].
Qed.

Section RowFacts.

Variable sk : Sklearn.
Variable self : Recommender.
Variable items_frame : matrix.
Variable nbrs : NeighborIndex.
Variable amount : nat.

Lemma assert_not_empty lineno item_id owned_items :
  iloc (values items_frame) item_id = Ok owned_items ->
  (py_assert lineno (negb (empty (n_cols items_frame) owned_items)) = Ok tt
   /\ item_id <> [])
  \/ (py_assert lineno (negb (empty (n_cols items_frame) owned_items))
      = Raise (AssertionError lineno)
      /\ (item_id = [] \/ n_cols items_frame = 0)).
Proof.
  intros Hi. unfold py_assert, empty.
  destruct owned_items as [| o os]; simpl.
  - right. split; [reflexivity | left]. now apply (iloc_nil _ _ _ Hi).
  - destruct (Nat.eqb_spec (n_cols items_frame) 0) as [E | E]; simpl.
    + right. auto.
    + left. split; [reflexivity |]. intros ->. simpl in Hi. discriminate.
Qed.

Lemma normalized_query_outcome v :
  (exists v', normalized_query sk self (Some v) = Ok v')
  \/ exists code, normalized_query sk self (Some v) = Raise (LibraryError code).
Proof.
  unfold normalized_query. simpl. destruct (normalize self); [| left; eauto].
  destruct (normalizer_transform sk v); simpl; [right | left]; eauto.
Qed.

Lemma content_based_row_outcome index row :
  row_outcome 245 (n_cols items_frame) nbrs amount row
    (content_based_row sk self items_frame nbrs amount index row).
Proof.
  unfold content_based_row.
  destruct (getitem_outcome row "item_id") as [[item_id Hg] | Hg]; rewrite Hg; simpl;
    [| now constructor].
  destruct (iloc_outcome (values items_frame) item_id) as [[owned Hi] | Hi];
    rewrite Hi; simpl; [| constructor].
  destruct (assert_not_empty 245 _ _ Hi) as [[Ha Hne] | [Ha Hem]]; rewrite Ha; simpl.
  - destruct (normalized_query_outcome (mean (n_cols items_frame) owned))
      as [[uv Hq] | [code Hq]]; rewrite Hq; simpl; [| constructor].
    destruct (recommend_outcome nbrs uv item_id amount) as [[recs Hr] | Hr]; rewrite Hr;
      [| constructor].
    constructor. exists item_id, uv. auto.
  - apply row_empty_frame. destruct Hem as [-> | Hem]; auto.
Qed.

(** The feedback branch never yields a query vector. *)
Lemma feedback_branch_raises index row item_id :
  exists e, feedback_branch self index row item_id = Raise e
            /\ (e = KeyError \/ e = AttributeError "metadata" \/ e = AssertionError 370).
Proof.
  unfold feedback_branch.
  destruct (getitem_outcome row "playtime_forever") as [[pt ->] | ->]; simpl;
    [| eauto].
  unfold getattr_metadata. destruct (metadata self) as [m |]; simpl; [| eauto 6].
  assert (H : (exists s, loc_sentiment m item_id = Ok s)
              \/ loc_sentiment m item_id = Raise KeyError).
  { induction item_id as [| l rest IH]; simpl; [left; eauto |].
    destruct (assoc l m); [| now right].
    destruct IH as [[s ->] | ->]; simpl; [left; eauto | now right]. }
  destruct H as [[s ->] | ->]; simpl; eauto 6.
Qed.

Lemma improved_row_outcome index row :
  row_outcome 351 (n_cols items_frame) nbrs amount row
    (improved_row sk self items_frame nbrs amount index row)
  /\ (use_feedback self = true ->
      forall recs, improved_row sk self items_frame nbrs amount index row <> Ok recs).
Proof.
  unfold improved_row.
  destruct (getitem_outcome row "item_id") as [[item_id Hg] | Hg]; rewrite Hg; simpl;
    [| split; [now constructor | discriminate]].
  destruct (iloc_outcome (values items_frame) item_id) as [[owned Hi] | Hi];
    rewrite Hi; simpl; [| split; [constructor | discriminate]].
  destruct (assert_not_empty 351 _ _ Hi) as [[Ha Hne] | [Ha Hem]]; rewrite Ha; simpl.
  - destruct (use_feedback self).
    + destruct (feedback_branch_raises index row item_id) as (e & -> & He). simpl.
      split; [| discriminate]. now apply row_feedback.
    + simpl.
      destruct (normalized_query_outcome (mean (n_cols items_frame) owned))
        as [[uv Hq] | [code Hq]]; rewrite Hq; simpl;
        [| split; [constructor | discriminate]].
      split; [| discriminate].
      destruct (recommend_outcome nbrs uv item_id amount) as [[recs Hr] | Hr]; rewrite Hr;
        [| constructor].
      constructor. exists item_id, uv. auto.
  - split; [| discriminate].
    apply row_empty_frame. destruct Hem as [-> | Hem]; auto.
Qed.

(** An empty owned list fails the assertion, in both classes. *)
Lemma empty_row_asserts index row :
  getitem row "item_id" = Ok [] ->
  content_based_row sk self items_frame nbrs amount index row
  = Raise (AssertionError 245)
  /\ improved_row sk self items_frame nbrs amount index row
     = Raise (AssertionError 351).
Proof.
  intros Hg. unfold content_based_row, improved_row. rewrite Hg. simpl. auto.
Qed.

End RowFacts.

(** ** A whole call of [generate_recommendations] *)

Section GenerateFacts.

Variable sk : Sklearn.
Variable self : Recommender.
Variable amount : nat.
Variable read_max : option nat.

Lemma opt_apply_outcome {A : Type} (f : option (A -> nat + A)) (x : A) :
  (exists y, opt_apply f x = Ok y) \/ exists code, opt_apply f x = Raise (LibraryError code).
Proof.
  destruct f as [g |]; simpl; [| left; eauto].
  destruct (g x); simpl; [right | left]; eauto.
Qed.

Lemma normalize_outcome X :
  (exists Y, (if normalize self then call (normalizer_fit_transform sk X) else Ok X) = Ok Y)
  \/ exists code, (if normalize self then call (normalizer_fit_transform sk X) else Ok X)
                  = Raise (LibraryError code).
Proof.
  destruct (normalize self); [| left; eauto].
  destruct (normalizer_fit_transform sk X); simpl; [right | left]; eauto.
Qed.

Lemma class_pipeline_outcome :
  (exists X, class_pipeline sk self = Ok X)
  \/ exists code, class_pipeline sk self = Raise (LibraryError code).
Proof.
  unfold class_pipeline, content_based_pipeline, improved_pipeline.
  destruct (class_of self);
    destruct (opt_apply_outcome (option_map (tfidf_fit_transform sk) (tfidf self))
                                (feature_array self)) as [[X ->] | [c ->]];
    simpl; try (right; eauto; fail).
  - apply normalize_outcome.
  - destruct (opt_apply_outcome (dim_red self) X) as [[Y ->] | [c ->]]; simpl;
      [apply normalize_outcome | right; eauto].
Qed.

Lemma fit_outcome X :
  (exists nbrs, fit sk amount X = Ok nbrs /\ n_samples_fit nbrs = n_rows X
                /\ 0 < n_cols X /\ 0 < amount)
  \/ fit sk amount X = Raise ValueError.
Proof.
  unfold fit. destruct (Nat.eqb_spec amount 0); [now right |].
  destruct (Nat.eqb_spec (n_rows X) 0); simpl; [now right |].
  destruct (Nat.eqb_spec (n_cols X) 0); simpl; [now right |].
  left. eexists. repeat split; simpl; lia.
Qed.

Lemma class_row_outcome items_frame nbrs index row :
  row_outcome (assert_line (class_of self)) (n_cols items_frame) nbrs amount row
    (class_row sk self amount items_frame nbrs index row).
Proof.
  unfold class_row, assert_line. destruct (class_of self).
  - apply content_based_row_outcome.
  - apply improved_row_outcome.
Qed.

Lemma class_row_fuel items_frame nbrs index row :
  class_row sk self amount items_frame nbrs index row <> OutOfFuel.
Proof.
  intros H. pose proof (class_row_outcome items_frame nbrs index row) as R.
  rewrite H in R. inversion R.
Qed.

Lemma generate_unfold :
  generate_recommendations sk self amount read_max =
  match class_pipeline sk self with
  | Ok X => fit_and_recommend sk self amount read_max (class_warnings self) X
              (storage_of (class_frame self X))
              (fun items_frame nbrs => class_row sk self amount items_frame nbrs)
  | Raise e => failed_early e
  | OutOfFuel => {| warnings := []; recommendation_list := []; outcome := OutOfFuel |}
  end.
Proof.
  unfold generate_recommendations, class_pipeline, class_warnings, class_frame, class_row,
    content_based_generate, improved_generate.
  destruct (class_of self); reflexivity.
Qed.

(** Every call ends in one of the four ways of [run_outcome]. *)
Lemma generate_outcome :
  run_outcome sk self amount read_max (generate_recommendations sk self amount read_max).
Proof.
  rewrite generate_unfold.
  destruct class_pipeline_outcome as [[X HX] | [code HX]]; rewrite HX;
    [| now apply run_pipeline_fails].
  unfold fit_and_recommend.
  pose proof (run_row_fails sk self amount read_max X) as Hfail.
  pose proof (run_completes sk self amount read_max X) as Hdone.
  destruct (select_users (train self) read_max) as [df b]. simpl fst in *. simpl snd in *.
  destruct (fit_outcome X) as [(nbrs & Hfit & _) | Hfit]; rewrite Hfit;
    [| now apply run_fit_fails with X].
  change {| storage_of := storage_of (class_frame self X); n_cols := n_cols X;
            values := values X |} with (class_frame self X).
  destruct (for_rows (class_row sk self amount (class_frame self X) nbrs) (records df) [])
    as [appended looped] eqn:Hloop.
  destruct looped as [[] | e |].
  - apply for_rows_Ok in Hloop. destruct Hloop as (out & -> & Hf). simpl app.
    simpl. unfold setitem.
    match goal with
    | |- context [negb (?a =? ?b)] =>
        replace (a =? b) with true
          by (symmetry; apply Nat.eqb_eq; symmetry; apply (Forall2_length Hf))
    end.
    simpl.
    now apply Hdone with nbrs.
  - apply for_rows_Raise in Hloop.
    destruct Hloop as (done & out & i & r & rest & Hrows & -> & Hf & Hb). simpl.
    now apply Hfail with nbrs done i r rest.
  - exfalso.
    apply (for_rows_fuel (class_row sk self amount (class_frame self X) nbrs)
                         (records df) []).
    + intros i r. apply class_row_fuel.
    + now rewrite Hloop.
Qed.

(** What a completed call stores for a user is the list the retrieval
    returned for that user's row. *)
Lemma stored_row_inv self' index row recs :
  outcome (generate_recommendations sk self amount read_max) = Ok self' ->
  In (index, row) (records (recommendations self')) ->
  getitem row "recommendations" = Ok recs ->
  exists X nbrs row0,
    class_pipeline sk self = Ok X /\ fit sk amount X = Ok nbrs
    /\ In (index, row0) (records (fst (select_users (train self) read_max)))
    /\ getitem row "item_id" = getitem row0 "item_id"
    /\ recommended_for nbrs amount row0 recs.
Proof.
  intros H. pose proof generate_outcome as R.
  revert H. destruct R as [code _ | X _ _ | X nbrs done out i r rest e _ _ _ _ _
                           | X nbrs out HX Hfit Hf]; simpl; try discriminate.
  intros [= <-] Hin Hrecs. simpl in Hin.
  destruct (In_zip_rows _ _ _ _ _ _ Hf Hin) as (r0 & v & Hr0 & Hrow & ->).
  simpl in Hrow.
  unfold getitem in Hrecs. rewrite lookup_set_cell_same in Hrecs. injection Hrecs as <-.
  exists X, nbrs, r0. repeat split; try assumption.
  - unfold getitem. now rewrite lookup_set_cell_other by discriminate.
  - pose proof (class_row_outcome (class_frame self X) nbrs index r0) as Ro.
    rewrite Hrow in Ro. now inversion Ro.
Qed.

End GenerateFacts.

(** ** Claims on the retrieval loop *)

(** Scenario 1 of the specification: the user owns A, [amount = 1], and the
    only recommendation is B, however the index orders the tie between A
    and B. *)
Example scenario1_recommends_B :
  forall ties,
    recommendation_list
      (generate_recommendations (toy_sklearn ties) (scenario1 true) 1 None)
    = [[1]].
Proof. intros [|]; vm_compute; reflexivity. Qed.

(** C1 (as the code has it).  For every index, query vector, owned list and
    [amount > 0] the retrieval loop terminates within [n_samples_fit + 1]
    iterations, and more fuel changes nothing.  It ends in one of two ways:
    with at least [amount] candidates none of which is owned, or with the
    ValueError of the neighbour query once the requested count exceeds the
    catalogue.  There is no stop at the catalogue size: when fewer than
    [amount] novel items exist the loop ends with that ValueError. *)
Theorem retrieval_terminates nbrs q item_id amount :
  0 < amount ->
  let n := n_samples_fit nbrs in
  let r := retrieve nbrs q item_id amount (S n) in
  (forall extra, retrieve nbrs q item_id amount (S n + extra) = r)
  /\ ((exists l, r = Ok l /\ amount <= length l
                 /\ Forall (fun id => ~ In id item_id) l)
      \/ r = Raise ValueError)
  /\ (search_ok nbrs q -> length (novel n item_id) < amount -> r = Raise ValueError).
Proof.
  intros Ha n r. subst r. repeat split.
  - intros extra. apply retrieve_enough_fuel.
  - destruct (retrieve_result nbrs q item_id amount) as [[l H] | H]; fold n in H.
    + left. exists l. split; [assumption |].
      destruct (retrieve_Ok_inv _ _ _ _ _ _ H) as [Hl [[_ H0] | Hq]]; [lia |].
      split; [assumption |]. now apply from_query_not_owned in Hq.
    + now right.
  - intros Hs Hd.
    destruct (retrieve_result nbrs q item_id amount) as [[l H] | H]; fold n in H.
    + exfalso. revert H. now apply retrieve_deficient.
    + assumption.
Qed.

Lemma retrieval_terminates_witness :
  retrieve (table_index tied_distances true) [] [0; 1] 2 4 = Raise ValueError.
Proof.
  apply (retrieval_terminates (table_index tied_distances true) [] [0; 1] 2).
  - lia.
  - apply table_index_ok.
  - vm_compute. lia.
Defined.

(** C1, refuted as stated: with a catalogue of 5 items of which the user
    owns 4 and [amount = 3], generation does not return the one obtainable
    recommendation; the neighbour query raises ValueError and nothing is
    appended. *)
Lemma exhausted_catalogue_raises :
  outcome (generate_recommendations (toy_sklearn true) five_items 3 None)
  = Raise ValueError
  /\ recommendation_list (generate_recommendations (toy_sklearn true) five_items 3 None)
     = [].
Proof. split; vm_compute; reflexivity. Qed.

(** C3 (as the code has it).  Every list a completed call stores has length
    exactly [amount].  Whenever the retrieval produces a list for a user its
    length is exactly [amount], which is then [min amount (n - e)], [n] the
    catalogue size and [e] the number of catalogue items the user excludes.
    A list is produced when both the first request, [amount + amount // 5],
    and [amount + e] fit in the catalogue; otherwise the neighbour query
    raises ValueError and no list is produced. *)
Theorem recommendation_length nbrs q item_id amount :
  search_ok nbrs q ->
  let n := n_samples_fit nbrs in
  let e := length (excluded n item_id) in
  (forall sk self read_max self' index row recs,
     outcome (generate_recommendations sk self amount read_max) = Ok self' ->
     In (index, row) (records (recommendations self')) ->
     getitem row "recommendations" = Ok recs ->
     length recs = amount)
  /\ (forall fuel recs, recommend nbrs q item_id amount fuel = Ok recs ->
     length recs = amount /\ length recs = Nat.min amount (n - e))
  /\ (amount / 5 + amount <= n -> amount + e <= n ->
      exists recs, recommend nbrs q item_id amount (S n) = Ok recs
                   /\ length recs = amount)
  /\ (0 < amount -> n < amount / 5 + amount \/ n < amount + e ->
      recommend nbrs q item_id amount (S n) = Raise ValueError).
Proof.
  intros Hs. cbv zeta.
  pose proof (excluded_novel_length (n_samples_fit nbrs) item_id) as Hne.
  split.
  { intros sk self read_max self' index row recs H Hin Hrecs.
    destruct (stored_row_inv sk self amount read_max self' index row recs H Hin Hrecs)
      as (X & nbrs0 & row0 & _ & _ & _ & _ & ids & uv & _ & _ & Hrecm).
    apply recommend_Ok_inv in Hrecm. destruct Hrecm as [l [Hl ->]].
    apply retrieve_Ok_inv in Hl. now apply firstn_length_le. }
  repeat split.
  - apply recommend_Ok_inv in H. destruct H as [l [H ->]].
    apply retrieve_Ok_inv in H. destruct H as [Hl _].
    now apply firstn_length_le.
  - apply recommend_Ok_inv in H. destruct H as [l [H ->]].
    apply retrieve_Ok_inv in H. destruct H as [Hl [[_ H0] | Hq]].
    + subst amount. reflexivity.
    + apply (from_query_length _ _ _ Hs) in Hq.
      rewrite firstn_length_le by assumption. lia.
  - intros H1 H2.
    destruct (retrieve_fits nbrs q item_id amount Hs H1 H2) as [l [H Hl]].
    exists (firstn amount l). unfold recommend. rewrite H. simpl.
    split; [reflexivity | now apply firstn_length_le].
  - intros Ha Hbad. unfold recommend.
    destruct (retrieve_result nbrs q item_id amount) as [[l H] | H].
    + exfalso. revert H. destruct Hbad as [Hbad | Hbad].
      * now apply retrieve_overshoot.
      * apply retrieve_deficient; [assumption | assumption | lia].
    + rewrite H. reflexivity.
Qed.

Lemma recommendation_length_witness :
  exists recs, recommend (table_index tied_distances true) [] [2] 2 4 = Ok recs
               /\ length recs = 2.
Proof.
  apply (recommendation_length (table_index tied_distances true) [] [2] 2
           (table_index_ok _ _ _)); vm_compute; lia.
Defined.

(** C3, refuted as stated: eleven items, one owned, [amount = 10].  Ten
    novel items exist, so [min amount (n - e) = 10], yet no list is
    produced: the first request asks for 12 neighbours. *)
Lemma full_amount_not_delivered :
  Nat.min 10 (n_rows (items eleven_items) - length (to_set [0])) = 10
  /\ outcome (generate_recommendations (toy_sklearn true) eleven_items 10 None)
     = Raise ValueError.
Proof. split; vm_compute; reflexivity. Qed.

(** C5 (as the code has it).  The code neither sorts nor breaks ties.  A
    recommendation list is the neighbour list of one [kneighbors] query, in
    the order the index returned it, without the items of the user and cut
    to [amount]; whatever order the neighbour list is in, the recommendation
    list is in it too.  So the list is nearest first for an index that
    returns its neighbours in non-decreasing cosine distance, as the
    library promises, and items at equal distance stay in the order the
    index returned them in. *)
Theorem recommendations_nearest_first nbrs q item_id amount fuel recs :
  recommend nbrs q item_id amount fuel = Ok recs ->
  (amount = 0 /\ recs = []
   \/ exists k ds ind,
        kneighbors nbrs q k = Ok (ds, ind)
        /\ ds = map (distance nbrs q) ind
        /\ recs = firstn amount (filter (not_owned item_id) ind)
        /\ forall R : nat -> nat -> Prop, StronglySorted R ind -> StronglySorted R recs)
  /\ (search_ok nbrs q -> nearest_first (distance nbrs q) recs).
Proof.
  intros H. split.
  - destruct (recommend_Ok_inv _ _ _ _ _ _ H) as [l [Hl ->]].
    apply retrieve_Ok_inv in Hl. destruct Hl as [_ [[-> ->] | [k [Hk ->]]]].
    + left. split; reflexivity.
    + right. exists k, (map (distance nbrs q) (search nbrs q k)), (search nbrs q k).
      destruct (kneighbors_cases nbrs q k) as [[Hbad _] | [_ E]]; [lia |].
      split; [exact E |]. split; [reflexivity |]. split; [reflexivity |].
      intros R HR. now apply StronglySorted_firstn, StronglySorted_filter.
  - intros Hs. now apply (recommend_nearest_first nbrs q item_id amount Hs fuel).
Qed.

Lemma recommendations_nearest_first_witness :
  (exists k ds ind,
     kneighbors (table_index spread_distances true) [] k = Ok (ds, ind)
     /\ ds = map (distance (table_index spread_distances true) []) ind
     /\ [3; 0] = firstn 2 (filter (not_owned [1]) ind)
     /\ forall R : nat -> nat -> Prop, StronglySorted R ind -> StronglySorted R [3; 0])
  /\ nearest_first (distance (table_index spread_distances true) []) [3; 0].
Proof.
  destruct (recommendations_nearest_first (table_index spread_distances true) [] [1] 2 6
              [3; 0]) as [[[C _] | H1] H2].
  - vm_compute. reflexivity.
  - discriminate C.
  - split; [exact H1 |]. apply H2, table_index_ok.
Defined.

(** C5, refuted as stated.  The user owns the shooter; the two role-playing
    games are at the same distance from the user vector.  With a
    brute-force search that orders its candidates by distance alone, which
    is all the library promises, the index returns them as item 1, item 0,
    and the call recommends them in that order: the item with the larger
    index comes first. *)
Lemma ties_left_to_the_index :
  result_table (generate_recommendations (toy_sklearn false) tied_scenario 2 None)
  = Ok {| columns := ["item_id"; "recommendations"]%string;
          records := [(7, [("item_id", [2]); ("recommendations", [1; 0])]%string)] |}
  /\ exists nbrs,
       fit (toy_sklearn false) 2 (feature_array tied_scenario) = Ok nbrs
       /\ search_ok nbrs [0#1; 1#1]%Q
       /\ kneighbors nbrs [0#1; 1#1]%Q 3 = Ok ([0#1; 1#1; 1#1]%Q, [2; 1; 0])
       /\ recommend nbrs [0#1; 1#1]%Q [2] 2 4 = Ok [1; 0]
       /\ ~ ties_by_index (distance nbrs [0#1; 1#1]%Q) [1; 0].
Proof.
  split; [vm_compute; reflexivity |].
  eexists. split; [reflexivity |].
  split; [apply (toy_fit_ok false 2 (feature_array tied_scenario)); reflexivity |].
  split; [vm_compute; reflexivity |].
  split; [vm_compute; reflexivity |].
  intros H. inversion H as [| a l Hl Ha]; subst.
  inversion Ha as [| b l' Hb _]; subst.
  assert (C : 1 < 0) by (apply Hb; vm_compute; reflexivity). lia.
Qed.

(** ** Claims on a whole generation run *)

Lemma Forall2_In_l {A B : Type} (P : A -> B -> Prop) l l' x :
  Forall2 P l l' -> In x l -> exists y, In y l' /\ P x y.
Proof.
  induction 1 as [| a b l l' Hp Hf IH]; simpl; [contradiction |].
  intros [<- | H].
  - exists b. auto.
  - destruct (IH H) as (y & Hy & Hpy). exists y. auto.
Qed.




(** The first failing element of a list is determined by the list. *)
Lemma first_failure_unique {A : Type} (ok : A -> Prop) (done done' : list A) :
  forall x x' rest rest',
    done ++ x :: rest = done' ++ x' :: rest' ->
    Forall ok done -> Forall ok done' -> ~ ok x -> ~ ok x' ->
    done = done' /\ x = x'.
Proof.
  revert done'. induction done as [| a done IH]; intros [| a' done'] x x' rest rest' E Hd Hd' Hx Hx';
    simpl in E.
  - injection E as -> _. auto.
  - injection E as -> _. inversion Hd'; subst. contradiction.
  - injection E as -> _. inversion Hd; subst. contradiction.
  - injection E as -> E. inversion Hd; subst. inversion Hd'; subst.
    destruct (IH done' x x' rest rest' E) as [-> ->]; auto.
Qed.

Lemma Forall2_Forall_l {A B : Type} (P : A -> B -> Prop) l l' :
  Forall2 P l l' -> Forall (fun x => exists y, P x y) l.
Proof. induction 1; constructor; eauto. Qed.

(** C7.  A processed user whose owned-item list is empty makes the whole
    call raise: no instance with a recommendation table is returned.  When
    the matrix is prepared, the index is fitted and the users before the
    empty one get their lists, the call ends with the AssertionError of the
    emptiness assertion of its class (line 245 or 351), raised by the
    iteration of the empty user: that user is not skipped, and the lists
    appended so far are those of the users before it.  Conversely, when a
    call ends with that AssertionError, the user it stopped at (the one
    after the lists appended so far) has an empty owned-item list: the
    assertion never fails for a user with a non-empty list. *)
Theorem empty_inventory_is_fatal sk self amount read_max :
  let t := generate_recommendations sk self amount read_max in
  let df := fst (select_users (train self) read_max) in
  (forall index row,
     In (index, row) (records df) -> getitem row "item_id" = Ok [] ->
     exists e, outcome t = Raise e /\ result_table t = Raise e)
  /\ (forall X nbrs done index row rest,
        class_pipeline sk self = Ok X ->
        fit sk amount X = Ok nbrs ->
        records df = done ++ (index, row) :: rest ->
        Forall (fun r => exists recs,
                  class_row sk self amount (class_frame self X) nbrs (fst r) (snd r)
                  = Ok recs) done ->
        getitem row "item_id" = Ok [] ->
        outcome t = Raise (AssertionError (assert_line (class_of self)))
        /\ result_table t = Raise (AssertionError (assert_line (class_of self)))
        /\ length (recommendation_list t) = length done)
  /\ (forall items_frame nbrs index row,
        getitem row "item_id" = Ok [] ->
        class_row sk self amount items_frame nbrs index row
        = Raise (AssertionError (assert_line (class_of self))))
  /\ (outcome t = Raise (AssertionError (assert_line (class_of self))) ->
      exists index row,
        nth_error (records df) (length (recommendation_list t)) = Some (index, row)
        /\ getitem row "item_id" = Ok []).
Proof.
  cbv zeta.
  assert (Hempty : forall items_frame nbrs index row,
             getitem row "item_id" = Ok [] ->
             class_row sk self amount items_frame nbrs index row
             = Raise (AssertionError (assert_line (class_of self)))).
  { intros items_frame nbrs index row Hg.
    destruct (empty_row_asserts sk self items_frame nbrs amount index row Hg) as [H1 H2].
    unfold class_row, assert_line. now destruct (class_of self). }
  split; [| split; [| split; [exact Hempty |]]].
  - intros index row Hin Hg. unfold result_table.
    pose proof (generate_outcome sk self amount read_max) as R.
    destruct R as [code _ | X _ _ | X nbrs done out i r rest e _ _ _ _ _
                   | X nbrs out HX Hfit Hf]; simpl; eauto.
    exfalso. destruct (Forall2_In_l _ _ _ _ Hf Hin) as (recs & _ & Hrow).
    simpl in Hrow. rewrite (Hempty _ _ _ _ Hg) in Hrow. discriminate.
  - intros X nbrs done index row rest HX Hfit Hrows Hdone Hg. unfold result_table.
    pose proof (generate_outcome sk self amount read_max) as R.
    destruct R as [code HX' | X' HX' Hfit' | X' nbrs' done' out i r rest' e HX' Hfit' Hrows' Hf Hrow
                   | X' nbrs' out HX' Hfit' Hf]; simpl.
    + rewrite HX in HX'. discriminate.
    + rewrite HX in HX'. injection HX' as <-. rewrite Hfit in Hfit'. discriminate.
    + rewrite HX in HX'. injection HX' as <-.
      rewrite Hfit in Hfit'. injection Hfit' as <-.
      rewrite Hrows in Hrows'.
      destruct (first_failure_unique
                  (fun r => exists recs,
                     class_row sk self amount (class_frame self X) nbrs (fst r) (snd r)
                     = Ok recs)
                  done done' (index, row) (i, r) rest rest' Hrows' Hdone
                  (Forall2_Forall_l _ _ _ Hf)) as [<- [= <- <-]].
      * intros [recs Hr]. simpl in Hr. rewrite (Hempty _ _ _ _ Hg) in Hr. discriminate.
      * intros [recs Hr]. simpl in Hr. rewrite Hrow in Hr. discriminate.
      * rewrite (Hempty _ _ _ _ Hg) in Hrow. injection Hrow as <-.
        split; [reflexivity |]. split; [reflexivity |].
        symmetry. exact (Forall2_length Hf).
    + exfalso. rewrite HX in HX'. injection HX' as <-.
      rewrite Hfit in Hfit'. injection Hfit' as <-.
      assert (Hin : In (index, row) (records (fst (select_users (train self) read_max))))
        by (rewrite Hrows; apply in_or_app; right; now left).
      destruct (Forall2_In_l _ _ _ _ Hf Hin) as (recs & _ & Hr).
      simpl in Hr. rewrite (Hempty _ _ _ _ Hg) in Hr. discriminate.
  - pose proof (generate_outcome sk self amount read_max) as R.
    destruct R as [code _ | X _ _ | X nbrs done out i r rest e HX Hfit Hrows Hf Hrow
                   | X nbrs out HX Hfit Hf]; simpl; try discriminate.
    intros [= ->]. exists i, r. split.
    + rewrite Hrows, <- (Forall2_length Hf), nth_error_app2, Nat.sub_diag by lia.
      reflexivity.
    + pose proof (class_row_outcome sk self amount (class_frame self X) nbrs i r) as Ro.
      rewrite Hrow in Ro.
      destruct (fit_outcome sk amount X) as [(nbrs' & _ & _ & Hc & _) | Hbad];
        [| congruence].
      inversion Ro as [| | | [Hg | Hc0] | | | e He]; subst.
      * assumption.
      * simpl in Hc0. lia.
      * unfold assert_line in He. destruct (class_of self);
          destruct He as [He | [He | He]]; discriminate.
Qed.

Lemma empty_inventory_is_fatal_witness :
  outcome (generate_recommendations (toy_sklearn true) with_empty_user 1 None)
  = Raise (AssertionError 245)
  /\ result_table (generate_recommendations (toy_sklearn true) with_empty_user 1 None)
     = Raise (AssertionError 245)
  /\ length (recommendation_list
               (generate_recommendations (toy_sklearn true) with_empty_user 1 None)) = 1.
Proof.
  eapply (proj1 (proj2 (empty_inventory_is_fatal (toy_sklearn true) with_empty_user 1 None))
            _ _ [(7, [("item_id"%string, [0])])] 8 [("item_id"%string, [])] []).
  - reflexivity.
  - reflexivity.
  - reflexivity.
  - constructor; [| constructor]. exists [1]. vm_compute. reflexivity.
  - reflexivity.
Defined.

(** C10.  With [use_feedback=True] an improved recommender never produces a
    recommendation table: on a non-empty user table the call raises before
    anything is appended, and once the matrix is prepared and the index is
    fitted the exception is the one of the first user's iteration.  No iteration
    of the user loop returns a list, because the feedback branch ends in
    [assert False] without assigning [user_vector]; and on an instance
    whose [metadata] attribute is not bound, as the constructors leave it,
    an iteration that reaches the branch raises the AttributeError of
    [self.metadata]. *)
Theorem feedback_generation_raises sk self amount read_max :
  class_of self = ImprovedRecommender ->
  use_feedback self = true ->
  records (fst (select_users (train self) read_max)) <> [] ->
  let t := generate_recommendations sk self amount read_max in
  (exists e, outcome t = Raise e)
  /\ recommendation_list t = []
  /\ (forall X nbrs,
        improved_pipeline sk self = Ok X -> fit sk amount X = Ok nbrs ->
        exists index row rest e,
          records (fst (select_users (train self) read_max)) = (index, row) :: rest
          /\ improved_row sk self (class_frame self X) nbrs amount index row = Raise e
          /\ outcome t = Raise e)
  /\ (forall items_frame nbrs index row recs,
        improved_row sk self items_frame nbrs amount index row <> Ok recs)
  /\ (metadata self = None ->
      forall items_frame nbrs index row item_id inventory playtime,
        getitem row "item_id" = Ok item_id ->
        iloc (values items_frame) item_id = Ok inventory ->
        item_id <> [] -> 0 < n_cols items_frame ->
        getitem row "playtime_forever" = Ok playtime ->
        improved_row sk self items_frame nbrs amount index row
        = Raise (AttributeError "metadata"))
  /\ (forall features train_data test_data val_data reviews_data sparse_arg dim_red_arg
             tfidf_arg use_feedback_arg normalize_arg,
        metadata (ImprovedRecommender_init features train_data test_data val_data
                    reviews_data sparse_arg dim_red_arg tfidf_arg use_feedback_arg
                    normalize_arg) = None).
Proof.
  intros Hclass Hfb Hrows. cbv zeta.
  assert (Hnever : forall items_frame nbrs index row recs,
             improved_row sk self items_frame nbrs amount index row <> Ok recs).
  { intros items_frame nbrs index row recs.
    now apply (improved_row_outcome sk self items_frame nbrs amount index row). }
  assert (Hrow : forall items_frame nbrs index row recs,
             class_row sk self amount items_frame nbrs index row <> Ok recs).
  { intros. unfold class_row. rewrite Hclass. apply Hnever. }
  assert (Hrun : (exists e, outcome (generate_recommendations sk self amount read_max)
                            = Raise e)
                 /\ recommendation_list (generate_recommendations sk self amount read_max)
                    = []
                 /\ (forall X nbrs,
                       improved_pipeline sk self = Ok X -> fit sk amount X = Ok nbrs ->
                       exists index row rest e,
                         records (fst (select_users (train self) read_max))
                         = (index, row) :: rest
                         /\ improved_row sk self (class_frame self X) nbrs amount index row
                            = Raise e
                         /\ outcome (generate_recommendations sk self amount read_max)
                            = Raise e)).
  { pose proof (generate_outcome sk self amount read_max) as R.
    assert (Hp : class_pipeline sk self = improved_pipeline sk self)
      by (unfold class_pipeline; now rewrite Hclass).
    assert (Hr : forall f nb, class_row sk self amount f nb
                              = improved_row sk self f nb amount)
      by (intros; unfold class_row; now rewrite Hclass).
    destruct R as [code HX | X HX Hfit | X nbrs done out i r rest e HX Hfit Hrs Hf Hb
                   | X nbrs out HX _ Hf]; simpl; rewrite Hp in HX.
    - split; [eauto |]. split; [reflexivity |]. intros X nbrs HX'. congruence.
    - split; [eauto |]. split; [reflexivity |]. intros X' nbrs HX' Hfit'. congruence.
    - destruct Hf as [| row recs done out Hbad _]; [| now apply Hrow in Hbad].
      split; [eauto |]. split; [reflexivity |].
      intros X' nbrs' HX' Hfit'.
      assert (X' = X) by congruence. subst X'.
      assert (nbrs' = nbrs) by congruence. subst nbrs'.
      exists i, r, rest, e. rewrite <- Hr. auto.
    - exfalso. destruct Hf as [| row recs done out Hbad _]; [now apply Hrows |].
      now apply Hrow in Hbad. }
  destruct Hrun as (H1 & H2 & H3). repeat split; try assumption.
  - intros Hmd items_frame nbrs index row item_id inventory playtime Hg Hi Hne Hc Hp.
    unfold improved_row. rewrite Hg. simpl. rewrite Hi. simpl.
    destruct (assert_not_empty items_frame 351 _ _ Hi) as [[Ha _] | [_ [He | He]]];
      [| contradiction | lia].
    rewrite Ha. simpl. rewrite Hfb. unfold feedback_branch. rewrite Hp. simpl.
    unfold getattr_metadata. rewrite Hmd. reflexivity.
Qed.

Lemma feedback_generation_raises_witness :
  (exists e, outcome (generate_recommendations (toy_sklearn true)
                        (improved_scenario true None "default" true) 1 None) = Raise e)
  /\ recommendation_list (generate_recommendations (toy_sklearn true)
                            (improved_scenario true None "default" true) 1 None) = [].
Proof.
  destruct (feedback_generation_raises (toy_sklearn true)
              (improved_scenario true None "default" true) 1 None)
    as (H1 & H2 & _); try reflexivity.
  - vm_compute. discriminate.
  - split; assumption.
Defined.

(** C2 at a concrete input.  In feedback-weighted mode no query vector is
    computed.  On an instance built by the constructor the call raises on
    [self.metadata]; with that attribute bound by hand it raises at the
    [assert False] of line 370.  The weight column the branch computes
    before stopping does follow the rule of the claim (1 for a liked item, 0
    for a disliked one, the sentiment score otherwise), but it is only
    printed. *)
Lemma feedback_mode_yields_no_vector :
  outcome (generate_recommendations (toy_sklearn true)
             (improved_scenario true None "default" true) 1 None)
  = Raise (AttributeError "metadata")
  /\ outcome (generate_recommendations (toy_sklearn true)
                (with_metadata [(0, Some (3#4)%Q)] (improved_scenario true None "default" true))
                1 None)
     = Raise (AssertionError 370)
  /\ feedback_weights [0; 1; 2] [Some (3#4); Some (1#4); Some (1#2)]%Q
                      (Some ([true; false], [0; 1]))
     = [Some (1#1); Some (0#1); Some (1#2)]%Q.
Proof. repeat split; vm_compute; reflexivity. Qed.

(** ** The sparse flag together with a reduction *)

Section SparseReduction.

Variable sk : Sklearn.
Variable self : Recommender.
Variable d : matrix -> nat + matrix.

Hypothesis Hred : dim_red self = Some d.
Hypothesis Htfidf : forall mode, storage_blind (tfidf_fit_transform sk mode).
Hypothesis Hd : storage_free d.

Lemma feature_arrays_agree :
  same_values (feature_array self) (feature_array (with_sparse false self)).
Proof. split; reflexivity. Qed.

Lemma improved_pipeline_dense :
  improved_pipeline sk (with_sparse false self) = improved_pipeline sk self.
Proof.
  unfold improved_pipeline. simpl tfidf. simpl dim_red. simpl normalize.
  rewrite Hred.
  pose proof feature_arrays_agree as Hv.
  destruct (tfidf self) as [mode |]; simpl.
  - pose proof (Htfidf mode _ _ Hv) as Hm.
    destruct (tfidf_fit_transform sk mode (feature_array self)) as [c | a];
      destruct (tfidf_fit_transform sk mode (feature_array (with_sparse false self)))
        as [c' | b]; simpl; try contradiction.
    + now subst.
    + now rewrite (Hd _ _ Hm).
  - now rewrite (Hd _ _ Hv).
Qed.

Lemma fit_and_recommend_dense amount read_max w w' X body :
  let t := fit_and_recommend sk self amount read_max w X Dense body in
  let t' := fit_and_recommend sk (with_sparse false self) amount read_max w' X Dense body in
  result_table t = result_table t' /\ recommendation_list t = recommendation_list t'
  /\ warnings t = w /\ warnings t' = w'.
Proof.
  unfold fit_and_recommend. simpl train.
  destruct (select_users (train self) read_max) as [df b].
  destruct (fit sk amount X) as [nbrs | e |]; simpl; auto.
  destruct (for_rows _ (records df) []) as [appended looped].
  unfold result_table. simpl.
  destruct looped as [[] | e |]; simpl; auto.
  destruct (setitem df "recommendations" appended); simpl; auto.
Qed.

End SparseReduction.

(** C8 (as the code has it).  With [sparse=True] and a reduction selected,
    an improved recommender goes through the same steps as with
    [sparse=False]: provided the tf-idf transform and the reduction do not
    depend on how their input is stored, both calls end alike, with the same
    recommendation table or the same exception, and append the same lists.
    The only difference is the RuntimeWarning, emitted once the matrix is
    prepared; the item frame is dense in both.  The conflict adds no failure
    of its own; the call can still fail for the reasons a dense call
    fails. *)
Theorem sparse_with_reduction_falls_back sk self d amount read_max :
  class_of self = ImprovedRecommender ->
  sparse self = true ->
  dim_red self = Some d ->
  (forall mode, storage_blind (tfidf_fit_transform sk mode)) ->
  storage_free d ->
  let t := generate_recommendations sk self amount read_max in
  let t' := generate_recommendations sk (with_sparse false self) amount read_max in
  result_table t = result_table t'
  /\ recommendation_list t = recommendation_list t'
  /\ warnings t' = []
  /\ (forall X, improved_pipeline sk self = Ok X -> warnings t = [RuntimeWarning])
  /\ improved_frame_storage self = Dense.
Proof.
  intros Hclass Hsparse Hred Htfidf Hd. cbv zeta.
  unfold generate_recommendations. simpl class_of. rewrite Hclass.
  unfold improved_generate.
  rewrite (improved_pipeline_dense sk self d Hred Htfidf Hd).
  assert (Hst : improved_frame_storage self = Dense)
    by (unfold improved_frame_storage; now rewrite Hred).
  assert (Hst' : improved_frame_storage (with_sparse false self) = Dense)
    by (unfold improved_frame_storage; simpl; now rewrite Hred).
  assert (Hw : conflict_warning self = [RuntimeWarning])
    by (unfold conflict_warning; now rewrite Hred, Hsparse).
  assert (Hw' : conflict_warning (with_sparse false self) = [])
    by (unfold conflict_warning; simpl; now rewrite Hred).
  rewrite Hst, Hst', Hw, Hw'.
  destruct (improved_pipeline sk self) as [X | e |]; simpl.
  - destruct (fit_and_recommend_dense sk self amount read_max
                [RuntimeWarning] [] X
                (fun items_frame nbrs => improved_row sk self items_frame nbrs amount))
      as (H1 & H2 & H3 & H4).
    change (fun items_frame nbrs =>
              improved_row sk (with_sparse false self) items_frame nbrs amount)
      with (fun items_frame nbrs => improved_row sk self items_frame nbrs amount).
    repeat split; try assumption. intros _ _. assumption.
  - repeat split. intros X H. discriminate.
  - repeat split. intros X H. discriminate.
Qed.

Lemma sparse_with_reduction_falls_back_witness :
  result_table (generate_recommendations (toy_sklearn true)
                  (improved_scenario true (Some dense_reduction) "default" false) 1 None)
  = result_table (generate_recommendations (toy_sklearn true)
                    (with_sparse false (improved_scenario true (Some dense_reduction) "default" false))
                    1 None).
Proof.
  apply (sparse_with_reduction_falls_back (toy_sklearn true)
           (improved_scenario true (Some dense_reduction) "default" false) dense_reduction 1 None).
  - reflexivity.
  - reflexivity.
  - reflexivity.
  - intros mode m m' H. exact H.
  - intros m m' [H1 H2]. unfold dense_reduction. now rewrite H1, H2.
Defined.

(** C8, refuted as stated.  Built with [sparse=True], a reduction and the
    default [use_feedback=True], the recommender warns and then fails on the
    first user: the call does not complete and stores no table.  And since
    the matrix handed to the reduction is the sparse one, a reduction that
    takes dense input only makes the sparse configuration fail, before any
    warning, where the dense configuration recommends item B. *)
Lemma sparse_with_reduction_can_fail :
  warnings (generate_recommendations (toy_sklearn true)
              (improved_scenario true (Some dense_reduction) "default" true) 1 None)
  = [RuntimeWarning]
  /\ outcome (generate_recommendations (toy_sklearn true)
                (improved_scenario true (Some dense_reduction) "default" true) 1 None)
     = Raise (AttributeError "metadata")
  /\ result_table (generate_recommendations (toy_sklearn true)
                     (improved_scenario true (Some dense_only_reduction) "none" false)
                     1 None)
     = Raise (LibraryError 0)
  /\ warnings (generate_recommendations (toy_sklearn true)
                 (improved_scenario true (Some dense_only_reduction) "none" false)
                 1 None)
     = []
  /\ recommendation_list
       (generate_recommendations (toy_sklearn true)
          (with_sparse false
             (improved_scenario true (Some dense_only_reduction) "none" false))
          1 None)
     = [[1]].
Proof. repeat split; vm_compute; reflexivity. Qed.

(** ** Claims on the evaluation *)

(** C9 (as the code has it).  [evaluate] renames the ['item_id'] column of
    the ground-truth table it selects (the validation table when [val] is
    set, the test table otherwise) to ['items'] in that stored table itself.
    The other ground-truth table, the training table and the recommendation
    table are the same after the call as before: the join and the metric
    columns live in a new table. *)
Theorem evaluate_renames_ground_truth self k val_flag :
  let self' := fst (evaluate self k val_flag) in
  (if val_flag then val self' else test self')
  = rename_column "item_id" "items" (if val_flag then val self else test self)
  /\ (if val_flag then test self' else val self')
     = (if val_flag then test self else val self)
  /\ recommendations self' = recommendations self
  /\ train self' = train self.
Proof. destruct val_flag; repeat split. Qed.

(** C9, refuted as stated: after [evaluate] the stored test table of
    scenario 2 has the column ['items'] where it had ['item_id']. *)
Lemma evaluate_changes_test_columns :
  columns (test scenario2) = ["item_id"%string]
  /\ columns (test (fst (evaluate scenario2 2 false))) = ["items"%string]
  /\ test (fst (evaluate scenario2 2 false)) <> test scenario2.
Proof.
  repeat split. intros H. apply (f_equal columns) in H. discriminate.
Qed.

Section MetricFacts.

Local Open Scope R_scope.

Lemma INR_plus_2 i : INR (i + 2) = INR i + 2.
Proof. rewrite plus_INR. simpl. ring. Qed.

Lemma ln_2_pos : 0 < ln 2.
Proof. rewrite <- ln_1. apply ln_increasing; lra. Qed.

Lemma log2_2 : log2 2 = 1.
Proof. unfold log2. field. pose proof ln_2_pos. lra. Qed.

Lemma log2_3_gt_1 : 1 < log2 3.
Proof.
  unfold log2. pose proof ln_2_pos as H2.
  assert (H3 : ln 2 < ln 3) by (apply ln_increasing; lra).
  apply (Rmult_lt_reg_r (ln 2)); [assumption |].
  unfold Rdiv. rewrite Rmult_assoc, Rinv_l by lra. lra.
Qed.

Lemma enumerate_map {A B : Type} (f : nat -> A -> B) (dflt : A) (l : list A) :
  forall start,
    map (fun ix : nat * A => f (fst ix) (snd ix)) (enumerate start l)
    = map (fun i => f (start + i)%nat (nth i l dflt)) (seq 0 (length l)).
Proof.
  induction l as [| x l IH]; intros start; simpl; [reflexivity |].
  rewrite Nat.add_0_r. f_equal.
  rewrite IH, <- seq_shift, map_map.
  apply map_ext. intros i. now rewrite Nat.add_succ_r.
Qed.

(** The code's nDCG of one user is the formula of the specification. *)
Lemma ndcg_spec k recs items :
  firstn k recs <> [] -> items <> [] ->
  ndcg (firstn k recs) items = Some (spec_ndcg k recs items).
Proof.
  intros Hr Hi. unfold ndcg, spec_ndcg, dcg, ideal_dcg, int_of_bool.
  destruct (Nat.eqb_spec (Nat.min (length (firstn k recs)) (length items)) 0) as [E | E].
  - destruct (firstn k recs); [congruence |]. destruct items; [congruence |].
    simpl in E. discriminate.
  - cbv zeta. f_equal. f_equal.
    + rewrite (enumerate_map
                 (fun i rec => (if mem rec items then 1 else 0) / log2 (INR (i + 2))) 0%nat).
      f_equal. apply map_ext. intros i. simpl Nat.add. now rewrite INR_plus_2.
    + f_equal. apply map_ext. intros i. now rewrite INR_plus_2.
Qed.

Lemma mean_of_one x : series_mean [Some x] = Some x.
Proof. unfold series_mean. simpl. f_equal. field. Qed.

(** The report of [evaluate] on scenario 2. *)
Lemma scenario2_report :
  snd (evaluate scenario2 2 false)
  = Ok [ ("HR@2"%string, Some 1);
         ("nDCG@2"%string, Some ((1 / log2 2) / (1 / log2 2 + 1 / log2 3)));
         ("recall@2"%string, Some (1 / 2));
         ("ideal_recall@2"%string, Some 1);
         ("nRecall@2"%string, Some (1 / 2)) ].
Proof.
  unfold evaluate. cbv zeta. unfold snd at 1.
  unfold results_dict.
  replace (column_values _ "recommendations" _) with (Ok [[1; 2]%nat] : result (list cell))
    by (vm_compute; reflexivity).
  replace (column_values _ "items" _) with (Ok [[1; 3]%nat] : result (list cell))
    by (vm_compute; reflexivity).
  cbn [Py.bind map firstn combine fst snd].
  rewrite !mean_of_one.
  replace (metric_key "HR" 2) with "HR@2"%string by reflexivity.
  replace (metric_key "nDCG" 2) with "nDCG@2"%string by reflexivity.
  replace (metric_key "recall" 2) with "recall@2"%string by reflexivity.
  replace (metric_key "ideal_recall" 2) with "ideal_recall@2"%string by reflexivity.
  replace (metric_key "nRecall" 2) with "nRecall@2"%string by reflexivity.
  assert (Hhr : hit_rate [1; 2]%nat [1; 3]%nat = 1) by reflexivity.
  assert (Hnd : ndcg [1; 2]%nat [1; 3]%nat
                = Some ((1 / log2 2) / (1 / log2 2 + 1 / log2 3))).
  { change (ndcg (firstn 2 [1; 2]%nat) [1; 3]%nat
            = Some ((1 / log2 2) / (1 / log2 2 + 1 / log2 3))).
    rewrite (ndcg_spec 2 [1; 2]%nat [1; 3]%nat) by discriminate.
    unfold spec_ndcg. cbn [firstn length Nat.min seq map mem existsb Nat.eqb nth orb Rsum
                                  fold_right INR].
    f_equal.
    replace (0 + 2) with 2 by ring. replace (1 + 2) with 3 by ring.
    unfold Rdiv. f_equal; [ring | f_equal; ring]. }
  assert (Hrc : recall [1; 2]%nat [1; 3]%nat = Some (1 / 2)).
  { unfold recall. cbn. f_equal; try field. }
  assert (Hir : ideal_recall [1; 2]%nat [1; 3]%nat = Some 1).
  { unfold ideal_recall. cbn. f_equal; try field. }
  assert (Hnr : n_recall [1; 2]%nat [1; 3]%nat = Some (1 / 2)).
  { unfold n_recall. rewrite Hrc, Hir. cbn. f_equal; try field. }
  rewrite ?Hhr, Hnd, Hrc, Hir, Hnr, !mean_of_one. reflexivity.
Qed.

End MetricFacts.

Section ReportFacts.

Local Open Scope R_scope.

Lemma series_mean_defined (l : list R) :
  l <> [] -> series_mean (map Some l) = Some (Rsum l / INR (length l)).
Proof.
  intros Hl. unfold series_mean.
  assert (E : all_defined (map Some l) = Some l).
  { clear Hl. induction l as [| x l IH]; simpl; [reflexivity | now rewrite IH]. }
  rewrite E. destruct l; [congruence | reflexivity].
Qed.

Lemma column_values_length cols name rows col :
  column_values cols name rows = Ok col -> length col = length rows.
Proof.
  revert col. induction rows as [| [i r] rows IH]; intros col; simpl.
  - destruct (has_column name cols); [| discriminate]. now intros [= <-].
  - destruct (getitem r name); simpl; try discriminate.
    destruct (column_values cols name rows); simpl; try discriminate.
    intros [= <-]. simpl. f_equal. now apply IH.
Qed.

Lemma ndcg_column k : forall recs_col items_col,
  Forall (fun r => firstn k r <> []) recs_col ->
  Forall (fun i => i <> []) items_col ->
  map (fun ri : list nat * list nat => ndcg (fst ri) (snd ri))
      (combine (map (firstn k) recs_col) items_col)
  = map Some (map (fun ri : list nat * list nat => spec_ndcg k (fst ri) (snd ri))
                  (combine recs_col items_col)).
Proof.
  induction recs_col as [| r recs_col IH]; intros items_col Hr Hi; [reflexivity |].
  destruct items_col as [| i items_col]; [reflexivity |].
  inversion Hr; inversion Hi; subst. simpl.
  rewrite ndcg_spec by assumption. f_equal. now apply IH.
Qed.

(** The nDCG entry of the report is the mean, over the joined users, of the
    nDCG of the specification. *)
Lemma report_ndcg k eval recs_col items_col :
  column_values (columns eval) "recommendations" (records eval) = Ok recs_col ->
  column_values (columns eval) "items" (records eval) = Ok items_col ->
  records eval <> [] ->
  Forall (fun r => firstn k r <> []) recs_col ->
  Forall (fun i => i <> []) items_col ->
  exists report,
    results_dict k eval = Ok report
    /\ nth_error report 1
       = Some (metric_key "nDCG" k,
               Some (Rsum (map (fun ri : list nat * list nat =>
                                  spec_ndcg k (fst ri) (snd ri))
                               (combine recs_col items_col))
                     / INR (length (records eval)))).
Proof.
  intros Hrc Hic Hne Hr Hi. unfold results_dict. rewrite Hrc, Hic.
  cbn [Py.bind]. eexists. split; [reflexivity |].
  cbn [nth_error]. f_equal. f_equal.
  rewrite ndcg_column by assumption.
  apply column_values_length in Hrc. apply column_values_length in Hic.
  unfold cell in *.
  assert (Hlen : length (map (fun ri : list nat * list nat =>
                                spec_ndcg k (fst ri) (snd ri))
                             (combine recs_col items_col))
                 = length (records eval)).
  { rewrite length_map, length_combine. lia. }
  rewrite series_mean_defined.
  - now rewrite Hlen.
  - intros E. rewrite E in Hlen. simpl in Hlen.
    destruct (records eval); [congruence | discriminate].
Qed.

End ReportFacts.

(** C6 (as the code has it).  [evaluate] cuts every recommendation list to
    its first [k] entries; for a user with non-empty ground truth and
    non-empty recommendations its nDCG is the sum over the 0-indexed ranks
    [i] of [indicator(recommendation[i] in ground truth) / log2 (i + 2)]
    divided by the sum of [1 / log2 (i + 2)] for
    [i < min(|recommendations|, |ground truth|)], and the report holds the
    mean over the joined users.  For the recommendations [B, C], the ground
    truth {B, D} and [k = 2] the report is HR@2 = 1, recall@2 = 1/2,
    ideal_recall@2 = 1, nRecall@2 = 1/2 and
    nDCG@2 = (1/log2(2)) / (1/log2(2) + 1/log2(3)): the hit is at rank 0. *)
Theorem evaluate_metrics :
  (forall k recs items,
     firstn k recs <> [] -> items <> [] ->
     ndcg (firstn k recs) items = Some (spec_ndcg k recs items))
  /\ (forall k eval recs_col items_col,
        column_values (columns eval) "recommendations" (records eval) = Ok recs_col ->
        column_values (columns eval) "items" (records eval) = Ok items_col ->
        records eval <> [] ->
        Forall (fun r => firstn k r <> []) recs_col ->
        Forall (fun i => i <> []) items_col ->
        exists report,
          results_dict k eval = Ok report
          /\ nth_error report 1
             = Some (metric_key "nDCG" k,
                     Some (Rsum (map (fun ri : list nat * list nat =>
                                        spec_ndcg k (fst ri) (snd ri))
                                     (combine recs_col items_col))
                           / INR (length (records eval)))%R))
  /\ snd (evaluate scenario2 2 false)
     = Ok [ ("HR@2"%string, Some 1%R);
            ("nDCG@2"%string, Some ((1 / log2 2) / (1 / log2 2 + 1 / log2 3))%R);
            ("recall@2"%string, Some (1 / 2)%R);
            ("ideal_recall@2"%string, Some 1%R);
            ("nRecall@2"%string, Some (1 / 2)%R) ].
Proof.
  split; [exact ndcg_spec |]. split; [exact report_ndcg | exact scenario2_report].
Qed.

Lemma evaluate_metrics_witness :
  ndcg (firstn 2 [1; 2]) [1; 3] = Some (spec_ndcg 2 [1; 2] [1; 3]).
Proof.
  apply (proj1 evaluate_metrics); discriminate.
Defined.

(** C6, refuted as stated: on scenario 2 the nDCG@2 of the report is not
    (1/log2(3)) / (1/log2(2) + 1/log2(3)). *)
Lemma scenario2_ndcg_is_not_the_stated_value :
  snd (evaluate scenario2 2 false)
  <> Ok [ ("HR@2"%string, Some 1%R);
          ("nDCG@2"%string, Some ((1 / log2 3) / (1 / log2 2 + 1 / log2 3))%R);
          ("recall@2"%string, Some (1 / 2)%R);
          ("ideal_recall@2"%string, Some 1%R);
          ("nRecall@2"%string, Some (1 / 2)%R) ].
Proof.
  rewrite scenario2_report. intros H.
  injection H as H. clear -H.
  pose proof log2_2 as H2. pose proof log2_3_gt_1 as H3.
  rewrite H2 in H.
  assert (Hpos : (0 < 1 / log2 3)%R).
  { apply Rdiv_lt_0_compat; lra. }
  assert (Hlt : (1 / log2 3 < 1)%R).
  { apply (Rmult_lt_reg_r (log2 3)); [lra |].
    unfold Rdiv. rewrite Rmult_assoc, Rinv_l by lra. lra. }
  assert (Hd : (1 / 1 + 1 / log2 3 <> 0)%R) by lra.
  assert (E : (1 / 1 = 1 / log2 3)%R).
  { apply Rmult_eq_reg_r with (/ (1 / 1 + 1 / log2 3))%R.
    - exact H.
    - now apply Rinv_neq_0_compat. }
  lra.
Qed.

(** * Further properties of the code *)

(** ** The retrieval: what it returns and how many queries it makes *)

Lemma StronglySorted_app_inv {A : Type} (R : A -> A -> Prop) (l1 l2 : list A) :
  StronglySorted R (l1 ++ l2) ->
  forall x y, In x l1 -> In y l2 -> R x y.
Proof.
  induction l1 as [| a l1 IH]; simpl; intros H x y Hx Hy; [contradiction |].
  inversion H as [| a' l' Hs Ha]; subst.
  destruct Hx as [<- | Hx].
  - rewrite Forall_forall in Ha. apply Ha. apply in_or_app. now right.
  - now apply IH.
Qed.

Lemma in_firstn_or_skipn {A : Type} (k : nat) (l : list A) x :
  In x l -> In x (firstn k l) \/ In x (skipn k l).
Proof.
  intros H. rewrite <- (firstn_skipn k l) in H. now apply in_app_or in H.
Qed.

Lemma table_index_nearest dists ties q : search_nearest (table_index dists ties) q.
Proof.
  intros k i j Hk Hi Hj Hnot. simpl in *.
  set (d := fun i => nth i dists (0#1)%Q) in *.
  pose proof (ranking_Sorted d ties (length dists)) as Hs.
  apply sorted_nearest_first in Hs. unfold nearest_first in Hs.
  rewrite <- (firstn_skipn k (ranking d ties (length dists))) in Hs.
  apply (StronglySorted_app_inv _ _ _ Hs); [assumption |].
  assert (Hin : In j (ranking d ties (length dists))).
  { apply (Permutation_in _ (Permutation_sym (ranking_Permutation d ties _))).
    apply in_seq. lia. }
  destruct (in_firstn_or_skipn k _ _ Hin); [contradiction | assumption].
Qed.

Section RetrievalExtras.

Variable nbrs : NeighborIndex.
Variable q : vector.
Variable item_id : list nat.
Variable amount : nat.

Hypothesis Hsearch : search_ok nbrs q.

Lemma recommend_shape fuel recs :
  recommend nbrs q item_id amount fuel = Ok recs ->
  recs = [] \/ exists k, 1 <= k <= n_samples_fit nbrs
                         /\ recs = firstn amount (filter (not_owned item_id)
                                                         (search nbrs q k)).
Proof.
  intros H. apply recommend_Ok_inv in H. destruct H as [l [H ->]].
  apply retrieve_Ok_inv in H. destruct H as [_ [[-> _] | [k [Hk ->]]]].
  - left. apply firstn_nil.
  - right. now exists k.
Qed.

(** X1.  The identifiers recommended to a user are pairwise distinct rows of
    the catalogue. *)
Theorem recommendations_distinct_in_catalogue fuel recs :
  recommend nbrs q item_id amount fuel = Ok recs ->
  NoDup recs /\ Forall (fun id => id < n_samples_fit nbrs) recs.
Proof.
  intros H. destruct (recommend_shape _ _ H) as [-> | [k [Hk ->]]].
  - split; constructor.
  - split.
    + apply firstn_NoDup, NoDup_filter. now apply (search_NoDup _ _ Hsearch).
    + pose proof (search_range _ _ Hsearch k Hk) as Hr.
      rewrite Forall_forall in *. intros x Hx.
      apply firstn_incl in Hx. apply filter_In in Hx. now apply Hr.
Qed.

(** X2.  When the index returns nearest neighbours, the recommendations are
    the nearest items the user does not own: every catalogue item that is
    neither owned nor recommended is at least as far from the query vector
    as every recommended item. *)
Theorem recommendations_are_nearest_novel fuel recs :
  search_nearest nbrs q ->
  recommend nbrs q item_id amount fuel = Ok recs ->
  forall i j,
    In i recs ->
    j < n_samples_fit nbrs -> ~ In j item_id -> ~ In j recs ->
    (distance nbrs q i <= distance nbrs q j)%Q.
Proof.
  intros Hnear H i j Hi Hj Hnovel Hout.
  destruct (recommend_shape _ _ H) as [-> | [k [Hk ->]]]; [contradiction |].
  set (l := filter (not_owned item_id) (search nbrs q k)) in *.
  assert (Hil : In i (search nbrs q k)).
  { apply firstn_incl in Hi. now apply filter_In in Hi. }
  destruct (in_dec Nat.eq_dec j (search nbrs q k)) as [Hjs | Hjs].
  - assert (Hjl : In j l) by (apply filter_In; split; [| apply not_owned_spec]; assumption).
    destruct (in_firstn_or_skipn amount _ _ Hjl) as [C | Hsk]; [contradiction |].
    assert (Hs : nearest_first (distance nbrs q) l).
    { apply StronglySorted_filter, sorted_nearest_first.
      now apply (search_sorted _ _ Hsearch). }
    unfold nearest_first in Hs. rewrite <- (firstn_skipn amount l) in Hs.
    now apply (StronglySorted_app_inv _ _ _ Hs).
  - now apply (Hnear k).
Qed.

(** Each query is larger than the one before and, while the loop goes on,
    smaller than [amount] plus the number of excluded catalogue items: the
    fuel left bounds the queries still to come. *)
Lemma retrieval_loop_queries fuel : forall gen_am recs,
  let n := n_samples_fit nbrs in
  let e := length (excluded n item_id) in
  amount + e <= n ->
  (length recs < amount -> gen_am + (amount - length recs) <= n) ->
  (length recs < amount -> amount + e < gen_am + (amount - length recs) + fuel) ->
  (length recs < amount -> 0 < fuel) ->
  exists l, retrieval_loop nbrs q item_id amount fuel gen_am recs = Ok l.
Proof.
  cbv zeta.
  induction fuel as [| fuel IH]; intros gen_am recs Hex Hfit Hfuel Hpos;
    rewrite retrieval_loop_eq;
    destruct (Nat.ltb_spec (length recs) amount) as [L | L];
    try (now exists recs).
  - specialize (Hpos L). lia.
  - specialize (Hfit L). specialize (Hfuel L).
    destruct (kneighbors_cases nbrs q (gen_am + (amount - length recs)))
      as [[Hbad _] | [Hk E]]; [lia |].
    rewrite E. simpl.
    destruct (filtered_query_bounds nbrs q item_id Hsearch _ Hk) as [Hlow _].
    apply IH; [assumption | | |]; intros L'; lia.
Qed.

(** X3.  When the first request and [amount] plus the excluded items fit in
    the catalogue, the loop makes at most [e - amount // 5 + 1] neighbour
    queries, [e] being the number of catalogue items the user excludes; a
    single query is enough when the 20% overhead covers them. *)
Theorem retrieval_queries_bounded :
  let n := n_samples_fit nbrs in
  let e := length (excluded n item_id) in
  amount / 5 + amount <= n ->
  amount + e <= n ->
  (exists l, retrieve nbrs q item_id amount (S (e - amount / 5)) = Ok l
             /\ retrieve nbrs q item_id amount (S n) = Ok l)
  /\ (e <= amount / 5 ->
      exists l, retrieve nbrs q item_id amount 1 = Ok l).
Proof.
  cbv zeta. intros H1 H2.
  assert (Hq : exists l, retrieve nbrs q item_id amount
                           (S (length (excluded (n_samples_fit nbrs) item_id)
                               - amount / 5)) = Ok l).
  { unfold retrieve. apply retrieval_loop_queries; cbn [length]; intros; lia. }
  split.
  - destruct Hq as [l Hl]. exists l. split; [assumption |].
    assert (Hle : S (length (excluded (n_samples_fit nbrs) item_id) - amount / 5)
                  <= S (n_samples_fit nbrs)) by lia.
    replace (S (n_samples_fit nbrs))
      with (S (length (excluded (n_samples_fit nbrs) item_id) - amount / 5)
            + (S (n_samples_fit nbrs)
               - S (length (excluded (n_samples_fit nbrs) item_id) - amount / 5)))
      by lia.
    unfold retrieve in *. rewrite retrieval_loop_more_fuel; [assumption |].
    rewrite Hl. discriminate.
  - intros He.
    replace (length (excluded (n_samples_fit nbrs) item_id) - amount / 5) with 0 in Hq
      by lia.
    assumption.
Qed.

End RetrievalExtras.

Lemma recommendations_distinct_in_catalogue_witness :
  NoDup [0; 1] /\ Forall (fun id => id < 3) [0; 1].
Proof.
  apply (recommendations_distinct_in_catalogue (table_index tied_distances true) [] [2] 2
           (table_index_ok _ _ _) 4).
  vm_compute. reflexivity.
Defined.

Lemma recommendations_are_nearest_novel_witness :
  (distance (table_index tied_distances true) [] 2
   <= distance (table_index tied_distances true) [] 1)%Q.
Proof.
  apply (recommendations_are_nearest_novel (table_index tied_distances true) [] [0] 1
           (table_index_ok _ _ _) 4 [2] (table_index_nearest _ _ _)).
  - vm_compute. reflexivity.
  - left. reflexivity.
  - vm_compute. lia.
  - intros [H | []]. discriminate.
  - intros [H | []]. discriminate.
Defined.

Lemma retrieval_queries_bounded_witness :
  exists l, retrieve (table_index tied_distances true) [] [2] 2 2 = Ok l
            /\ retrieve (table_index tied_distances true) [] [2] 2 4 = Ok l.
Proof.
  apply (retrieval_queries_bounded (table_index tied_distances true) [] [2] 2
           (table_index_ok _ _ _)); vm_compute; lia.
Defined.

(** ** A whole generation run: what it stores, running it again, bad rows *)

Lemma set_cell_twice name v v' row :
  set_cell name v (set_cell name v' row) = set_cell name v row.
Proof.
  induction row as [| [c w] rest IH]; simpl.
  - now rewrite String.eqb_refl.
  - destruct (String.eqb c name) eqn:E; simpl; rewrite E; [reflexivity | now rewrite IH].
Qed.

Lemma zip_rows_twice name rows : forall out,
  zip_rows name (zip_rows name rows out) out = zip_rows name rows out.
Proof.
  induction rows as [| [i r] rows IH]; intros [| v out]; simpl; try reflexivity.
  now rewrite set_cell_twice, IH.
Qed.

Lemma zip_rows_labels name rows : forall out,
  length out = length rows -> map fst (zip_rows name rows out) = map fst rows.
Proof.
  induction rows as [| [i r] rows IH]; intros [| v out] H; simpl in *;
    try discriminate; try reflexivity.
  f_equal. apply IH. lia.
Qed.

Lemma has_column_app_same name cols : has_column name (cols ++ [name]) = true.
Proof.
  unfold has_column. rewrite existsb_app. simpl.
  now rewrite String.eqb_refl, orb_true_r.
Qed.

Lemma recommended_frame_twice df out :
  recommended_frame (recommended_frame df out) out = recommended_frame df out.
Proof.
  unfold recommended_frame. simpl. rewrite zip_rows_twice. f_equal.
  destruct (has_column "recommendations" (columns df)) eqn:E.
  - now rewrite E.
  - now rewrite has_column_app_same.
Qed.

Lemma Forall2_functional {A B : Type} (f : A -> result B) (l : list A) :
  forall out out',
    Forall2 (fun a b => f a = Ok b) l out ->
    Forall2 (fun a b => f a = Ok b) l out' -> out = out'.
Proof.
  induction l as [| a l IH]; intros out out' H H'; inversion H; inversion H'; subst;
    [reflexivity |].
  f_equal; [congruence | now apply IH].
Qed.

Section RunExtras.

Variable sk : Sklearn.
Variable amount : nat.
Variable read_max : option nat.

(** The iteration of a user reads the owned items and the playtimes of the
    row; a ['recommendations'] cell left by an earlier call does not
    matter. *)
Lemma class_row_ignores_recommendations self items_frame nbrs index v row :
  class_row sk self amount items_frame nbrs index (set_cell "recommendations" v row)
  = class_row sk self amount items_frame nbrs index row.
Proof.
  unfold class_row.
  destruct (class_of self);
    unfold content_based_row, improved_row, feedback_branch, getitem;
    rewrite !lookup_set_cell_other by discriminate; reflexivity.
Qed.

Lemma Forall2_zip_rows self items_frame nbrs rows : forall out,
  Forall2 (fun r recs => class_row sk self amount items_frame nbrs (fst r) (snd r)
                         = Ok recs) rows out ->
  Forall2 (fun r recs => class_row sk self amount items_frame nbrs (fst r) (snd r)
                         = Ok recs)
          (zip_rows "recommendations" rows out) out.
Proof.
  induction rows as [| [i r] rows IH]; intros out H; inversion H; subst; simpl;
    constructor.
  - simpl in *. now rewrite class_row_ignores_recommendations.
  - now apply IH.
Qed.

(** A call whose matrix, index and per-user lists are known completes with
    the corresponding table. *)
Lemma generate_completes self X nbrs out :
  class_pipeline sk self = Ok X ->
  fit sk amount X = Ok nbrs ->
  Forall2 (fun r recs => class_row sk self amount (class_frame self X) nbrs (fst r) (snd r)
                         = Ok recs)
          (records (fst (select_users (train self) read_max))) out ->
  outcome (generate_recommendations sk self amount read_max)
  = Ok (set_recommendations self
          (recommended_frame (fst (select_users (train self) read_max)) out)
          (snd (select_users (train self) read_max))).
Proof.
  intros HX Hfit Hf.
  pose proof (generate_outcome sk self amount read_max) as R.
  destruct R as [code HX' | X' HX' Hfit' | X' nbrs' done out' i r rest e HX' Hfit' Hrs _ Hb
                 | X' nbrs' out' HX' Hfit' Hf']; simpl.
  - congruence.
  - assert (X' = X) by congruence. subst. congruence.
  - assert (X' = X) by congruence. subst.
    assert (nbrs' = nbrs) by congruence. subst. exfalso.
    rewrite Hrs in Hf. apply Forall2_app_inv_l in Hf.
    destruct Hf as (o1 & o2 & _ & Hf & _). inversion Hf; subst. simpl in *. congruence.
  - assert (X' = X) by congruence. subst.
    assert (nbrs' = nbrs) by congruence. subst.
    now rewrite (Forall2_functional _ _ _ _ Hf' Hf).
Qed.

(** X4.  A completed call stores one row per processed user, in the order
    and under the labels of the user table, each with a
    ['recommendations'] cell.  Without [read_max] the table it stores is the
    training table itself, which thereby gains the column; with a positive
    [read_max] the training table is left as it was and only the first
    [read_max] users are in the stored table.  The ground-truth tables and
    the item table are never touched. *)
Theorem generation_stores_table self self' :
  outcome (generate_recommendations sk self amount read_max) = Ok self' ->
  map fst (records (recommendations self'))
  = map fst (records (fst (select_users (train self) read_max)))
  /\ has_column "recommendations" (columns (recommendations self')) = true
  /\ (forall index row, In (index, row) (records (recommendations self')) ->
        exists recs, getitem row "recommendations" = Ok recs)
  /\ match read_max with
     | Some (S m) =>
         train self' = train self
         /\ length (records (recommendations self'))
            = Nat.min (S m) (length (records (train self)))
     | _ => train self' = recommendations self'
     end
  /\ test self' = test self /\ val self' = val self /\ items self' = items self.
Proof.
  intros H. pose proof (generate_outcome sk self amount read_max) as R.
  revert H. destruct R as [code _ | X _ _ | X nbrs done out i r rest e _ _ _ _ _
                           | X nbrs out HX Hfit Hf]; simpl; try discriminate.
  intros [= <-]. cbn [recommendations set_recommendations recommended_frame records
                           columns train test val items].
  pose proof (Forall2_length Hf) as Hlen. symmetry in Hlen.
  split; [apply zip_rows_labels; exact Hlen |].
  split.
  { destruct (has_column "recommendations"
                         (columns (fst (select_users (train self) read_max)))) eqn:E;
      [exact E | apply has_column_app_same]. }
  split.
  { intros index row Hin.
    destruct (In_zip_rows _ _ _ _ _ _ Hf Hin) as (r0 & v & _ & _ & ->).
    exists v. unfold getitem. now rewrite lookup_set_cell_same. }
  split; [| auto].
  destruct read_max as [[| m] |]; try reflexivity.
  split; [reflexivity |].
  rewrite zip_rows_length by exact Hlen. apply length_firstn.
Qed.

(** X5.  Generating again on the instance a completed call returned, with
    the same arguments, completes and stores the same table. *)
Theorem generation_idempotent self self' :
  outcome (generate_recommendations sk self amount read_max) = Ok self' ->
  result_table (generate_recommendations sk self' amount read_max)
  = Ok (recommendations self').
Proof.
  intros H. pose proof (generate_outcome sk self amount read_max) as R.
  revert H. destruct R as [code _ | X _ _ | X nbrs done out i r rest e _ _ _ _ _
                           | X nbrs out HX Hfit Hf]; simpl; try discriminate.
  intros [= <-].
  set (df := fst (select_users (train self) read_max)) in *.
  set (b := snd (select_users (train self) read_max)) in *.
  set (self' := set_recommendations self (recommended_frame df out) b).
  assert (Hdf : recommended_frame (fst (select_users (train self') read_max)) out
                = recommended_frame df out
                /\ Forall2 (fun r recs =>
                              class_row sk self' amount (class_frame self' X) nbrs
                                        (fst r) (snd r) = Ok recs)
                           (records (fst (select_users (train self') read_max))) out).
  { subst self' df b. destruct read_max as [[| m] |]; simpl in *.
    - split; [apply recommended_frame_twice |]. now apply Forall2_zip_rows.
    - split; [reflexivity | exact Hf].
    - split; [apply recommended_frame_twice |]. now apply Forall2_zip_rows. }
  destruct Hdf as [Hdf Hf'].
  unfold result_table.
  rewrite (generate_completes self' X nbrs out HX Hfit Hf').
  cbn [Py.bind recommendations set_recommendations].
  rewrite Hdf. reflexivity.
Qed.

(** X6.  A processed user whose row has no ['item_id'] cell, or lists a
    position outside the item table, makes the whole call raise (KeyError
    and IndexError are what the user's iteration raises), whatever the
    other users are. *)
Theorem malformed_row_is_fatal self X index row :
  class_pipeline sk self = Ok X ->
  In (index, row) (records (fst (select_users (train self) read_max))) ->
  getitem row "item_id" = Raise KeyError
  \/ (exists item_id, getitem row "item_id" = Ok item_id
                      /\ Exists (fun i => n_rows X <= i) item_id) ->
  (exists e, outcome (generate_recommendations sk self amount read_max) = Raise e)
  /\ forall nbrs,
       class_row sk self amount (class_frame self X) nbrs index row
       = Raise (match getitem row "item_id" with Ok _ => IndexError | _ => KeyError end).
Proof.
  intros HX Hin Hbad.
  assert (Hrow : forall nbrs,
             class_row sk self amount (class_frame self X) nbrs index row
             = Raise (match getitem row "item_id" with
                      | Ok _ => IndexError | _ => KeyError end)).
  { intros nbrs.
    assert (Hi : forall item_id, Exists (fun i => n_rows X <= i) item_id ->
                                 iloc (values X) item_id = Raise IndexError).
    { intros item_id Hex. induction Hex as [i rest Hi | i rest Hex IH]; simpl.
      - unfold n_rows in Hi. apply nth_error_None in Hi. now rewrite Hi.
      - destruct (nth_error (values X) i); [| reflexivity]. now rewrite IH. }
    unfold class_row.
    destruct (class_of self); unfold content_based_row, improved_row;
      (destruct Hbad as [Hk | (item_id & Hg & Hex)];
       [rewrite Hk; reflexivity
       | rewrite Hg; cbn [Py.bind class_frame values]; rewrite (Hi _ Hex); reflexivity]). }
  split; [| exact Hrow].
  pose proof (generate_outcome sk self amount read_max) as R.
  destruct R as [code _ | X' _ _ | X' nbrs done out i r rest e _ _ _ _ _
                 | X' nbrs out HX' Hfit Hf]; simpl; eauto.
  exfalso. assert (X' = X) by congruence. subst.
  destruct (Forall2_In_l _ _ _ _ Hf Hin) as (recs & _ & Hok).
  simpl in Hok. rewrite Hrow in Hok. discriminate.
Qed.

End RunExtras.

Lemma generation_stores_table_witness :
  train (returned (scenario1 true)
           (generate_recommendations (toy_sklearn true) (scenario1 true) 1 None))
  = recommendations
      (returned (scenario1 true)
         (generate_recommendations (toy_sklearn true) (scenario1 true) 1 None)).
Proof.
  apply (generation_stores_table (toy_sklearn true) 1 None (scenario1 true)
           (returned (scenario1 true)
              (generate_recommendations (toy_sklearn true) (scenario1 true) 1 None))).
  vm_compute. reflexivity.
Defined.

Lemma generation_idempotent_witness :
  result_table
    (generate_recommendations (toy_sklearn true)
       (returned (scenario1 true)
          (generate_recommendations (toy_sklearn true) (scenario1 true) 1 None))
       1 None)
  = Ok (recommendations
          (returned (scenario1 true)
             (generate_recommendations (toy_sklearn true) (scenario1 true) 1 None))).
Proof.
  apply (generation_idempotent (toy_sklearn true) 1 None (scenario1 true)).
  vm_compute. reflexivity.
Defined.

Lemma malformed_row_is_fatal_witness :
  exists e, outcome (generate_recommendations (toy_sklearn true) with_bad_position 1 None)
            = Raise e.
Proof.
  apply (malformed_row_is_fatal (toy_sklearn true) 1 None with_bad_position
           (feature_array with_bad_position) 8 [("item_id"%string, [5])]).
  - vm_compute. reflexivity.
  - vm_compute. right. left. reflexivity.
  - right. exists [5]. split; [reflexivity |]. constructor. vm_compute. lia.
Defined.

(** ** The metrics: ranges, consistency and the cutoff *)

Section MetricExtras.

Local Open Scope R_scope.

(** The discount of rank [i]. *)
Let w (i : nat) : R := 1 / log2 (INR (i + 2)).

Lemma ln_monotone x y : 0 < x -> x <= y -> ln x <= ln y.
Proof.
  intros Hx [Hlt | ->]; [| lra]. left. now apply ln_increasing.
Qed.

Lemma log2_monotone i j : (i <= j)%nat -> log2 (INR (i + 2)) <= log2 (INR (j + 2)).
Proof.
  intros Hij. unfold log2. pose proof ln_2_pos as H2.
  apply Rmult_le_compat_r; [left; now apply Rinv_0_lt_compat |].
  apply ln_monotone.
  - apply lt_0_INR. lia.
  - apply le_INR. lia.
Qed.

Lemma log2_rank_ge_1 i : 1 <= log2 (INR (i + 2)).
Proof.
  rewrite <- log2_2. replace 2 with (INR (0 + 2)) by (simpl; lra).
  apply log2_monotone. lia.
Qed.

Lemma w_pos i : 0 < w i.
Proof.
  unfold w. pose proof (log2_rank_ge_1 i). apply Rdiv_lt_0_compat; lra.
Qed.

Lemma w_antitone i j : (i <= j)%nat -> w j <= w i.
Proof.
  intros Hij. unfold w, Rdiv. rewrite !Rmult_1_l.
  apply Rinv_le_contravar.
  - pose proof (log2_rank_ge_1 i). lra.
  - now apply log2_monotone.
Qed.

Lemma Rsum_app l1 l2 : Rsum (l1 ++ l2) = Rsum l1 + Rsum l2.
Proof. induction l1 as [| x l1 IH]; simpl; [lra | rewrite IH; lra]. Qed.

Lemma Rsum_nonneg l : Forall (fun x => 0 <= x) l -> 0 <= Rsum l.
Proof. induction 1; simpl; lra. Qed.

Lemma w_sum_nonneg s c : 0 <= Rsum (map w (seq s c)).
Proof.
  apply Rsum_nonneg, Forall_forall. intros x Hx. apply in_map_iff in Hx.
  destruct Hx as [i [<- _]]. left. apply w_pos.
Qed.

Lemma w_sum_shift s c : Rsum (map w (seq (S s) c)) <= Rsum (map w (seq s c)).
Proof.
  revert s. induction c as [| c IH]; intros s; cbn [seq map Rsum fold_right]; [lra |].
  pose proof (w_antitone s (S s) (Nat.le_succ_diag_r s)). specialize (IH (S s)).
  unfold Rsum in IH. lra.
Qed.

Lemma w_sum_prefix s c m : (c <= m)%nat -> Rsum (map w (seq s c)) <= Rsum (map w (seq s m)).
Proof.
  intros Hcm. replace m with (c + (m - c))%nat by lia.
  rewrite seq_app, map_app, Rsum_app.
  pose proof (w_sum_nonneg (s + c) (m - c)). lra.
Qed.

(** The gained discounts are at most the first discounts, as many as there
    are hits. *)
Lemma dcg_le_prefix items recs : forall start,
  Rsum (map (fun ir : nat * nat =>
               int_of_bool (mem (snd ir) items) / log2 (INR (fst ir + 2)))
            (enumerate start recs))
  <= Rsum (map w (seq start (length (filter (fun r => mem r items) recs)))).
Proof.
  induction recs as [| r recs IH]; intros start; simpl; [lra |].
  specialize (IH (S start)).
  destruct (mem r items); simpl.
  - fold (w start). lra.
  - pose proof (w_sum_shift start (length (filter (fun r => mem r items) recs))).
    unfold Rdiv at 1. rewrite Rmult_0_l. lra.
Qed.

Lemma dcg_nonneg items recs : forall start,
  0 <= Rsum (map (fun ir : nat * nat =>
                    int_of_bool (mem (snd ir) items) / log2 (INR (fst ir + 2)))
                 (enumerate start recs)).
Proof.
  induction recs as [| r recs IH]; intros start; simpl; [lra |].
  specialize (IH (S start)). pose proof (w_pos start) as Hw. unfold w in Hw.
  destruct (mem r items); simpl.
  - lra.
  - unfold Rdiv at 1. rewrite Rmult_0_l. lra.
Qed.

Lemma hits_bounded recs items :
  NoDup recs ->
  (length (filter (fun r => mem r items) recs)
   <= Nat.min (length recs) (length items))%nat.
Proof.
  intros Hnd. apply Nat.min_glb.
  - apply filter_length_le.
  - apply NoDup_incl_length; [now apply NoDup_filter |].
    intros x Hx. apply filter_In in Hx. now apply mem_In.
Qed.

(** X7.  The nDCG of a user whose recommendation list has no repeated item
    lies between 0 and 1. *)
Theorem ndcg_in_unit_interval recs items x :
  NoDup recs ->
  ndcg recs items = Some x ->
  0 <= x <= 1.
Proof.
  intros Hnd. unfold ndcg.
  destruct (Nat.eqb_spec (Nat.min (length recs) (length items)) 0) as [E | E];
    [discriminate |].
  intros [= <-].
  assert (Hi : 0 < ideal_dcg recs items).
  { unfold ideal_dcg. destruct (Nat.min (length recs) (length items)); [congruence |].
    cbn [seq map Rsum fold_right]. pose proof (w_pos 0) as Hw0.
    pose proof (w_sum_nonneg 1 n) as Hw1. unfold w, Rsum in Hw0, Hw1.
    lra. }
  assert (Hd : dcg recs items <= ideal_dcg recs items).
  { unfold dcg, ideal_dcg. fold w.
    eapply Rle_trans; [apply dcg_le_prefix |].
    apply w_sum_prefix. now apply hits_bounded. }
  pose proof (dcg_nonneg items recs 0%nat) as H0. fold (dcg recs items) in H0.
  split.
  - apply Rmult_le_pos; [assumption | left; now apply Rinv_0_lt_compat].
  - apply (Rmult_le_reg_r (ideal_dcg recs items)); [assumption |].
    unfold Rdiv. rewrite Rmult_assoc, Rinv_l by lra. lra.
Qed.

Lemma INR_div_le a b c : (a <= b)%nat -> (0 < c)%nat -> INR a / INR c <= INR b / INR c.
Proof.
  intros Hab Hc. unfold Rdiv. apply Rmult_le_compat_r.
  - left. apply Rinv_0_lt_compat. now apply lt_0_INR.
  - now apply le_INR.
Qed.

Lemma common_bounded recs items :
  (length (filter (fun x => mem x (to_set items)) (to_set recs))
   <= Nat.min (length (to_set items)) (length (to_set recs)))%nat.
Proof.
  apply Nat.min_glb.
  - apply NoDup_incl_length; [apply NoDup_filter, NoDup_nodup |].
    intros x Hx. apply filter_In in Hx. now apply mem_In.
  - apply filter_length_le.
Qed.

Lemma hit_iff_common recs items :
  existsb (fun item => mem item recs) items = true
  <-> (0 < length (filter (fun x => mem x (to_set items)) (to_set recs)))%nat.
Proof.
  rewrite existsb_exists. split.
  - intros [x [Hi Hr]]. apply mem_In in Hr.
    assert (Hin : In x (filter (fun x => mem x (to_set items)) (to_set recs))).
    { apply filter_In. split; [now apply nodup_In |]. apply mem_In. now apply nodup_In. }
    destruct (filter _ _); [contradiction | simpl; lia].
  - intros H.
    destruct (filter (fun x => mem x (to_set items)) (to_set recs)) as [| x l] eqn:E;
      [simpl in H; lia |].
    assert (Hin : In x (filter (fun x => mem x (to_set items)) (to_set recs)))
      by (rewrite E; now left).
    apply filter_In in Hin. destruct Hin as [Hr Hi].
    exists x. split.
    + apply mem_In in Hi. now apply nodup_In in Hi.
    + apply mem_In. now apply nodup_In in Hr.
Qed.

(** X8.  For a user with a non-empty ground truth, recall and ideal recall
    are defined and [0 <= recall <= ideal_recall <= 1]; the hit rate is 0 or
    1, and it is 1 exactly when the recall is positive; a defined
    normalised recall lies between 0 and 1. *)
Theorem recall_metrics_consistent recs items :
  items <> [] ->
  exists r ir,
    recall recs items = Some r /\ ideal_recall recs items = Some ir
    /\ 0 <= r <= ir /\ ir <= 1
    /\ (hit_rate recs items = 0 \/ hit_rate recs items = 1)
    /\ (hit_rate recs items = 1 <-> 0 < r)
    /\ (forall x, n_recall recs items = Some x -> 0 <= x <= 1).
Proof.
  intros Hne. unfold n_recall, recall, ideal_recall, hit_rate. cbv zeta.
  pose proof (common_bounded recs items) as Hc.
  pose proof (hit_iff_common recs items) as Hh.
  set (a := length (filter (fun x => mem x (to_set items)) (to_set recs))) in *.
  set (b := length (to_set items)) in *.
  set (c := length (to_set recs)) in *.
  assert (Hb : (0 < b)%nat).
  { subst b. destruct items as [| i items]; [congruence |].
    assert (Hin : In i (to_set (i :: items))) by (apply nodup_In; now left).
    destruct (to_set (i :: items)); [contradiction | simpl; lia]. }
  destruct (Nat.eqb_spec b 0) as [E | _]; [lia |].
  pose proof (lt_0_INR b Hb) as HbR.
  eexists. eexists. split; [reflexivity |]. split; [reflexivity |].
  assert (H0 : 0 <= INR a / INR b).
  { apply Rmult_le_pos; [apply pos_INR | left; now apply Rinv_0_lt_compat]. }
  assert (H1 : INR a / INR b <= INR (Nat.min b c) / INR b)
    by (apply INR_div_le; lia).
  assert (H2 : INR (Nat.min b c) / INR b <= 1).
  { apply (Rmult_le_reg_r (INR b)); [assumption |].
    unfold Rdiv. rewrite Rmult_assoc, Rinv_l by lra.
    rewrite Rmult_1_r, Rmult_1_l. apply le_INR. lia. }
  split; [split; assumption |]. split; [assumption |].
  split; [destruct (existsb _ items); simpl; auto |].
  split; [split |].
  - intros Hhit. destruct (existsb (fun item => mem item recs) items) eqn:Ex;
      simpl in Hhit; [| lra].
    apply Rdiv_lt_0_compat; [| assumption]. apply lt_0_INR. now apply Hh.
  - intros Hr. destruct (existsb (fun item => mem item recs) items) eqn:Ex;
      [reflexivity |]. exfalso.
    assert (Ha : a = 0%nat).
    { destruct a; [reflexivity |]. assert (false = true) by (apply Hh; lia). discriminate. }
    rewrite Ha in Hr. unfold Rdiv in Hr. simpl in Hr. lra.
  - intros x. destruct (Nat.eqb_spec (Nat.min b c) 0) as [E | E]; [discriminate |].
    intros [= <-].
    assert (Hm : 0 < INR (Nat.min b c) / INR b).
    { apply Rdiv_lt_0_compat; [| assumption]. apply lt_0_INR. lia. }
    split.
    + apply Rmult_le_pos; [assumption |]. left. now apply Rinv_0_lt_compat.
    + apply (Rmult_le_reg_r (INR (Nat.min b c) / INR b)); [assumption |].
      unfold Rdiv at 1. rewrite Rmult_assoc, Rinv_l by lra. lra.
Qed.

End MetricExtras.

Lemma ndcg_in_unit_interval_witness :
  (0 <= (1 / log2 2) / (1 / log2 2 + 1 / log2 3) <= 1)%R.
Proof.
  apply (ndcg_in_unit_interval [1; 2] [1; 3]).
  - repeat constructor; simpl; intuition discriminate.
  - change (ndcg (firstn 2 [1; 2]) [1; 3]
            = Some ((1 / log2 2) / (1 / log2 2 + 1 / log2 3))%R).
    rewrite ndcg_spec by discriminate.
    unfold spec_ndcg. cbn [firstn length Nat.min seq map mem existsb Nat.eqb nth orb Rsum
                                  fold_right INR].
    f_equal.
    replace (0 + 2)%R with 2%R by ring. replace (1 + 2)%R with 3%R by ring.
    unfold Rdiv. f_equal; [ring | f_equal; ring].
Defined.

Lemma recall_metrics_consistent_witness :
  exists r ir,
    recall [1; 2] [1; 3] = Some r /\ ideal_recall [1; 2] [1; 3] = Some ir
    /\ (0 <= r <= ir)%R /\ (ir <= 1)%R
    /\ (hit_rate [1; 2] [1; 3] = 0%R \/ hit_rate [1; 2] [1; 3] = 1%R)
    /\ (hit_rate [1; 2] [1; 3] = 1%R <-> (0 < r)%R)
    /\ (forall x, n_recall [1; 2] [1; 3] = Some x -> (0 <= x <= 1)%R).
Proof.
  apply (recall_metrics_consistent [1; 2] [1; 3]). discriminate.
Defined.

Section CutoffExtras.

Local Open Scope R_scope.

Lemma firstn_incl_le {A : Type} (k k' : nat) (l : list A) :
  (k <= k')%nat -> incl (firstn k l) (firstn k' l).
Proof.
  intros Hk. replace k with (Nat.min k k') by lia.
  rewrite <- firstn_firstn. apply firstn_incl.
Qed.

(** X9.  Raising the cutoff never lowers the hit rate or the recall of a
    user. *)
Theorem cutoff_monotone recs items k k' :
  (k <= k')%nat -> items <> [] ->
  hit_rate (firstn k recs) items <= hit_rate (firstn k' recs) items
  /\ exists r r',
       recall (firstn k recs) items = Some r
       /\ recall (firstn k' recs) items = Some r' /\ r <= r'.
Proof.
  intros Hk Hne. pose proof (firstn_incl_le k k' recs Hk) as Hincl. split.
  - unfold hit_rate.
    destruct (existsb (fun item => mem item (firstn k recs)) items) eqn:E.
    + apply existsb_exists in E. destruct E as [x [Hx Hm]].
      assert (E' : existsb (fun item => mem item (firstn k' recs)) items = true).
      { apply existsb_exists. exists x. split; [assumption |].
        apply mem_In. apply Hincl. now apply mem_In. }
      rewrite E'. unfold int_of_bool. lra.
    + destruct (existsb (fun item => mem item (firstn k' recs)) items);
        cbn [int_of_bool]; lra.
  - unfold recall. cbv zeta.
    assert (Hb : (0 < length (to_set items))%nat).
    { destruct items as [| i items]; [congruence |].
      assert (Hin : In i (to_set (i :: items))) by (apply nodup_In; now left).
      destruct (to_set (i :: items)); [contradiction | simpl; lia]. }
    destruct (Nat.eqb_spec (length (to_set items)) 0) as [E | _]; [lia |].
    eexists. eexists. split; [reflexivity |]. split; [reflexivity |].
    apply INR_div_le; [| assumption].
    apply NoDup_incl_length; [apply NoDup_filter, NoDup_nodup |].
    intros x Hx. apply filter_In in Hx. destruct Hx as [Hx Hm].
    apply filter_In. split; [| assumption].
    apply nodup_In. apply Hincl. now apply nodup_In in Hx.
Qed.

End CutoffExtras.

Lemma cutoff_monotone_witness :
  (hit_rate (firstn 1 [2; 1]%nat) [1; 3]%nat
   <= hit_rate (firstn 2 [2; 1]%nat) [1; 3]%nat)%R.
Proof.
  apply (cutoff_monotone [2; 1] [1; 3] 1 2); [lia | discriminate].
Defined.

(** ** Evaluation as an operation on the instance *)

Lemma rename_key_twice old new c :
  old <> new -> rename_key old new (rename_key old new c) = rename_key old new c.
Proof.
  intros Hne. unfold rename_key.
  destruct (String.eqb_spec c old) as [-> | Hc].
  - destruct (String.eqb_spec new old); [congruence | reflexivity].
  - destruct (String.eqb_spec c old); [contradiction | reflexivity].
Qed.

Lemma rename_column_twice df :
  rename_column "item_id" "items" (rename_column "item_id" "items" df)
  = rename_column "item_id" "items" df.
Proof.
  unfold rename_column. simpl. f_equal.
  - rewrite map_map. apply map_ext. intros c. apply rename_key_twice. discriminate.
  - rewrite map_map. apply map_ext. intros [i r]. simpl. f_equal.
    rewrite map_map. apply map_ext. intros [c v]. simpl. f_equal.
    apply rename_key_twice. discriminate.
Qed.

(** X10.  Evaluating again, with any cutoff, on the instance an evaluation
    left behind changes nothing more and reports what a first evaluation
    with that cutoff reports. *)
Theorem evaluate_again self k k' val_flag :
  evaluate (fst (evaluate self k val_flag)) k' val_flag
  = (fst (evaluate self k val_flag), snd (evaluate self k' val_flag)).
Proof.
  unfold evaluate. cbv zeta.
  destruct val_flag; cbn [fst snd set_ground_truth val test recommendations];
    rewrite rename_column_twice; reflexivity.
Qed.

Lemma merge_matched left right :
  records (merge (matched right left) right) = records (merge left right).
Proof.
  unfold merge, matched. cbn [records columns].
  induction (records left) as [| l ls IH]; [reflexivity |].
  cbn [filter flat_map].
  destruct (existsb (fun r : nat * row_t => fst r =? fst l) (records right)) eqn:E.
  - cbn [flat_map]. now rewrite IH.
  - rewrite IH.
    assert (Hnone : filter (fun r : nat * row_t => fst r =? fst l) (records right) = []).
    { clear IH. induction (records right) as [| r rs IHr]; [reflexivity |].
      simpl in *. apply orb_false_elim in E. destruct E as [E1 E2].
      rewrite E1. now apply IHr. }
    now rewrite Hnone.
Qed.

(** X11.  The evaluation joins on the user label: a user is in the joined
    table exactly when both the recommendation table and the ground truth
    have a row for it, and the users of the recommendation table that have
    no ground truth do not change the report. *)
Theorem evaluation_is_inner_join (self : Recommender) (k : nat) (val_flag : bool) :
  let gt := rename_column "item_id" "items" (if val_flag then val self else test self) in
  (forall i,
     In i (map fst (records (merge (recommendations self) gt)))
     <-> In i (map fst (records (recommendations self)))
         /\ In i (map fst (records gt)))
  /\ snd (evaluate (set_recommendations self (matched gt (recommendations self)) false)
                   k val_flag)
     = snd (evaluate self k val_flag).
Proof.
  cbv zeta. split.
  - intros i. unfold merge. cbn [records].
    rewrite !in_map_iff. split.
    + intros [[j row] [<- Hin]]. apply in_flat_map in Hin.
      destruct Hin as [[l lrow] [Hl Hin]]. apply in_map_iff in Hin.
      destruct Hin as [[r rrow] [[= <- <-] Hr]]. apply filter_In in Hr.
      destruct Hr as [Hr Heq]. simpl in *. apply Nat.eqb_eq in Heq. subst.
      split; [exists (l, lrow) | exists (l, rrow)]; auto.
    + intros [[[l lrow] [<- Hl]] [[r rrow] [Heq Hr]]]. simpl in *. subst.
      eexists (l, _). split; [reflexivity |].
      apply in_flat_map. exists (l, lrow). split; [assumption |].
      apply in_map_iff. exists (l, rrow). split; [reflexivity |].
      apply filter_In. split; [assumption | apply Nat.eqb_refl].
  - unfold evaluate. cbv zeta. cbn [snd].
    destruct val_flag;
      cbn [set_ground_truth set_recommendations recommendations val test];
      unfold results_dict;
      match goal with
      | |- context [merge (matched ?g ?l) ?g] =>
          replace (records (merge (matched g l) g)) with (records (merge l g))
            by (symmetry; apply merge_matched);
          change (columns (merge (matched g l) g)) with (columns (merge l g))
      end; reflexivity.
Qed.

(** X12.  Evaluating an instance whose recommendation table is still the
    empty one the constructors leave raises KeyError, as long as the ground
    truth has no column named ['recommendations']. *)
Theorem evaluate_before_generation (self : Recommender) (k : nat) (val_flag : bool) :
  recommendations self = empty_frame ->
  has_column "recommendations" (columns (if val_flag then val self else test self))
  = false ->
  snd (evaluate self k val_flag) = Raise KeyError.
Proof.
  intros Hrec Hcol. unfold evaluate. cbv zeta. cbn [snd].
  assert (Hr : recommendations
                 (set_ground_truth self val_flag
                    (rename_column "item_id" "items"
                       (if val_flag then val self else test self)))
               = empty_frame) by (destruct val_flag; exact Hrec).
  rewrite Hr. unfold results_dict, merge. cbn [columns records empty_frame flat_map map app].
  cbn [column_values].
  assert (Hno : has_column "recommendations"
                  (map (suffixed [] "_y")
                       (map (rename_key "item_id" "items")
                            (columns (if val_flag then val self else test self))))
                = false).
  { rewrite (map_ext (suffixed [] "_y") (fun c => c)) by reflexivity.
    rewrite map_id.
    revert Hcol. generalize (columns (if val_flag then val self else test self)).
    unfold has_column.
    induction l as [| c l IH]; [reflexivity |].
    cbn [map existsb]. intros H. apply orb_false_elim in H.
    destruct H as [H1 H2]. rewrite (IH H2), orb_false_r.
    unfold rename_key.
    destruct (String.eqb_spec c "item_id") as [-> | Hc]; [reflexivity | exact H1]. }
  unfold rename_column. cbn [columns]. rewrite Hno. reflexivity.
Qed.

Lemma evaluate_before_generation_witness :
  snd (evaluate (scenario1 true) 10 false) = Raise KeyError.
Proof.
  apply (evaluate_before_generation (scenario1 true) 10 false); reflexivity.
Defined.

(** ** The cell transforms of the preprocessing *)







Lemma split_not_nil sep s : split sep s <> [].
Proof.
  destruct s as [| c s]; simpl; [discriminate |].
  destruct (Ascii.eqb c sep); [discriminate |].
  destruct (split sep s); discriminate.
Qed.

Lemma split_no_sep sep s :
  Forall (fun tok => ~ In sep (list_ascii_of_string tok)) (split sep s).
Proof.
  induction s as [| c s IH]; simpl.
  - constructor; [intros [] | constructor].
  - destruct (Ascii.eqb_spec c sep) as [-> | Hc].
    + constructor; [intros [] | assumption].
    + destruct (split sep s) as [| t rest]; [repeat constructor; simpl; intuition |].
      inversion IH as [| t' r' Ht Hr]; subst.
      constructor; [| assumption]. simpl. intros [E | H]; [congruence | contradiction].
Qed.

Lemma plus_ends_nonempty p s :
  plus_ends p s <> [] <-> exists c rest, s = String c rest /\ p c = true.
Proof.
  destruct s as [| c rest]; simpl.
  - split; [congruence | intros (c & rest & H & _); discriminate].
  - destruct (p c) eqn:E.
    + split; [intros _; eauto |]. intros _ H. apply app_eq_nil in H.
      destruct H as [_ H]. discriminate.
    + split; [congruence |]. intros (c' & rest' & [= <- <-] & H). congruence.
Qed.

(** X15.  The test on the price text accepts exactly the texts that start
    with a digit: the rest of the pattern is optional and the match is not
    anchored at the end, so what follows the first digit is not checked. *)
Theorem price_accepted_iff text :
  price_accepted text = true
  <-> exists c rest, text = String c rest /\ is_digit c = true.
Proof.
  rewrite <- plus_ends_nonempty.
  unfold price_accepted, re_match, price_pattern. cbn [ends].
  destruct (plus_ends is_digit text) as [| s l]; simpl.
  - split; [discriminate | congruence].
  - split; [discriminate | intros _].
    destruct (ends (Seq (Chr dot_char) (Seq (Chr is_digit) (Chr is_digit))) s ++ [s])
      eqn:E.
    + apply app_eq_nil in E. destruct E as [_ E]. discriminate.
    + cbn [ends] in E. rewrite E. reflexivity.
Qed.

(** ** The feature encoding *)

Lemma insert_label_Permutation s l : Permutation (insert_label s l) (s :: l).
Proof.
  induction l as [| t l IH]; simpl; [reflexivity |].
  destruct (String.leb s t); [reflexivity |].
  rewrite IH. apply perm_swap.
Qed.

Lemma sorted_labels_Permutation l : Permutation (sorted_labels l) l.
Proof.
  induction l as [| s l IH]; simpl; [reflexivity |].
  rewrite insert_label_Permutation. now constructor.
Qed.

Lemma insert_label_Sorted s l :
  Sorted (fun a b => String.leb a b = true) l ->
  Sorted (fun a b => String.leb a b = true) (insert_label s l).
Proof.
  induction 1 as [| t l Hs IH Ht]; simpl.
  - repeat constructor.
  - destruct (String.leb s t) eqn:E.
    + constructor; [now constructor | now constructor].
    + assert (Hts : String.leb t s = true)
        by (destruct (String.leb_total s t); congruence).
      constructor; [assumption |].
      destruct l as [| t' l']; simpl.
      * now constructor.
      * destruct (String.leb s t'); constructor; [assumption | now inversion Ht].
Qed.

Lemma sorted_labels_Sorted l :
  Sorted (fun a b => String.leb a b = true) (sorted_labels l).
Proof.
  induction l as [| s l IH]; simpl; [constructor | now apply insert_label_Sorted].
Qed.

Lemma mlb_classes_In y cl :
  In cl (mlb_classes y) <-> exists labels, In labels y /\ In cl labels.
Proof.
  unfold mlb_classes, string_set. split.
  - intros H. apply (Permutation_in _ (sorted_labels_Permutation _)) in H.
    apply nodup_In in H. now apply in_concat in H.
  - intros H. apply (Permutation_in _ (Permutation_sym (sorted_labels_Permutation _))).
    apply nodup_In. now apply in_concat.
Qed.

Lemma mlb_classes_NoDup y : NoDup (mlb_classes y).
Proof.
  unfold mlb_classes.
  apply (Permutation_NoDup (Permutation_sym (sorted_labels_Permutation _))).
  apply NoDup_nodup.
Qed.

Lemma existsb_label c labels : existsb (String.eqb c) labels = true <-> In c labels.
Proof.
  rewrite existsb_exists. split.
  - intros [x [Hx E]]. apply String.eqb_eq in E. now subst.
  - intros H. exists c. split; [assumption | apply String.eqb_refl].
Qed.

Lemma binarize_entry classes labels j cl :
  nth_error classes j = Some cl ->
  (In cl labels /\ nth_error (binarize classes labels) j = Some (1#1)%Q)
  \/ (~ In cl labels /\ nth_error (binarize classes labels) j = Some (0#1)%Q).
Proof.
  intros H. unfold binarize. rewrite nth_error_map, H. simpl.
  destruct (existsb (String.eqb cl) labels) eqn:E.
  - left. split; [now apply existsb_label | reflexivity].
  - right. split; [| reflexivity]. intros Hin. apply existsb_label in Hin. congruence.
Qed.

Lemma item_tags_In c it t : In t (item_tags c it) <-> has_token c it t.
Proof.
  unfold item_tags, string_set, has_token. rewrite nodup_In, in_flat_map. split.
  - intros [col [Hcol Hin]]. unfold cell_set in Hin.
    destruct (cell_of col it) as [l |] eqn:E; [| contradiction].
    apply nodup_In in Hin. now exists col, l.
  - intros (col & l & Hcol & Hcell & Hin). exists col. split; [assumption |].
    unfold cell_set. rewrite Hcell. now apply nodup_In.
Qed.

Lemma tag_name_injective a b : ("tag_" ++ a)%string = ("tag_" ++ b)%string -> a = b.
Proof. simpl. now intros [= ->]. Qed.

Lemma feature_names_nth c table j t :
  nth_error (feature_names c table) j = Some ("tag_" ++ t)%string
  <-> nth_error (mlb_classes (map (item_tags c) table)) j = Some t.
Proof.
  unfold feature_names, _generate_item_features. cbn [fst].
  rewrite nth_error_map.
  destruct (nth_error (mlb_classes (map (item_tags c) table)) j) as [cl |]; simpl.
  - split; [intros [= ->]; reflexivity | now intros [= ->]].
  - split; discriminate.
Qed.

(** The entry of an item's row in the column of a token tells whether the
    item has the token. *)
Lemma feature_entry c table i j it t :
  nth_error table i = Some it ->
  nth_error (feature_names c table) j = Some ("tag_" ++ t)%string ->
  exists row,
    nth_error (feature_rows c table) i = Some row
    /\ ((has_token c it t /\ nth_error row j = Some (1#1)%Q)
        \/ (~ has_token c it t /\ nth_error row j = Some (0#1)%Q)).
Proof.
  intros Hi Hj. apply feature_names_nth in Hj.
  unfold feature_rows, _generate_item_features, mlb_fit_transform. cbn [snd].
  rewrite !nth_error_map, Hi. simpl. eexists. split; [reflexivity |].
  rewrite <- item_tags_In. now apply binarize_entry.
Qed.

Lemma feature_names_In c table t :
  In ("tag_" ++ t)%string (feature_names c table)
  <-> exists it, In it table /\ has_token c it t.
Proof.
  unfold feature_names, _generate_item_features. cbn [fst].
  rewrite in_map_iff. split.
  - intros [cl [E Hin]]. apply tag_name_injective in E. subst cl.
    apply mlb_classes_In in Hin. destruct Hin as [labels [Hl Ht]].
    apply in_map_iff in Hl. destruct Hl as [it [<- Hit]].
    exists it. split; [assumption | now apply item_tags_In].
  - intros [it [Hit Ht]]. exists t. split; [reflexivity |].
    apply mlb_classes_In. exists (item_tags c it).
    split; [now apply in_map | now apply item_tags_In].
Qed.

(** X16.  The feature table has one row per item and one column per token
    that some item has, each named ["tag_"] followed by the token and none
    twice, in sorted order of the tokens; every row has that many entries;
    and the entry of an item in the column of a token is 1 when the item has
    the token in one of the kept columns and 0 otherwise. *)
Theorem item_features_shape c table :
  length (feature_names c table) = feature_width c table
  /\ length (feature_rows c table) = length table
  /\ Forall (fun row => length row = feature_width c table) (feature_rows c table)
  /\ NoDup (feature_names c table)
  /\ Sorted (fun a b => String.leb a b = true) (mlb_classes (map (item_tags c) table))
  /\ (forall t, In ("tag_" ++ t)%string (feature_names c table)
                <-> exists it, In it table /\ has_token c it t)
  /\ (forall i j it t,
        nth_error table i = Some it ->
        nth_error (feature_names c table) j = Some ("tag_" ++ t)%string ->
        exists row,
          nth_error (feature_rows c table) i = Some row
          /\ ((has_token c it t /\ nth_error row j = Some (1#1)%Q)
              \/ (~ has_token c it t /\ nth_error row j = Some (0#1)%Q))).
Proof.
  unfold feature_names, feature_rows, feature_width, _generate_item_features.
  cbn [fst snd]. repeat split.
  - apply length_map.
  - unfold mlb_fit_transform. now rewrite !length_map.
  - unfold mlb_fit_transform. apply Forall_forall. intros row Hrow.
    apply in_map_iff in Hrow. destruct Hrow as [labels [<- _]].
    unfold binarize. apply length_map.
  - apply Finite.Injective_map_NoDup; [| apply mlb_classes_NoDup].
    intros a b. apply tag_name_injective.
  - apply sorted_labels_Sorted.
  - apply (feature_names_In c table t).
  - apply (feature_names_In c table t).
  - intros i j it t. apply feature_entry.
Qed.

(** X17.  Two items of the table get the same feature row exactly when they
    have the same tokens; the order and the repetitions of the tokens in
    the cells play no part. *)
Theorem same_row_iff_same_tokens c table i j a b ra rb :
  nth_error table i = Some a ->
  nth_error table j = Some b ->
  nth_error (feature_rows c table) i = Some ra ->
  nth_error (feature_rows c table) j = Some rb ->
  (ra = rb <-> forall t, has_token c a t <-> has_token c b t).
Proof.
  intros Ha Hb Hra Hrb. split.
  - intros <-.
    assert (Hone : forall x y rx ry t,
               nth_error table x = Some a -> nth_error table y = Some b ->
               nth_error (feature_rows c table) x = Some rx ->
               nth_error (feature_rows c table) y = Some ry -> rx = ry ->
               has_token c a t -> has_token c b t).
    { intros x y rx ry t Hx Hy Hrx Hry <- Ht.
      assert (Hin : In ("tag_" ++ t)%string (feature_names c table)).
      { apply feature_names_In. exists a. split; [| assumption].
        now apply nth_error_In with x. }
      apply In_nth_error in Hin. destruct Hin as [p Hp].
      destruct (feature_entry c table x p a t Hx Hp) as (r1 & Hr1 & H1).
      destruct (feature_entry c table y p b t Hy Hp) as (r2 & Hr2 & H2).
      rewrite Hrx in Hr1. rewrite Hry in Hr2.
      injection Hr1 as <-. injection Hr2 as <-.
      destruct H1 as [[_ E1] | [N1 _]]; [| contradiction].
      destruct H2 as [[T2 _] | [_ E2]]; [assumption |]. congruence. }
    intros t. split.
    + now apply (Hone i j ra ra).
    + intros Ht.
      assert (Hin : In ("tag_" ++ t)%string (feature_names c table)).
      { apply feature_names_In. exists b. split; [| assumption].
        now apply nth_error_In with j. }
      apply In_nth_error in Hin. destruct Hin as [p Hp].
      destruct (feature_entry c table i p a t Ha Hp) as (r1 & Hr1 & H1).
      destruct (feature_entry c table j p b t Hb Hp) as (r2 & Hr2 & H2).
      rewrite Hra in Hr1. rewrite Hrb in Hr2.
      injection Hr1 as <-. injection Hr2 as <-.
      destruct H2 as [[_ E2] | [N2 _]]; [| contradiction].
      destruct H1 as [[T1 _] | [_ E1]]; [assumption |]. congruence.
  - intros Hsame.
    unfold feature_rows, _generate_item_features, mlb_fit_transform in Hra, Hrb.
    cbn [snd] in Hra, Hrb.
    rewrite !nth_error_map, Ha in Hra. rewrite !nth_error_map, Hb in Hrb.
    cbn [option_map] in Hra, Hrb. injection Hra as <-. injection Hrb as <-.
    unfold binarize. apply map_ext. intros cl.
    destruct (existsb (String.eqb cl) (item_tags c a)) eqn:E1;
      destruct (existsb (String.eqb cl) (item_tags c b)) eqn:E2; try reflexivity.
    + apply existsb_label, item_tags_In, Hsame, item_tags_In, existsb_label in E1.
      congruence.
    + apply existsb_label, item_tags_In, Hsame, item_tags_In, existsb_label in E2.
      congruence.
Qed.

(** X18.  The improved encoding extends the basic one: every token of an
    item under the basic column selection is a token of it under the
    improved selection, every basic feature column is an improved feature
    column, and where the basic table has a 1 the improved table has a 1 in
    the column of the same name. *)
Theorem improved_encoding_extends table :
  (forall it t, has_token ContentBasedRecommender it t ->
                has_token ImprovedRecommender it t)
  /\ incl (feature_names ContentBasedRecommender table)
          (feature_names ImprovedRecommender table)
  /\ (forall i j j' t row row',
        nth_error (feature_names ContentBasedRecommender table) j
        = Some ("tag_" ++ t)%string ->
        nth_error (feature_names ImprovedRecommender table) j'
        = Some ("tag_" ++ t)%string ->
        nth_error (feature_rows ContentBasedRecommender table) i = Some row ->
        nth_error (feature_rows ImprovedRecommender table) i = Some row' ->
        nth_error row j = Some (1#1)%Q -> nth_error row' j' = Some (1#1)%Q).
Proof.
  assert (Hext : forall it t, has_token ContentBasedRecommender it t ->
                              has_token ImprovedRecommender it t).
  { intros it t (col & l & Hcol & Hcell & Hin). exists col, l.
    repeat split; try assumption. simpl in *. intuition. }
  split; [exact Hext |]. split.
  - intros name Hname.
    assert (Ht : exists t, name = ("tag_" ++ t)%string).
    { unfold feature_names, _generate_item_features in Hname. cbn [fst] in Hname.
      apply in_map_iff in Hname. destruct Hname as [t [<- _]]. now exists t. }
    destruct Ht as [t ->].
    apply feature_names_In in Hname. destruct Hname as [it [Hit Htok]].
    apply feature_names_In. exists it. auto.
  - intros i j j' t row row' Hj Hj' Hrow Hrow' H1.
    assert (Hit : exists it, nth_error table i = Some it).
    { destruct (nth_error table i) as [it |] eqn:E; [eauto |].
      apply nth_error_None in E.
      assert (Hlen : length (feature_rows ContentBasedRecommender table) = length table).
      { unfold feature_rows, _generate_item_features, mlb_fit_transform. cbn [snd].
        now rewrite !length_map. }
      assert (Hlt : i < length (feature_rows ContentBasedRecommender table))
        by (apply nth_error_Some; congruence).
      lia. }
    destruct Hit as [it Hit].
    destruct (feature_entry _ table i j it t Hit Hj) as (r & Hr & Hc).
    destruct (feature_entry _ table i j' it t Hit Hj') as (r' & Hr' & Hc').
    rewrite Hrow in Hr. rewrite Hrow' in Hr'. injection Hr as <-. injection Hr' as <-.
    destruct Hc as [[Htok _] | [_ E0]]; [| congruence].
    destruct Hc' as [[_ E1] | [Hno _]]; [assumption |].
    exfalso. now apply Hno, Hext.
Qed.

(** The table of scenario 1 is the encoding of its items. *)
Example scenario1_features_encoded :
  snd (_generate_item_features ContentBasedRecommender scenario1_items)
  = scenario1_features.
Proof. vm_compute. reflexivity. Qed.

Lemma same_row_iff_same_tokens_witness :
  has_token ContentBasedRecommender
    {| genres := Some ["rpg"%string]; tags := None; specs := None;
       developer := None; publisher := None |} "rpg"
  <-> has_token ContentBasedRecommender
        {| genres := Some ["rpg"%string]; tags := Some ["rpg"; "rpg"]%string;
           specs := None; developer := None; publisher := None |} "rpg".
Proof.
  apply (proj1 (same_row_iff_same_tokens ContentBasedRecommender scenario1_items 0 1 _ _
                  [1#1; 0#1]%Q [1#1; 0#1]%Q eq_refl eq_refl eq_refl eq_refl) eq_refl).
Defined.

(** ** The popularity baseline *)

Lemma column_values_Forall2 cols name rows col :
  column_values cols name rows = Ok col ->
  Forall2 (fun (r : nat * row_t) c => getitem (snd r) name = Ok c) rows col.
Proof.
  revert col. induction rows as [| [i r] rows IH]; intros col; simpl.
  - destruct (has_column name cols); [| discriminate]. intros [= <-]. constructor.
  - destruct (getitem r name) as [c | |] eqn:E; simpl; try discriminate.
    destruct (column_values cols name rows) as [cs | |]; simpl; try discriminate.
    intros [= <-]. constructor; [assumption | now apply IH].
Qed.

Lemma column_values_listed df item_id :
  column_values (columns df) "item_id" (records df) = Ok item_id ->
  concat item_id = listed_items df.
Proof.
  intros H. apply column_values_Forall2 in H. unfold listed_items.
  induction H as [| [i r] c rows col Hc Hf IH]; [reflexivity |].
  simpl in *. unfold getitem in Hc.
  destruct (lookup "item_id" r); [| discriminate]. injection Hc as ->.
  now rewrite IH.
Qed.

Lemma In_zip_rows_map (f : cell -> cell) (P : nat * row_t -> cell -> Prop) name rows :
  forall col i r',
    Forall2 P rows col ->
    In (i, r') (zip_rows name rows (map f col)) ->
    exists r c, In (i, r) rows /\ P (i, r) c /\ r' = set_cell name (f c) r.
Proof.
  induction rows as [| [j r] rows IH]; intros col i r' Hf Hin;
    inversion Hf as [| x c l l' Hp Hf']; subst; simpl in Hin; [contradiction |].
  destruct Hin as [[= <- <-] | Hin].
  - exists r, c. split; [now left |]. split; [assumption | reflexivity].
  - destruct (IH _ _ _ Hf' Hin) as (r0 & c0 & H1 & H2 & H3). exists r0, c0.
    split; [now right |]. split; assumption.
Qed.

Section PopularityFacts.

Variable vc : list nat -> list nat.
Variable self : PopBasedRecommender.
Variable read_max : option nat.

Let df := fst (select_users (pop_train self) read_max).

(** What a completed call stores for a user. *)
Lemma pop_stored_row self' :
  pop_generate_recommendations vc self read_max = Ok self' ->
  exists df',
    pop_recommendations self' = Some df'
    /\ forall index row,
         In (index, row) (records df') ->
         exists row0 x,
           In (index, row0) (records df)
           /\ getitem row0 "item_id" = Ok x
           /\ getitem row "item_id" = Ok x
           /\ getitem row "recommendations"
              = Ok (popular_for (vc (listed_items df)) x).
Proof.
  unfold pop_generate_recommendations. subst df.
  destruct (select_users (pop_train self) read_max) as [d b]. simpl fst.
  destruct (column_values (columns d) "item_id" (records d)) as [item_id | |] eqn:Hcol;
    simpl; try discriminate.
  unfold setitem. rewrite length_map.
  pose proof (column_values_Forall2 _ _ _ _ Hcol) as Hf.
  match goal with
  | |- context [negb ?t] =>
      assert (E : t = true)
        by (apply Nat.eqb_eq; symmetry; exact (Forall2_length Hf));
      rewrite E
  end.
  simpl.
  intros [= <-]. eexists. split; [reflexivity |].
  intros index row Hin. simpl in Hin.
  destruct (In_zip_rows_map _ _ _ _ _ _ _ Hf Hin) as (r0 & x & Hr0 & Hx & ->).
  simpl in Hx. exists r0, x. split; [assumption |]. split; [assumption |].
  unfold getitem in *.
  rewrite lookup_set_cell_other by discriminate.
  rewrite lookup_set_cell_same, (column_values_listed _ _ Hcol). auto.
Qed.

Hypothesis Hvc : value_counts_ok vc.

Lemma popular_for_facts l x :
  let recs := popular_for (vc l) x in
  Forall (fun id => ~ In id x) recs
  /\ NoDup recs
  /\ Forall (fun id => In id l) recs
  /\ length recs = Nat.min 10 (length (filter (fun i => negb (mem i x)) (to_set l)))
  /\ StronglySorted (fun a b => count_occ Nat.eq_dec l b <= count_occ Nat.eq_dec l a) recs
  /\ (forall i j, In i recs -> In j l -> ~ In j x -> ~ In j recs ->
                  count_occ Nat.eq_dec l j <= count_occ Nat.eq_dec l i).
Proof.
  cbv zeta. unfold popular_for.
  destruct (Hvc l) as (Hnd & Hin & Hs).
  repeat split.
  - apply Forall_forall. intros id Hid. apply firstn_incl in Hid.
    apply filter_In in Hid. destruct Hid as [_ Hid].
    apply negb_true_iff in Hid. now apply mem_false.
  - now apply firstn_NoDup, NoDup_filter.
  - apply Forall_forall. intros id Hid. apply firstn_incl in Hid.
    apply filter_In in Hid. now apply Hin.
  - rewrite length_firstn. f_equal.
    apply Permutation_length, NoDup_Permutation.
    + now apply NoDup_filter.
    + apply NoDup_filter, NoDup_nodup.
    + intros id. rewrite !filter_In. unfold to_set. rewrite nodup_In, Hin. reflexivity.
  - now apply StronglySorted_firstn, StronglySorted_filter.
  - intros i j Hi Hj Hx Hout.
    set (f := filter (fun rec => negb (mem rec x)) (vc l)) in *.
    assert (Hjf : In j f).
    { apply filter_In. split; [now apply Hin |].
      apply negb_true_iff. now apply mem_false. }
    destruct (in_firstn_or_skipn 10 _ _ Hjf) as [C | Hsk]; [contradiction |].
    assert (Hsf : StronglySorted
                    (fun a b => count_occ Nat.eq_dec l b <= count_occ Nat.eq_dec l a) f)
      by now apply StronglySorted_filter.
    rewrite <- (firstn_skipn 10 f) in Hsf.
    now apply (StronglySorted_app_inv _ _ _ Hsf).
Qed.

(** X19.  The popularity baseline recommends to a user at most ten pairwise
    distinct items, none of which the user has, and each of which some
    processed user has; and it recommends ten of them unless fewer listed
    items are new to the user, in which case it recommends all of those. *)
Theorem popular_recommendations_sound self' df' index row recs x :
  pop_generate_recommendations vc self read_max = Ok self' ->
  pop_recommendations self' = Some df' ->
  In (index, row) (records df') ->
  getitem row "recommendations" = Ok recs ->
  getitem row "item_id" = Ok x ->
  Forall (fun id => ~ In id x) recs
  /\ NoDup recs
  /\ Forall (fun id => In id (listed_items df)) recs
  /\ length recs
     = Nat.min 10 (length (filter (fun i => negb (mem i x)) (to_set (listed_items df)))).
Proof.
  intros Hrun Hdf Hin Hrecs Hx.
  destruct (pop_stored_row self' Hrun) as (d & Hd & Hrows).
  rewrite Hdf in Hd. injection Hd as <-.
  destruct (Hrows index row Hin) as (row0 & x0 & _ & _ & Hx0 & Hr).
  rewrite Hx in Hx0. injection Hx0 as <-.
  rewrite Hrecs in Hr. injection Hr as ->.
  destruct (popular_for_facts (listed_items df) x) as (H1 & H2 & H3 & H4 & _).
  auto.
Qed.

(** X20.  The list recommended to a user is in non-increasing order of
    popularity (the number of times the processed users list the item), and
    it is the top of that order: a listed item that the user does not have
    and is not recommended is no more popular than any recommended item. *)
Theorem popular_recommendations_ranked self' df' index row recs x :
  pop_generate_recommendations vc self read_max = Ok self' ->
  pop_recommendations self' = Some df' ->
  In (index, row) (records df') ->
  getitem row "recommendations" = Ok recs ->
  getitem row "item_id" = Ok x ->
  StronglySorted (fun a b => popularity df b <= popularity df a) recs
  /\ forall i j,
       In i recs -> In j (listed_items df) -> ~ In j x -> ~ In j recs ->
       popularity df j <= popularity df i.
Proof.
  intros Hrun Hdf Hin Hrecs Hx.
  destruct (pop_stored_row self' Hrun) as (d & Hd & Hrows).
  rewrite Hdf in Hd. injection Hd as <-.
  destruct (Hrows index row Hin) as (row0 & x0 & _ & _ & Hx0 & Hr).
  rewrite Hx in Hx0. injection Hx0 as <-.
  rewrite Hrecs in Hr. injection Hr as ->.
  destruct (popular_for_facts (listed_items df) x) as (_ & _ & _ & _ & H5 & H6).
  split; assumption.
Qed.

End PopularityFacts.

(** The executable [value_counts] meets what pandas promises, whatever it
    does with ties. *)
Lemma toy_value_counts_Permutation ties l :
  Permutation (toy_value_counts ties l) (to_set l).
Proof.
  unfold toy_value_counts. induction (to_set l) as [| i t IH]; simpl; [reflexivity |].
  rewrite insert_Permutation. now constructor.
Qed.

Lemma StronglySorted_weaken {A : Type} (R R' : A -> A -> Prop) (l : list A) :
  (forall a b, R a b -> R' a b) -> StronglySorted R l -> StronglySorted R' l.
Proof.
  intros Himp. induction 1 as [| a t Hs IH Ha]; constructor; [assumption |].
  eapply Forall_impl; [| exact Ha]. intros b. apply Himp.
Qed.

Lemma toy_value_counts_ok ties : value_counts_ok (toy_value_counts ties).
Proof.
  intros l. split; [| split].
  - apply (Permutation_NoDup (Permutation_sym (toy_value_counts_Permutation ties l))).
    apply NoDup_nodup.
  - intros x. rewrite <- (nodup_In Nat.eq_dec l x). fold (to_set l).
    split; apply Permutation_in;
      [| apply Permutation_sym]; apply toy_value_counts_Permutation.
  - apply StronglySorted_weaken
      with (R := fun a b => (count_rank l a <= count_rank l b)%Q).
    + intros a b H. unfold count_rank in H. rewrite <- Zle_Qle in H. lia.
    + apply Sorted_StronglySorted; [apply Qle_transitive |].
      unfold toy_value_counts.
      induction (to_set l) as [| i t IH]; simpl; [constructor |].
      now apply insert_Sorted.
Qed.

Lemma popular_recommendations_sound_witness :
  Forall (fun id => ~ In id [1; 2; 3]) [0]
  /\ NoDup [0]
  /\ Forall (fun id => In id [0; 1; 1; 2; 3]) [0]
  /\ 1 = Nat.min 10 1.
Proof.
  eapply (popular_recommendations_sound (toy_value_counts true) pop_scenario None
            (toy_value_counts_ok true) _ _ 8
            [("item_id"%string, [1; 2; 3]); ("recommendations"%string, [0])]
            [0] [1; 2; 3]).
  - reflexivity.
  - reflexivity.
  - right. left. reflexivity.
  - reflexivity.
  - reflexivity.
Defined.

Lemma popular_recommendations_ranked_witness :
  popularity (pop_train pop_scenario_many) 9 <= popularity (pop_train pop_scenario_many) 11.
Proof.
  refine (proj2 (popular_recommendations_ranked (toy_value_counts true)
                   pop_scenario_many None (toy_value_counts_ok true) _ _ 9
                   [("item_id"%string, []);
                    ("recommendations"%string, [11; 0; 1; 2; 3; 4; 5; 6; 7; 8])]
                   [11; 0; 1; 2; 3; 4; 5; 6; 7; 8] [] _ _ _ _ _) 11 9 _ _ _ _).
  - reflexivity.
  - reflexivity.
  - right. right. left. reflexivity.
  - reflexivity.
  - reflexivity.
  - left. reflexivity.
  - vm_compute. tauto.
  - intros [].
  - vm_compute. intros H. decompose [or] H; discriminate || assumption.
Defined.

(** ** The weights of the feedback branch *)

Lemma nth_error_combine {A B : Type} (a : list A) (b : list B) i x y :
  nth_error a i = Some x -> nth_error b i = Some y ->
  nth_error (combine a b) i = Some (x, y).
Proof.
  revert b i. induction a as [| a0 a IH]; intros [| b0 b] [| i]; simpl;
    try discriminate.
  - now intros [= ->] [= ->].
  - apply IH.
Qed.

Lemma apply_review_length labels wf lr :
  length wf = length labels -> length (apply_review labels wf lr) = length wf.
Proof.
  intros H. unfold apply_review. destruct lr as [like review].
  destruct (mem review labels); [| reflexivity].
  rewrite length_map, length_combine. lia.
Qed.

Lemma apply_review_nth labels wf like review i l w :
  nth_error labels i = Some l -> nth_error wf i = Some w ->
  nth_error (apply_review labels wf (like, review)) i
  = Some (if review =? l then ((if like then 1#1 else 0#1)%Q, true) else w).
Proof.
  intros Hl Hw. unfold apply_review.
  destruct (mem review labels) eqn:Hm.
  - rewrite nth_error_map, (nth_error_combine _ _ _ _ _ Hl Hw). cbn [option_map fst snd].
    rewrite Nat.eqb_sym. reflexivity.
  - destruct (review =? l) eqn:E; [| assumption].
    apply Nat.eqb_eq in E. subst review.
    apply nth_error_In in Hl. apply mem_false in Hm. contradiction.
Qed.

Lemma fold_apply_review_nth labels rs :
  forall wf i l w,
    length wf = length labels ->
    nth_error labels i = Some l -> nth_error wf i = Some w ->
    nth_error (fold_left (apply_review labels) rs wf) i
    = Some (match last_review rs l with
            | Some like => ((if like then 1#1 else 0#1)%Q, true)
            | None => w
            end).
Proof.
  induction rs as [| [like review] rest IH]; intros wf i l w Hlen Hl Hw;
    cbn [fold_left last_review].
  - assumption.
  - rewrite (IH _ i l _ (eq_trans (apply_review_length labels wf (like, review) Hlen) Hlen)
               Hl (apply_review_nth labels wf like review i l w Hl Hw)).
    destruct (last_review rest l); [reflexivity |].
    destruct (review =? l); reflexivity.
Qed.

(** X21.  The weight the feedback branch computes for an owned item is 1 or
    0 according to the user's last review of it (recommended or not), and
    the item's sentiment when the user did not review it; reviews of items
    the user does not own change nothing. *)
Theorem feedback_weight_rule labels sentiment fb i l s :
  nth_error labels i = Some l ->
  nth_error sentiment i = Some s ->
  nth_error (feedback_weights labels sentiment fb) i
  = Some (match fb with
          | Some (recommend_flags, reviewed) =>
              match last_review (combine recommend_flags reviewed) l with
              | Some like => Some (if like then 1#1 else 0#1)%Q
              | None => s
              end
          | None => s
          end).
Proof.
  intros Hl Hs. unfold feedback_weights.
  assert (Hinit : nth_error (map (fun _ : nat => ((0#1)%Q, false)) labels) i
                  = Some ((0#1)%Q, false))
    by (rewrite nth_error_map, Hl; reflexivity).
  assert (Hw : nth_error (explicit_feedback labels fb) i
               = Some (match fb with
                       | Some (recommend_flags, reviewed) =>
                           match last_review (combine recommend_flags reviewed) l with
                           | Some like => ((if like then 1#1 else 0#1)%Q, true)
                           | None => ((0#1)%Q, false)
                           end
                       | None => ((0#1)%Q, false)
                       end)).
  { unfold explicit_feedback. destruct fb as [[recommend_flags reviewed] |].
    - apply fold_apply_review_nth; [apply length_map | assumption | assumption].
    - assumption. }
  rewrite nth_error_map, (nth_error_combine _ _ _ _ _ Hw Hs). cbn [option_map].
  destruct fb as [[recommend_flags reviewed] |]; [| reflexivity].
  destruct (last_review (combine recommend_flags reviewed) l); reflexivity.
Qed.

Lemma feedback_weight_rule_witness :
  nth_error (feedback_weights [4; 6] [Some (1#2); Some (1#3)]%Q
               (Some ([true; false; true], [4; 4; 9]))) 0
  = Some (Some (0#1)%Q)
  /\ nth_error (feedback_weights [4; 6] [Some (1#2); Some (1#3)]%Q
                  (Some ([true; false; true], [4; 4; 9]))) 1
     = Some (Some (1#3)%Q).
Proof.
  split.
  - apply (feedback_weight_rule [4; 6] [Some (1#2); Some (1#3)]%Q
             (Some ([true; false; true], [4; 4; 9])) 0 4 (Some (1#2)%Q));
      reflexivity.
  - exact (feedback_weight_rule [4; 6] [Some (1#2); Some (1#3)]%Q
             (Some ([true; false; true], [4; 4; 9])) 1 6 (Some (1#3)%Q)
             eq_refl eq_refl).
Defined.

(** ** Developer and publisher names *)

Lemma split_length sep s :
  length (split sep s) = S (count_occ Ascii.ascii_dec (list_ascii_of_string s) sep).
Proof.
  induction s as [| c s IH]; [reflexivity |]. cbn [split list_ascii_of_string].
  destruct (Ascii.eqb_spec c sep) as [-> | Hc].
  - rewrite count_occ_cons_eq by reflexivity. cbn [length]. now rewrite IH.
  - rewrite count_occ_cons_neq by assumption. rewrite <- IH.
    destruct (split sep s) as [| tok toks] eqn:E; [now apply split_not_nil in E |].
    reflexivity.
Qed.

Lemma split_chars sep s :
  flat_map list_ascii_of_string (split sep s)
  = filter (fun c => negb (Ascii.eqb c sep)) (list_ascii_of_string s).
Proof.
  induction s as [| c s IH]; [reflexivity |]. cbn [split list_ascii_of_string filter].
  destruct (Ascii.eqb_spec c sep) as [-> | Hc]; cbn [negb].
  - cbn [flat_map list_ascii_of_string app]. exact IH.
  - rewrite <- IH.
    destruct (split sep s) as [| tok toks] eqn:E; [now apply split_not_nil in E |].
    reflexivity.
Qed.

Lemma lower_char_comma c : lower_char c = comma <-> c = comma.
Proof.
  destruct c as [[] [] [] [] [] [] [] []]; vm_compute; split; intros H;
    try reflexivity; discriminate H.
Qed.

Lemma lower_char_not_upper c : is_upper (lower_char c) = false.
Proof. destruct c as [[] [] [] [] [] [] [] []]; vm_compute; reflexivity. Qed.

Lemma lower_commas s :
  count_occ Ascii.ascii_dec (list_ascii_of_string (lower s)) comma
  = count_occ Ascii.ascii_dec (list_ascii_of_string s) comma.
Proof.
  induction s as [| c s IH]; [reflexivity |]. cbn [lower list_ascii_of_string].
  destruct (Ascii.ascii_dec c comma) as [-> | Hc].
  - rewrite (count_occ_cons_eq Ascii.ascii_dec _ (proj2 (lower_char_comma comma) eq_refl)).
    rewrite (count_occ_cons_eq Ascii.ascii_dec _ (eq_refl comma)). now rewrite IH.
  - rewrite (count_occ_cons_neq Ascii.ascii_dec _ Hc).
    rewrite count_occ_cons_neq; [assumption |].
    intros H. apply Hc. exact (proj1 (lower_char_comma c) H).
Qed.

Lemma lower_chars s :
  Forall (fun c => is_upper c = false) (list_ascii_of_string (lower s)).
Proof.
  induction s as [| c s IH]; [constructor |]. cbn [lower list_ascii_of_string].
  constructor; [apply lower_char_not_upper | assumption].
Qed.

(** X14.  A developer or publisher text with [n] commas becomes [n + 1]
    names, so an empty text becomes the single empty name and never an
    empty list; the names hold no comma and no upper-case letter, and
    together they are the lower-cased text without its commas.  Every name
    of an item, the empty one included, is a feature column of the improved
    recommender. *)
Theorem split_names_shape my_str :
  length (split_names my_str)
  = S (count_occ Ascii.ascii_dec (list_ascii_of_string my_str) comma)
  /\ Forall (fun name =>
               Forall (fun c => c <> comma /\ is_upper c = false)
                      (list_ascii_of_string name))
            (split_names my_str)
  /\ flat_map list_ascii_of_string (split_names my_str)
     = filter (fun c => negb (Ascii.eqb c comma)) (list_ascii_of_string (lower my_str))
  /\ (forall table it name,
        In it table ->
        developer it = Some (split_names my_str)
        \/ publisher it = Some (split_names my_str) ->
        In name (split_names my_str) ->
        In ("tag_" ++ name)%string (feature_names ImprovedRecommender table)).
Proof.
  unfold split_names. split; [| split; [| split]].
  - now rewrite split_length, lower_commas.
  - apply Forall_forall. intros name Hname. apply Forall_forall. intros c Hc.
    split.
    + intros ->. pose proof (split_no_sep comma (lower my_str)) as H.
      rewrite Forall_forall in H. now apply (H name).
    + assert (Hin : In c (flat_map list_ascii_of_string (split comma (lower my_str))))
        by (apply in_flat_map; now exists name).
      rewrite split_chars in Hin. apply filter_In in Hin. destruct Hin as [Hin _].
      pose proof (lower_chars my_str) as H. rewrite Forall_forall in H. now apply H.
  - apply split_chars.
  - intros table it name Hit Hcell Hname. apply feature_names_In.
    exists it. split; [assumption |]. unfold has_token.
    destruct Hcell as [Hd | Hp].
    + exists Developer. eexists. split; [| split; [exact Hd | exact Hname]].
      simpl. tauto.
    + exists Publisher. eexists. split; [| split; [exact Hp | exact Hname]].
      simpl. tauto.
Qed.

Lemma split_names_shape_witness :
  In "tag_"%string
     (feature_names ImprovedRecommender
        [ {| genres := Some ["rpg"%string]; tags := None; specs := None;
             developer := Some (split_names ""); publisher := None |} ]).
Proof.
  refine (proj2 (proj2 (proj2 (split_names_shape ""))) _ _ ""%string _ _ _).
  - left. reflexivity.
  - left. reflexivity.
  - left. reflexivity.
Defined.
